(** * Billing reconciliation core of dwolla-billing

    A shallow embedding of the Express handlers of [src/server.js]
    (the modular revision, which requires [webhooks/ghl-usage.js] and
    [webhooks/dwolla-webhook.js]) together with the PostgreSQL schema of
    [sql/001_schema.sql] and [sql/002_add_invoice_id_to_usage.sql].

    Modelling conventions.
    - JavaScript values are the inductive [JsValue]; numbers are [JsNum]:
      NaN, the two infinities and the finite values, as rationals.  The
      [numeric] column and its SUM are exact.  A finite number of a request
      body stands for the decimal JavaScript prints for it, which is the
      text node-postgres sends and PostgreSQL stores.  The amount
      [Math.round(Number(customer.units) * PRICE_PER_UNIT_CENTS)] is
      computed in double precision: [binary64] rounds a rational to the
      nearest double, ties to even, as the conversion of the numeric text
      and the product do, and [Math.round] of a double is exact.  The
      totals of a response add whole cents, which JavaScript adds exactly
      below 2^53, and are kept exact; [total_amount_dollars] stands for
      the value [toFixed(2)] prints.  The sign of zero and the range of
      the [int] column are not modelled.
    - Handlers are computations of the monad [M]: a state transformer over
      [World] that may throw an [Error], with [try_catch] for the
      [try]/[catch] blocks of the source.  A handler returns the response
      it sends; logging is left out.
    - The handlers are parametric in the [db] object exactly as the
      factories of the source are; [pg_query] is the PostgreSQL instance,
      interpreting each statement on the tables of the schema.  It is
      reliable: a statement throws only for a null in a NOT NULL column
      or for an amount that is no integer, and the server reads a
      timestamp from every [occurred_at] the validation lets through.
      Connection pooling ([db.connect], [client.release]) is left out.
    - What lies outside the repository (ECMAScript conversions, luxon,
      node-postgres serialisation, JSON.parse, HMAC-SHA256, the network)
      is the record [Runtime], over which every theorem quantifies.
    - Handlers run one at a time (no interleaving at [await] points) and
      the clock advances through [setTimeout] delays, or between requests. *)

From Stdlib Require Import QArith Qround Qabs Lqa.
From stdpp Require Import gmap strings list fin_maps pretty.

Local Open Scope string_scope.
Local Open Scope Z_scope.

(** ** JavaScript values *)

Inductive JsNum : Type :=
  | NaN
  | Inf (negative : bool)
  | Fin (q : Q).

#[local] Unset Elimination Schemes.
Inductive JsValue : Type :=
  | JUndefined
  | JNull
  | JBool (b : bool)
  | JNum (n : JsNum)
  | JStr (s : string)
  | JArray (items : list JsValue)
  | JObject (fields : list (string * JsValue)).
#[local] Set Elimination Schemes.

(** [n <= 0] and [n > 0] on JavaScript numbers: comparisons with NaN are
    false. *)
Definition js_le0 (n : JsNum) : bool :=
  match n with
  | NaN => false
  | Inf negative => negative
  | Fin q => Qle_bool q 0%Q
  end.

Definition js_isNaN (n : JsNum) : bool :=
  match n with NaN => true | _ => false end.

Definition js_add (a b : JsNum) : JsNum :=
  match a, b with
  | NaN, _ | _, NaN => NaN
  | Inf s, Inf t => if Bool.eqb s t then Inf s else NaN
  | Inf s, Fin _ | Fin _, Inf s => Inf s
  | Fin x, Fin y => Fin (x + y)%Q
  end.

(** *** Double precision

    The integer nearest to [n / d], ties to the even one, for [0 <= n]
    and [0 < d]. *)
Definition nearest_even (n d : Z) : Z :=
  let f := n / d in
  match 2 * (n mod d) ?= d with
  | Lt => f
  | Gt => f + 1
  | Eq => if Z.even f then f else f + 1
  end.

(** The integer part of the binary logarithm of [n / d], for positive [n]
    and [d]. *)
Definition floor_log2 (n d : Z) : Z :=
  let l := Z.log2 n - Z.log2 d in
  if d * 2 ^ Z.max 0 l <=? n * 2 ^ Z.max 0 (- l) then l else l - 1.

(** The IEEE 754 binary64 value nearest to a rational, ties to even: a
    significand [m] of at most 53 bits at the exponent [e] of the
    rational, which is at least -1074 (the subnormal numbers); a result of
    2^1024 or more is an infinity.  This is how ECMAScript reads a decimal
    numeral and rounds the exact result of an arithmetic operator. *)
Definition binary64 (q : Q) : JsNum :=
  let n := Z.abs (Qnum q) in
  let d := Z.pos (Qden q) in
  if n =? 0 then Fin 0
  else
    let e := Z.max (floor_log2 n d - 52) (-1074) in
    let m := nearest_even (n * 2 ^ Z.max 0 (- e)) (d * 2 ^ Z.max 0 e) in
    if 2 ^ 1024 <=? m * 2 ^ Z.max 0 e then Inf (Qnum q <? 0)
    else Fin (Z.sgn (Qnum q) * m * 2 ^ Z.max 0 e
              # Z.to_pos (2 ^ Z.max 0 (- e))).

(** [Number(s)] for the text [s] PostgreSQL returns for a [numeric]: the
    double nearest to its value; NaN and the infinities are printed and
    read back as themselves. *)
Definition Number_numeric (n : JsNum) : JsNum :=
  match n with
  | Fin q => binary64 q
  | other => other
  end.

(** [n * k] for a finite positive constant [k]: the exact product,
    rounded to a double. *)
Definition js_mul_pos (n : JsNum) (k : Z) : JsNum :=
  match n with
  | NaN => NaN
  | Inf s => Inf s
  | Fin q => binary64 (q * inject_Z k)
  end.

(** [Math.round]: the nearest integer, halves rounded towards +Infinity.
    The integer nearest to a double is a double again, so nothing is
    rounded a second time. *)
Definition Math_round (n : JsNum) : JsNum :=
  match n with
  | Fin q => Fin (inject_Z (Qfloor (q + (1 # 2))%Q))
  | other => other
  end.

(** Truthiness ([!v] is its negation). *)
Definition truthy (v : JsValue) : bool :=
  match v with
  | JUndefined | JNull => false
  | JBool b => b
  | JNum NaN => false
  | JNum (Inf _) => true
  | JNum (Fin q) => negb (Qeq_bool q 0%Q)
  | JStr s => negb (String.eqb s "")
  | JArray _ | JObject _ => true
  end.

Definition is_string (v : JsValue) : bool :=
  match v with JStr _ => true | _ => false end.

Fixpoint assoc (k : string) (fields : list (string * JsValue)) : JsValue :=
  match fields with
  | [] => JUndefined
  | (k', v) :: rest => if String.eqb k k' then v else assoc k rest
  end.

(** [v.k] for the property names the handlers read ([crm_contact_id],
    [units], [_links], [topic], ...): own properties of an object, and
    [undefined] on every other value that is not [null] or [undefined]. *)
Definition get (v : JsValue) (k : string) : JsValue :=
  match v with
  | JObject fields => assoc k fields
  | _ => JUndefined
  end.

(** [v?.k] *)
Definition get_opt (v : JsValue) (k : string) : JsValue :=
  match v with
  | JUndefined | JNull => JUndefined
  | _ => get v k
  end.

(** A template literal prints a missing environment variable as
    [undefined]. *)
Definition template (o : option string) : string :=
  default "undefined" o.

(** [!s] for an optional string such as an environment variable or a
    header. *)
Definition falsy_str (o : option string) : bool :=
  match o with
  | None => true
  | Some s => String.eqb s ""
  end.

(** ** Tables of the schema *)

Record Customer := mkCustomer {
  name : option string;
  email : option string;
  dwolla_customer_href : option string;
  dwolla_funding_href : option string;
  status : option string
}.

Record UsageRow := mkUsageRow {
  usage_id : Z;
  idempotency_key : string;
  usage_crm_contact_id : string;
  units : JsNum;
  occurred_at : Z;
  invoice_id : option Z
}.

Record Invoice := mkInvoice {
  inv_id : Z;
  inv_crm_contact_id : string;
  period_start : Z;
  period_end : Z;
  amount_cents : Z;
  dwolla_transfer_href : option string;
  inv_status : string;
  created_at : Z;
  updated_at : Z
}.

(** [customers] is keyed by its primary key [crm_contact_id]. *)
Record Db := mkDb {
  customers : gmap string Customer;
  usage_ledger : list UsageRow;
  invoices : list Invoice
}.

Record TokenCache := mkTokenCache {
  token : option string;
  expiresAt : option Z
}.

(** An open transaction: its working copy of the tables and the time it
    began, which is what [now()] returns inside it. *)
Record Txn := mkTxn {
  working : Db;
  started : Z
}.

Record World := mkWorld {
  store : Db;                (* committed state of the database *)
  txn : option Txn;          (* the open transaction, if any *)
  usage_ledger_id_seq : Z;   (* serial sequences are not transactional *)
  invoices_id_seq : Z;
  clock : Z;                 (* Date.now(), milliseconds *)
  tokenCache : TokenCache;
  net_calls : nat            (* fetch calls issued so far *)
}.

Definition set_store (d : Db) (w : World) : World :=
  mkWorld d (txn w) (usage_ledger_id_seq w) (invoices_id_seq w) (clock w)
    (tokenCache w) (net_calls w).
Definition set_txn (t : option Txn) (w : World) : World :=
  mkWorld (store w) t (usage_ledger_id_seq w) (invoices_id_seq w) (clock w)
    (tokenCache w) (net_calls w).
Definition set_usage_seq (n : Z) (w : World) : World :=
  mkWorld (store w) (txn w) n (invoices_id_seq w) (clock w)
    (tokenCache w) (net_calls w).
Definition set_invoices_seq (n : Z) (w : World) : World :=
  mkWorld (store w) (txn w) (usage_ledger_id_seq w) n (clock w)
    (tokenCache w) (net_calls w).
Definition set_clock (t : Z) (w : World) : World :=
  mkWorld (store w) (txn w) (usage_ledger_id_seq w) (invoices_id_seq w) t
    (tokenCache w) (net_calls w).
Definition set_tokenCache (c : TokenCache) (w : World) : World :=
  mkWorld (store w) (txn w) (usage_ledger_id_seq w) (invoices_id_seq w)
    (clock w) c (net_calls w).
Definition set_net_calls (n : nat) (w : World) : World :=
  mkWorld (store w) (txn w) (usage_ledger_id_seq w) (invoices_id_seq w)
    (clock w) (tokenCache w) n.

(** The tables a statement sees: the transaction's working copy when one
    is open, the committed state otherwise. *)
Definition current (w : World) : Db :=
  match txn w with
  | Some t => working t
  | None => store w
  end.

Definition write (d : Db) (w : World) : World :=
  match txn w with
  | Some t => set_txn (Some (mkTxn d (started t))) w
  | None => set_store d w
  end.

(** PostgreSQL [now()]: the start of the current transaction, or of the
    statement outside a transaction block. *)
Definition now_sql (w : World) : Z :=
  match txn w with
  | Some t => started t
  | None => clock w
  end.

(** The world once BEGIN has run on an idle connection. *)
Definition begun (w : World) : World :=
  set_txn (Some (mkTxn (store w) (clock w))) w.

(** ** The monad of handlers *)

Record Error := mkError { message : string }.

Inductive Outcome (A : Type) : Type :=
  | Ok (a : A)
  | Throw (e : Error).
Arguments Ok {A} a.
Arguments Throw {A} e.

Definition M (A : Type) : Type := World -> Outcome A * World.

#[global] Instance M_ret : MRet M := fun A a w => (Ok a, w).
#[global] Instance M_bind : MBind M := fun A B f m w =>
  match m w with
  | (Ok a, w') => f a w'
  | (Throw e, w') => (Throw e, w')
  end.

Definition throw {A} (e : Error) : M A := fun w => (Throw e, w).

Definition try_catch {A} (body : M A) (handler : Error -> M A) : M A :=
  fun w =>
    match body w with
    | (Ok a, w') => (Ok a, w')
    | (Throw e, w') => handler e w'
    end.

(** [try { body } finally { cleanup }] *)
Definition try_finally {A} (body : M A) (cleanup : M unit) : M A :=
  fun w =>
    match body w with
    | (r, w') =>
        match cleanup w' with
        | (Ok _, w'') => (r, w'')
        | (Throw e, w'') => (Throw e, w'')
        end
    end.

Definition lift {A} (o : Outcome A) : M A := fun w => (o, w).

Definition get_world : M World := fun w => (Ok w, w).
Definition modify (f : World -> World) : M unit := fun w => (Ok tt, f w).

(** [await new Promise(resolve => setTimeout(resolve, ms))] *)
Definition sleep (ms : Z) : M unit :=
  modify (fun w => set_clock (clock w + ms) w).

(** ** The runtime outside the repository

    The JavaScript built-ins, the libraries (luxon, node-postgres, crypto)
    and the network are parameters of the development. *)

Record TokenJson := mkTokenJson {
  access_token : option string;
  expires_in : option Z
}.

Record HttpResponse := mkHttpResponse {
  http_status : Z;
  body_text : string;
  location : option string;        (* res.headers.get('location') *)
  body_json : option TokenJson     (* res.json(); None when it rejects *)
}.

Record TransferBody := mkTransferBody {
  source_href : option string;
  destination_href : option string;
  amount_value : JsNum;            (* cents; the source sends them as dollars *)
  meta_crm_contact_id : string;
  meta_period_start : Z;
  meta_period_end : Z
}.

Inductive FetchRequest : Type :=
  | TokenRequest (key secret : string)
  | ApiPost (path : string) (bearer : option string) (body : TransferBody).

Inductive FetchResult : Type :=
  | FetchRejects (e : Error)
  | FetchResolves (res : HttpResponse).

Record Runtime := mkRuntime {
  (* ECMAScript StringToNumber and the ToString of arrays and objects *)
  StringToNumber : string -> JsNum;
  ToString : JsValue -> string;
  (* luxon: DateTime.fromISO(v).isValid, startOf('week'), minus({weeks: 1}) *)
  fromISO_isValid : JsValue -> bool;
  startOfWeek : Z -> Z;
  minusOneWeek : Z -> Z;
  (* node-postgres serialisation of a parameter that is not a string, and
     the timestamptz the server reads from a parameter *)
  prepareValue : JsValue -> string;
  timestamptz_in : JsValue -> Z;
  (* JSON.parse; None when it throws *)
  JSON_parse : string -> option JsValue;
  (* crypto.createHmac('sha256', secret).update(body).digest('hex') *)
  hmac_sha256_hex : string -> string -> string;
  (* the n-th fetch call of the process *)
  fetch : nat -> FetchRequest -> FetchResult
}.

Record ProcessEnv := mkProcessEnv {
  GHL_BEARER : option string;
  DWOLLA_KEY : option string;
  DWOLLA_SECRET : option string;
  DWOLLA_WEBHOOK_SECRET : option string;
  DWOLLA_YOUR_FUNDING_HREF : option string
}.

(** ** SQL statements of the handlers

    A statement is indexed by the type of the rows it returns. *)

Record BillableRow := mkBillableRow {
  row_crm_contact_id : string;
  row_name : option string;
  row_email : option string;
  row_dwolla_funding_href : option string;
  row_units : JsNum
}.

Record InvoiceRow := mkInvoiceRow {
  ret_id : Z;
  ret_crm_contact_id : string;
  ret_amount_cents : Z
}.

Inductive Sql : Type -> Type :=
  | BEGIN : Sql unit
  | COMMIT : Sql unit
  | ROLLBACK : Sql unit
  (* INSERT INTO customers ... ON CONFLICT (crm_contact_id) DO UPDATE
     SET name = EXCLUDED.name, email = EXCLUDED.email *)
  | UpsertCustomer (crm_contact_id name email : JsValue) : Sql unit
  (* INSERT INTO usage_ledger ... ON CONFLICT (idempotency_key) DO NOTHING
     RETURNING id *)
  | InsertUsage (idempotency_key crm_contact_id : JsValue) (units : JsNum)
      (occurred_at : JsValue) : Sql Z
  (* WITH usage_totals AS (...) SELECT ... FROM customers c LEFT JOIN ... *)
  | SelectBillable (start end_ : Z) : Sql BillableRow
  (* INSERT INTO invoices(...) VALUES (...) RETURNING id *)
  | InsertInvoice (crm_contact_id : string) (start end_ : Z)
      (amount_cents : JsNum) (dwolla_transfer_href : option string) : Sql Z
  (* UPDATE usage_ledger SET invoice_id = $1 WHERE crm_contact_id = $2
     AND occurred_at >= $3 AND occurred_at < $4 AND invoice_id IS NULL *)
  | ClaimUsage (invoiceId : Z) (crm_contact_id : string) (start end_ : Z)
      : Sql unit
  (* UPDATE invoices SET status = <target>, updated_at = now()
     WHERE dwolla_transfer_href = $1 AND status != <target>
     RETURNING id, crm_contact_id, amount_cents *)
  | UpdateInvoiceStatus (target : string) (href : JsValue) : Sql InvoiceRow.

(** The [db] object handed to the handler factories. *)
Definition DbHandle : Type := forall R : Type, Sql R -> M (list R).

(** ** PostgreSQL: the statements on the tables *)

Definition opt_str_eqb (o : option string) (s : string) : bool :=
  match o with
  | Some s' => String.eqb s' s
  | None => false            (* NULL = s is not true *)
  end.

Definition is_some {A} (o : option A) : bool :=
  match o with Some _ => true | None => false end.

(** The text the server receives for a parameter (NULL for [null] and
    [undefined]). *)
Definition pg_text (rt : Runtime) (v : JsValue) : option string :=
  match v with
  | JUndefined | JNull => None
  | JStr s => Some s
  | other => Some (prepareValue rt other)
  end.

(** [numeric > 0]: PostgreSQL orders NaN above every number. *)
Definition pg_gt0 (n : JsNum) : bool :=
  match n with
  | NaN => true
  | Inf negative => negb negative
  | Fin q => negb (Qle_bool q 0%Q)
  end.

(** The value an [int] column takes from a number. *)
Definition pg_int (n : JsNum) : option Z :=
  match n with
  | Fin q => if Qeq_bool q (inject_Z (Qfloor q)) then Some (Qfloor q) else None
  | _ => None
  end.

Definition upsert_customer (cid : string) (nm em : option string) (d : Db)
  : Db :=
  let row :=
    match customers d !! cid with
    | Some c =>
        mkCustomer nm em (dwolla_customer_href c) (dwolla_funding_href c)
          (status c)
    | None => mkCustomer nm em None None (Some "pending")
    end in
  mkDb (<[cid := row]> (customers d)) (usage_ledger d) (invoices d).

Definition key_taken (k : string) (ledger : list UsageRow) : bool :=
  existsb (fun r => String.eqb (idempotency_key r) k) ledger.

Definition insert_usage (id : Z) (k cid : string) (u : JsNum) (t : Z)
  (d : Db) : Db * list Z :=
  if key_taken k (usage_ledger d) then (d, [])
  else
    (mkDb (customers d) (usage_ledger d ++ [mkUsageRow id k cid u t None])
       (invoices d),
     [id]).

Definition in_window (start end_ t : Z) : bool :=
  (start <=? t) && (t <? end_).

Definition unbilled (r : UsageRow) : bool :=
  match invoice_id r with None => true | Some _ => false end.

(** The rows of one customer the window selects: the WHERE clause shared
    by the [usage_totals] aggregate and the claiming UPDATE. *)
Definition qualifies (start end_ : Z) (cid : string) (r : UsageRow) : bool :=
  String.eqb (usage_crm_contact_id r) cid
  && in_window start end_ (occurred_at r)
  && unbilled r.

Definition usage_total (start end_ : Z) (cid : string)
  (ledger : list UsageRow) : JsNum :=
  foldr js_add (Fin 0) (units <$> List.filter (qualifies start end_ cid) ledger).

Definition billable_row (start end_ : Z) (d : Db) (kc : string * Customer)
  : option BillableRow :=
  let total := usage_total start end_ kc.1 (usage_ledger d) in
  if opt_str_eqb (status kc.2) "active"
     && is_some (dwolla_funding_href kc.2)
     && pg_gt0 total
  then Some (mkBillableRow kc.1 (name kc.2) (email kc.2)
               (dwolla_funding_href kc.2) total)
  else None.

Definition select_billable (start end_ : Z) (d : Db) : list BillableRow :=
  omap (billable_row start end_ d) (map_to_list (customers d)).

Definition insert_invoice (id : Z) (cid : string) (start end_ amount : Z)
  (href : option string) (now : Z) (d : Db) : Db :=
  mkDb (customers d) (usage_ledger d)
    (invoices d ++ [mkInvoice id cid start end_ amount href "initiated" now now]).

Definition claim (invoiceId : Z) (r : UsageRow) : UsageRow :=
  mkUsageRow (usage_id r) (idempotency_key r) (usage_crm_contact_id r)
    (units r) (occurred_at r) (Some invoiceId).

Definition claim_usage (invoiceId : Z) (cid : string) (start end_ : Z)
  (d : Db) : Db :=
  mkDb (customers d)
    ((fun r => if qualifies start end_ cid r then claim invoiceId r else r)
       <$> usage_ledger d)
    (invoices d).

Definition status_update_applies (target href : string) (i : Invoice) : bool :=
  opt_str_eqb (dwolla_transfer_href i) href
  && negb (String.eqb (inv_status i) target).

Definition set_status (target : string) (now : Z) (i : Invoice) : Invoice :=
  mkInvoice (inv_id i) (inv_crm_contact_id i) (period_start i) (period_end i)
    (amount_cents i) (dwolla_transfer_href i) target (created_at i) now.

Definition update_invoice_status (target href : string) (now : Z) (d : Db)
  : Db * list InvoiceRow :=
  (mkDb (customers d) (usage_ledger d)
     ((fun i => if status_update_applies target href i
                then set_status target now i else i) <$> invoices d),
   (fun i => mkInvoiceRow (inv_id i) (inv_crm_contact_id i) (amount_cents i))
     <$> List.filter (status_update_applies target href) (invoices d)).

Definition not_null (column : string) : Error :=
  mkError ("null value in column " ++ column ++ " violates not-null constraint").

(** The PostgreSQL connection: every statement runs on the working copy of
    the open transaction, or directly on the committed state. *)
Definition pg_query (rt : Runtime) : DbHandle := fun R q =>
  match q in Sql R return M (list R) with
  | BEGIN =>
      modify (fun w =>
        match txn w with
        | None => begun w
        | Some _ => w
        end);;
      mret []
  | COMMIT =>
      modify (fun w =>
        match txn w with
        | Some t => set_txn None (set_store (working t) w)
        | None => w
        end);;
      mret []
  | ROLLBACK => modify (set_txn None);; mret []
  | UpsertCustomer crm_contact_id name email =>
      match pg_text rt crm_contact_id with
      | None => throw (not_null "crm_contact_id")
      | Some cid =>
          modify (fun w =>
            write (upsert_customer cid (pg_text rt name) (pg_text rt email)
                     (current w)) w);;
          mret []
      end
  | InsertUsage idempotency_key crm_contact_id units occurred_at =>
      match pg_text rt idempotency_key, pg_text rt crm_contact_id with
      | None, _ => throw (not_null "idempotency_key")
      | _, None => throw (not_null "crm_contact_id")
      | Some k, Some cid =>
          fun w =>
            let id := usage_ledger_id_seq w + 1 in
            let '(d, rows) :=
              insert_usage id k cid units (timestamptz_in rt occurred_at)
                (current w) in
            (Ok rows, write d (set_usage_seq id w))
      end
  | SelectBillable start end_ =>
      w ← get_world; mret (select_billable start end_ (current w))
  | InsertInvoice crm_contact_id start end_ amount_cents href =>
      match pg_int amount_cents with
      | None => throw (mkError "invalid input syntax for type integer")
      | Some amount =>
          fun w =>
            let id := invoices_id_seq w + 1 in
            (Ok [id],
             write (insert_invoice id crm_contact_id start end_ amount href
                      (now_sql w) (current w))
               (set_invoices_seq id w))
      end
  | ClaimUsage invoiceId crm_contact_id start end_ =>
      modify (fun w =>
        write (claim_usage invoiceId crm_contact_id start end_ (current w)) w);;
      mret []
  | UpdateInvoiceStatus target href =>
      match pg_text rt href with
      | None => mret []           (* dwolla_transfer_href = NULL is never true *)
      | Some h =>
          fun w =>
            let '(d, rows) :=
              update_invoice_status target h (now_sql w) (current w) in
            (Ok rows, write d w)
      end
  end.

(** ** Responses *)

(** The summary of a billing run; the response prints
    [total_amount_dollars] with [toFixed(2)], here it stays a number. *)
Record Results := mkResults {
  total : nat;
  successful : nat;
  failed : nat;
  skipped : nat;
  total_amount_cents : JsNum;
  total_amount_dollars : JsNum;
  errors : list (string * string)   (* crm_contact_id, error.message *)
}.

Inductive ResponseBody : Type :=
  | NoBody                                        (* res.sendStatus(code) *)
  | InvalidPayload (details : list string)
  | UsageResult (success recorded : bool) (msg : string)
  | InternalServerError
  | BillingSummary (start end_ : Z) (results : Results).

Record Response := mkResponse {
  code : Z;
  body : ResponseBody
}.

Definition sendStatus (c : Z) : Response := mkResponse c NoBody.

(** ** Configuration *)

Definition PRICE_PER_UNIT_CENTS : Z := 400.
Definition DWOLLA_TOKEN_EXPIRY_BUFFER_SECONDS : Z := 60.

Definition TypeError (what : string) : Error :=
  mkError ("Cannot read properties of undefined (reading '" ++ what ++ "')").

Definition js_div_pos (n : JsNum) (k : Z) : JsNum :=
  match n with
  | NaN => NaN
  | Inf s => Inf s
  | Fin q => Fin (q / inject_Z k)%Q
  end.

(** What one pass through the body of the retry loop decides. *)
Inductive Attempt : Type :=
  | Return (location : option string)
  | Continue.

Section Handlers.

Variable rt : Runtime.
Variable env : ProcessEnv.
Variable db : DbHandle.

(** *** Token cache *)

Definition res_ok (res : HttpResponse) : bool :=
  (200 <=? http_status res) && (http_status res <=? 299).

Definition do_fetch (req : FetchRequest) : M HttpResponse := fun w =>
  let w' := set_net_calls (S (net_calls w)) w in
  match fetch rt (net_calls w) req with
  | FetchRejects e => (Throw e, w')
  | FetchResolves res => (Ok res, w')
  end.

(** [process.env.X.trim()] throws on a missing variable; the trimming and
    the base64 encoding of the credentials are left to the token
    endpoint of the runtime. *)
Definition env_trim (o : option string) : M string :=
  match o with
  | Some s => mret s
  | None => throw (TypeError "trim")
  end.

Definition cache_valid (c : TokenCache) (now : Z) : bool :=
  negb (falsy_str (token c))
  && match expiresAt c with
     | Some e => negb (e =? 0) && (now <? e)
     | None => false
     end.

Definition getDwollaToken : M (option string) :=
  w ← get_world;
  if cache_valid (tokenCache w) (clock w) then mret (token (tokenCache w))
  else
    key ← env_trim (DWOLLA_KEY env);
    secret ← env_trim (DWOLLA_SECRET env);
    res ← do_fetch (TokenRequest key secret);
    if negb (res_ok res) then
      throw (mkError ("Dwolla token request failed: "
                      ++ pretty (http_status res) ++ " - " ++ body_text res))
    else
      match body_json res with
      | None => throw (mkError "Unexpected token in JSON")
      | Some json =>
          let expiresIn :=
            match expires_in json with
            | Some n => if n =? 0 then 3600 else n
            | None => 3600
            end in
          w' ← get_world;
          modify (set_tokenCache
                    (mkTokenCache (access_token json)
                       (Some (clock w'
                              + (expiresIn - DWOLLA_TOKEN_EXPIRY_BUFFER_SECONDS)
                                * 1000))));;
          mret (access_token json)
      end.

(** *** Transfer Initiator: [dwollaPost] *)

(** The body of the [for] loop at a given [attempt], [try]/[catch]
    included. *)
Definition dwollaPost_attempt (path : string) (body : TransferBody)
  (retries attempt : nat) : M Attempt :=
  try_catch
    (token ← getDwollaToken;
     res ← do_fetch (ApiPost path token body);
     if negb (res_ok res) then
       let error :=
         mkError ("Dwolla API error: " ++ pretty (http_status res)
                  ++ " - " ++ body_text res) in
       if (http_status res =? 401) && (attempt <? retries)%nat then
         modify (set_tokenCache (mkTokenCache None None));;
         sleep 1000;;
         mret Continue
       else if (400 <=? http_status res) && (http_status res <? 500) then
         throw error
       else if (attempt <? retries)%nat then
         let delay := Z.min (1000 * 2 ^ (Z.of_nat attempt - 1)) 5000 in
         sleep delay;;
         mret Continue
       else throw error
     else mret (Return (location res)))
    (fun error =>
       if (attempt =? retries)%nat then throw error else mret Continue).

(** [for (let attempt = ...; attempt <= retries; attempt++)], with
    [remaining] iterations left; falling out of the loop returns
    [undefined]. *)
Fixpoint dwollaPost_from (path : string) (body : TransferBody)
  (retries remaining attempt : nat) : M (option (option string)) :=
  match remaining with
  | O => mret None
  | S n =>
      r ← dwollaPost_attempt path body retries attempt;
      match r with
      | Return location => mret (Some location)
      | Continue => dwollaPost_from path body retries n (S attempt)
      end
  end.

Definition dwollaPost (path : string) (body : TransferBody) (retries : nat)
  : M (option (option string)) :=
  dwollaPost_from path body retries retries 1.

(** *** Usage Recorder: [webhooks/ghl-usage.js] *)

Definition Number (v : JsValue) : JsNum :=
  match v with
  | JUndefined => NaN
  | JNull => Fin 0
  | JBool b => Fin (if b then 1 else 0)
  | JNum n => n
  | JStr s => StringToNumber rt s
  | other => StringToNumber rt (ToString rt other)
  end.

Definition is_nullish (v : JsValue) : bool :=
  match v with JUndefined | JNull => true | _ => false end.

Definition validateUsageWebhook (body : JsValue) : list string :=
  (if negb (truthy (get body "crm_contact_id"))
      || negb (is_string (get body "crm_contact_id"))
   then ["crm_contact_id is required and must be a string"] else [])
  ++ (if negb (truthy (get body "idempotency_key"))
         || negb (is_string (get body "idempotency_key"))
      then ["idempotency_key is required and must be a string"] else [])
  ++ (if is_nullish (get body "units")
         || js_isNaN (Number (get body "units"))
         || js_le0 (Number (get body "units"))
      then ["units is required and must be a positive number"] else [])
  ++ (if negb (truthy (get body "occurred_at"))
         || negb (fromISO_isValid rt (get body "occurred_at"))
      then ["occurred_at is required and must be a valid ISO 8601 timestamp"]
      else []).

(** A request to /ghl/usage: the Authorization header and the body
    [express.json()] parsed, an object. *)
Record GhlRequest := mkGhlRequest {
  ghl_authorization : option string;
  ghl_body : list (string * JsValue)
}.

Definition createGhlUsageHandler (req : GhlRequest) : M Response :=
  try_catch
    (if negb (bool_decide (ghl_authorization req
                           = Some ("Bearer " ++ template (GHL_BEARER env))))
     then mret (sendStatus 401)
     else
       let body := JObject (ghl_body req) in
       let validationErrors := validateUsageWebhook body in
       if (0 <? length validationErrors)%nat then
         mret (mkResponse 400 (InvalidPayload validationErrors))
       else
         let crm_contact_id := get body "crm_contact_id" in
         let name := get body "name" in
         let email := get body "email" in
         let units := get body "units" in
         let occurred_at := get body "occurred_at" in
         let idempotency_key := get body "idempotency_key" in
         (* const client = await db.connect() *)
         try_finally
           (try_catch
              (db _ BEGIN;;
               db _ (UpsertCustomer crm_contact_id name email);;
               usageResult ← db _ (InsertUsage idempotency_key crm_contact_id
                                     (Number units) occurred_at);
               db _ COMMIT;;
               let isNew := (0 <? length usageResult)%nat in
               mret (mkResponse 200
                       (UsageResult true isNew
                          (if isNew then "Usage recorded"
                           else "Duplicate request ignored"))))
              (fun error => db _ ROLLBACK;; throw error))
           (mret tt (* client.release() *)))
    (fun error => mret (mkResponse 500 InternalServerError)).

(** *** Billing Aggregator: POST /bill/week *)

Record BillRequest := mkBillRequest {
  bill_authorization : option string
}.

Definition initial_results (n : nat) : Results :=
  mkResults n 0 0 0 (Fin 0) (Fin 0) [].

Definition count_skipped (r : Results) : Results :=
  mkResults (total r) (successful r) (failed r) (S (skipped r))
    (total_amount_cents r) (total_amount_dollars r) (errors r).

Definition count_successful (amountCents : JsNum) (r : Results) : Results :=
  mkResults (total r) (S (successful r)) (failed r) (skipped r)
    (js_add (total_amount_cents r) amountCents)
    (js_add (total_amount_dollars r) (js_div_pos amountCents 100))
    (errors r).

Definition count_failed (cid : string) (error : Error) (r : Results) : Results :=
  mkResults (total r) (successful r) (S (failed r)) (skipped r)
    (total_amount_cents r) (total_amount_dollars r)
    (errors r ++ [(cid, message error)]).

(** The body of [for (const customer of customers)]. *)
Definition bill_customer (start end_ : Z) (customer : BillableRow)
  (results : Results) : M Results :=
  let amountCents :=
    Math_round
      (js_mul_pos (Number_numeric (row_units customer)) PRICE_PER_UNIT_CENTS) in
  if js_le0 amountCents then mret (count_skipped results)
  else
    (* const client = await db.connect() *)
    try_finally
      (try_catch
         (db _ BEGIN;;
          resp ← dwollaPost "transfers"
                   (mkTransferBody (row_dwolla_funding_href customer)
                      (DWOLLA_YOUR_FUNDING_HREF env) amountCents
                      (row_crm_contact_id customer) start end_)
                   3;
          location ← match resp with
                      | Some location => mret location
                      | None => throw (TypeError "location")
                      end;
          invoiceResult ← db _ (InsertInvoice (row_crm_contact_id customer)
                                  start end_ amountCents location);
          invoiceId ← match invoiceResult with
                       | id :: _ => mret id
                       | [] => throw (TypeError "id")
                       end;
          db _ (ClaimUsage invoiceId (row_crm_contact_id customer) start end_);;
          db _ COMMIT;;
          mret (count_successful amountCents results))
         (fun error =>
            db _ ROLLBACK;;
            mret (count_failed (row_crm_contact_id customer) error results)))
      (mret tt (* client.release() *)).

Fixpoint bill_customers (start end_ : Z) (customers : list BillableRow)
  (results : Results) : M Results :=
  match customers with
  | [] => mret results
  | customer :: rest =>
      results' ← bill_customer start end_ customer results;
      bill_customers start end_ rest results'
  end.

Definition bill_week (req : BillRequest) : M Response :=
  try_catch
    (if negb (bool_decide (bill_authorization req = Some "Bearer admin"))
     then mret (sendStatus 401)
     else
       w ← get_world;
       let end_ := startOfWeek rt (clock w) in
       let start := minusOneWeek rt end_ in
       customers ← db _ (SelectBillable start end_);
       results ← bill_customers start end_ customers
                   (initial_results (length customers));
       mret (mkResponse 200 (BillingSummary start end_ results)))
    (fun error => mret (mkResponse 500 InternalServerError)).

(** *** Transfer Status Reconciler: [webhooks/dwolla-webhook.js] *)

(** A request to /dwolla/webhook: the signature header and the raw body
    [express.raw()] leaves in [req.body]. *)
Record DwollaRequest := mkDwollaRequest {
  x_request_signature_sha256 : option string;
  raw_body : string
}.

(** [crypto.timingSafeEqual] on the bytes of two strings: a RangeError
    when the lengths differ. *)
Definition timingSafeEqual (a b : string) : Outcome bool :=
  if (String.length a =? String.length b)%nat then Ok (String.eqb a b)
  else Throw (mkError "Input buffers must have the same byte length").

(** A synchronous function: it returns or throws, and touches no state. *)
Definition verifyDwollaWebhookSignature (req : DwollaRequest)
  (secret : option string) : Outcome bool :=
  if falsy_str secret then Ok true
  else
    let signature := x_request_signature_sha256 req in
    if falsy_str signature then Ok false
    else
      let calculated := hmac_sha256_hex rt (default "" secret) (raw_body req) in
      timingSafeEqual (default "" signature) calculated.

(** [topic === s] *)
Definition is_topic (topic : JsValue) (s : string) : bool :=
  match topic with
  | JStr t => String.eqb t s
  | _ => false
  end.

Definition createDwollaWebhookHandler (req : DwollaRequest) : M Response :=
  try_catch
    (verified ← lift (verifyDwollaWebhookSignature req
                        (DWOLLA_WEBHOOK_SECRET env));
     if negb verified then mret (sendStatus 401)
     else
       evt ← match JSON_parse rt (raw_body req) with
              | Some v => mret v
              | None => throw (mkError "Unexpected token in JSON")
              end;
       let href := get_opt (get_opt (get_opt evt "_links") "resource") "href" in
       let topic := get_opt evt "topic" in
       if negb (truthy href) || negb (truthy topic) then mret (sendStatus 200)
       else
         (if is_topic topic "transfer_completed" then
            db _ (UpdateInvoiceStatus "completed" href);; mret tt
          else if is_topic topic "transfer_failed" then
            db _ (UpdateInvoiceStatus "failed" href);; mret tt
          else mret tt);;
         mret (sendStatus 200))
    (fun error => mret (sendStatus 200)).

End Handlers.

(** ** Vocabulary of the specification *)

(** *** The Usage Recorder *)

(** The caller presented the configured bearer credential. *)
Definition authorized (env : ProcessEnv) (req : GhlRequest) : Prop :=
  ghl_authorization req = Some ("Bearer " ++ template (GHL_BEARER env)).

(** The contract of the Usage Recorder, field by field. *)
Definition non_empty_string (v : JsValue) : Prop :=
  exists s, v = JStr s /\ s <> "".

Definition positive_number (n : JsNum) : Prop :=
  match n with
  | Fin q => (0 < q)%Q
  | Inf negative => negative = false
  | NaN => False
  end.

Definition valid_point_in_time (rt : Runtime) (v : JsValue) : Prop :=
  truthy v = true /\ fromISO_isValid rt v = true.

Definition well_formed (rt : Runtime) (body : JsValue) : Prop :=
  non_empty_string (get body "crm_contact_id")
  /\ non_empty_string (get body "idempotency_key")
  /\ positive_number (Number rt (get body "units"))
  /\ valid_point_in_time rt (get body "occurred_at").

(** *** The Transfer Status Reconciler *)

(** The reference and the target status a notification carries, as the
    handler reads them from the parsed event. *)
Definition event_href (evt : JsValue) : JsValue :=
  get_opt (get_opt (get_opt evt "_links") "resource") "href".

Definition notification_href (rt : Runtime) (req : DwollaRequest)
  : option string :=
  match JSON_parse rt (raw_body req) with
  | Some evt =>
      if truthy (event_href evt) then pg_text rt (event_href evt) else None
  | None => None
  end.

Definition notification_topic (rt : Runtime) (req : DwollaRequest) : JsValue :=
  match JSON_parse rt (raw_body req) with
  | Some evt => get_opt evt "topic"
  | None => JUndefined
  end.

(** The status a notification asks for, by its topic. *)
Definition asks_for (rt : Runtime) (req : DwollaRequest) (target : string)
  : Prop :=
  notification_topic rt req = JStr "transfer_completed" /\ target = "completed"
  \/ notification_topic rt req = JStr "transfer_failed" /\ target = "failed".

(** One invoice across one notification: kept as it is, or moved to the
    target status because its transfer reference is the notification's and
    its status was another one. *)
Inductive status_step (target href : string) (now : Z) (i : Invoice)
  : Invoice -> Prop :=
  | status_kept : status_step target href now i i
  | status_set :
      dwolla_transfer_href i = Some href ->
      inv_status i <> target ->
      status_step target href now i (set_status target now i).

(** *** The Transfer Initiator *)

(** Two worlds with the same database: tables, open transaction and
    sequences. *)
Definition same_db (w w' : World) : Prop :=
  store w' = store w
  /\ txn w' = txn w
  /\ usage_ledger_id_seq w' = usage_ledger_id_seq w
  /\ invoices_id_seq w' = invoices_id_seq w.

(** A computation that leaves the database alone. *)
Definition frames_db {A} (m : M A) : Prop :=
  forall w, same_db w (m w).2.



(** *** The Billing Aggregator, customer by customer *)

(** [Math.round(Number(units) * PRICE_PER_UNIT_CENTS)] for a numeric
    total the billing query returned. *)
Definition amountCents (units : JsNum) : JsNum :=
  Math_round (js_mul_pos (Number_numeric units) PRICE_PER_UNIT_CENTS).

Definition amountCents_of (c : BillableRow) : JsNum :=
  Math_round
    (js_mul_pos (Number_numeric (row_units c)) PRICE_PER_UNIT_CENTS).

(** The amount as the specification words it,
    [round(total_units * price_per_unit_cents)], on exact numbers and with
    halves rounded up as [Math.round] does. *)
Definition rounded_price (u : Q) : Z :=
  Qfloor (u * inject_Z PRICE_PER_UNIT_CENTS + (1 # 2)).



Definition transfer_of (env : ProcessEnv) (start end_ : Z) (c : BillableRow)
  : TransferBody :=
  mkTransferBody (row_dwolla_funding_href c) (DWOLLA_YOUR_FUNDING_HREF env)
    (amountCents_of c) (row_crm_contact_id c) start end_.

(** What the loop body does for one customer: it skips a customer whose
    amount is not positive, counts a failure and leaves the database as it
    was, or inserts one invoice under the next id and claims the
    customer's qualifying usage for it. *)
Inductive customer_step (start end_ : Z) (c : BillableRow)
  : Results * World -> Results * World -> Prop :=
  | step_skipped results w :
      js_le0 (amountCents_of c) = true ->
      customer_step start end_ c (results, w) (count_skipped results, w)
  | step_failed results w e w' :
      js_le0 (amountCents_of c) = false ->
      same_db w w' ->
      customer_step start end_ c (results, w)
        (count_failed (row_crm_contact_id c) e results, w')
  | step_billed results w location amount now w' :
      js_le0 (amountCents_of c) = false ->
      pg_int (amountCents_of c) = Some amount ->
      store w'
      = claim_usage (invoices_id_seq w + 1) (row_crm_contact_id c) start end_
          (insert_invoice (invoices_id_seq w + 1) (row_crm_contact_id c)
             start end_ amount location now (store w)) ->
      txn w' = txn w ->
      usage_ledger_id_seq w' = usage_ledger_id_seq w ->
      invoices_id_seq w' = invoices_id_seq w + 1 ->
      customer_step start end_ c (results, w)
        (count_successful (amountCents_of c) results, w').

Inductive billing_steps (start end_ : Z)
  : list BillableRow -> Results * World -> Results * World -> Prop :=
  | steps_nil x : billing_steps start end_ [] x x
  | steps_cons c rest x y z :
      customer_step start end_ c x y ->
      billing_steps start end_ rest y z ->
      billing_steps start end_ (c :: rest) x z.

(** *** What a billing run leaves behind *)

(** A row of the billing query: an active customer with a funding source
    and a positive total of unbilled usage in the window. *)
Definition qualifying_row (start end_ : Z) (d : Db) (c : BillableRow) : Prop :=
  exists cust,
    customers d !! row_crm_contact_id c = Some cust
    /\ status cust = Some "active"
    /\ dwolla_funding_href cust <> None
    /\ row_dwolla_funding_href c = dwolla_funding_href cust
    /\ row_units c
       = usage_total start end_ (row_crm_contact_id c) (usage_ledger d)
    /\ pg_gt0 (row_units c) = true.

(** The invoice opened for a row of the billing query, under an
    identifier issued during the run. *)
Definition invoice_of_row (start end_ : Z) (seq0 seq1 : Z) (c : BillableRow)
  (i : Invoice) : Prop :=
  seq0 < inv_id i <= seq1
  /\ inv_crm_contact_id i = row_crm_contact_id c
  /\ amountCents_of c = Fin (inject_Z (amount_cents i))
  /\ js_le0 (amountCents_of c) = false
  /\ period_start i = start /\ period_end i = end_
  /\ inv_status i = "initiated".

(** What became of one row of the billing query. *)
Inductive Billing : Type :=
  | WasSkipped
  | HasFailed (crm_contact_id msg : string)
  | WasBilled (i : Invoice).

Definition outcome_invoice (o : Billing) : option Invoice :=
  match o with WasBilled i => Some i | _ => None end.

Definition outcome_error (o : Billing) : option (string * string) :=
  match o with HasFailed cid msg => Some (cid, msg) | _ => None end.

Definition row_outcome (start end_ : Z) (seq0 seq1 : Z) (c : BillableRow)
  (o : Billing) : Prop :=
  match o with
  | WasSkipped => js_le0 (amountCents_of c) = true
  | HasFailed cid _ =>
      cid = row_crm_contact_id c /\ js_le0 (amountCents_of c) = false
  | WasBilled i => invoice_of_row start end_ seq0 seq1 c i
  end.

(** A usage row across a run that started with the invoice sequence at
    [seq0]: kept, or claimed under an identifier issued since. *)
Definition claimed_after (seq0 seq1 : Z) (r r' : UsageRow) : Prop :=
  r' = r
  \/ (invoice_id r = None
      /\ exists j, seq0 < j <= seq1 /\ r' = claim j r).

(** The rows that point at invoice [i] in the ledger [l'] are the rows of
    [l] that qualified for its customer, claimed. *)
Definition claims_exactly (start end_ : Z) (l l' : list UsageRow)
  (i : Invoice) : Prop :=
  forall r',
    r' ∈ l' /\ invoice_id r' = Some (inv_id i)
    <-> exists r, r ∈ l
                  /\ qualifies start end_ (inv_crm_contact_id i) r = true
                  /\ r' = claim (inv_id i) r.

Definition references_in_sequence (seq0 : Z) (l : list UsageRow) : Prop :=
  Forall (fun r => forall j, invoice_id r = Some j -> j <= seq0) l.

(** The identifiers in use stay below the sequence. *)
Definition ids_in_sequence (w : World) : Prop :=
  txn w = None
  /\ Forall (fun i => inv_id i <= invoices_id_seq w) (invoices (store w))
  /\ references_in_sequence (invoices_id_seq w) (usage_ledger (store w)).

(** The world across a history: the invoice sequence only grows, the
    ledger keeps its rows, each as it was or claimed since, and the
    invoices keep their identifiers, the new ones above the old
    sequence. *)
Definition evolves (w w' : World) : Prop :=
  invoices_id_seq w <= invoices_id_seq w'
  /\ (exists kept added,
        usage_ledger (store w') = (kept ++ added)%list
        /\ Forall2 (claimed_after (invoices_id_seq w) (invoices_id_seq w'))
             (usage_ledger (store w)) kept)
  /\ (exists kept new,
        invoices (store w') = (kept ++ new)%list
        /\ Forall2 (fun i i' => inv_id i' = inv_id i) (invoices (store w)) kept
        /\ Forall (fun i => invoices_id_seq w < inv_id i) new).

(** *** Histories of the service *)

(** The database without the usage row at position [k]. *)
Definition without_usage (k : nat) (d : Db) : Db :=
  mkDb (customers d) (delete k (usage_ledger d)) (invoices d).

(** One usage row across an operation: kept as it is, or claimed by an
    invoice while its [invoice_id] was null. *)
Inductive usage_step (r : UsageRow) : UsageRow -> Prop :=
  | usage_kept : usage_step r r
  | usage_claimed invoiceId :
      invoice_id r = None -> usage_step r (claim invoiceId r).

(** The operations that change the world: the three handlers, the
    provisioning scripts, which write the customers table only, and the
    passage of time. *)
Inductive service_step (rt : Runtime) (env : ProcessEnv) (w : World)
  : World -> Prop :=
  | usage_recorded req :
      service_step rt env w
        (createGhlUsageHandler rt env (pg_query rt) req w).2
  | billing_run req :
      service_step rt env w (bill_week rt env (pg_query rt) req w).2
  | notification_delivered req :
      service_step rt env w
        (createDwollaWebhookHandler rt env (pg_query rt) req w).2
  | customers_provisioned cs :
      service_step rt env w
        (set_store (mkDb cs (usage_ledger (store w)) (invoices (store w))) w)
  | time_passes t :
      service_step rt env w (set_clock t w).

(** *** Further vocabulary

    Notions of the further properties, which the specification does not
    state. *)

(** [json.expires_in || 3600] *)
Definition token_lifetime (json : TokenJson) : Z :=
  match expires_in json with
  | Some n => if n =? 0 then 3600 else n
  | None => 3600
  end.

(** The errors [dwollaPost] and [getDwollaToken] build from an answer
    that is not ok. *)
Definition api_error (res : HttpResponse) : Error :=
  mkError ("Dwolla API error: " ++ pretty (http_status res) ++ " - "
           ++ body_text res).

Definition token_error (res : HttpResponse) : Error :=
  mkError ("Dwolla token request failed: " ++ pretty (http_status res)
           ++ " - " ++ body_text res).

(** The longest pause the loop of [dwollaPost] makes after a given
    attempt: one second after a 401, the backoff delay after another
    failure, nothing on the last attempt. *)
Definition longest_pause (retries attempt : nat) : Z :=
  if (attempt <? retries)%nat
  then Z.max 1000 (Z.min (1000 * 2 ^ (Z.of_nat attempt - 1)) 5000)
  else 0.

(** The pauses of [remaining] passes through the loop, from [attempt] on. *)
Fixpoint longest_pauses (retries remaining attempt : nat) : Z :=
  match remaining with
  | O => 0
  | S n => longest_pause retries attempt + longest_pauses retries n (S attempt)
  end.

(** A [db] object over a PostgreSQL that may fail statements: every
    statement either runs as on [pg_query] or throws and leaves the
    connection as it was, and BEGIN and ROLLBACK always run. *)
Definition faulty_pg (rt : Runtime) (db : DbHandle) : Prop :=
  (forall w, db _ BEGIN w = pg_query rt _ BEGIN w)
  /\ (forall w, db _ ROLLBACK w = pg_query rt _ ROLLBACK w)
  /\ (forall R (q : Sql R) w,
        db R q w = pg_query rt R q w \/ exists e, db R q w = (Throw e, w)).

(** The cents a list of invoices charges. *)
Definition amounts_sum (l : list Invoice) : Z :=
  foldr Z.add 0 (amount_cents <$> l).

(** A usage row across a run: kept, or claimed for a row of the billing
    query it qualified for. *)
Definition claimed_for (start end_ : Z) (rows : list BillableRow)
  (r r' : UsageRow) : Prop :=
  r' = r
  \/ exists c j, c ∈ rows
                 /\ qualifies start end_ (row_crm_contact_id c) r = true
                 /\ r' = claim j r.

(** The invoice a claimed usage row points at exists, is its customer's,
    and its period holds the time of the usage. *)
Definition backed_by (invs : list Invoice) (r : UsageRow) : Prop :=
  forall j, invoice_id r = Some j ->
    exists i, i ∈ invs
              /\ inv_id i = j
              /\ inv_crm_contact_id i = usage_crm_contact_id r
              /\ period_start i <= occurred_at r < period_end i.

Definition ledger_backed (d : Db) : Prop :=
  Forall (backed_by (invoices d)) (usage_ledger d).

(** An invoice across a history: only its status and [updated_at] may
    differ, and the status moved, if at all, to [completed] or [failed]. *)
Definition same_terms (i i' : Invoice) : Prop :=
  inv_id i' = inv_id i
  /\ inv_crm_contact_id i' = inv_crm_contact_id i
  /\ period_start i' = period_start i
  /\ period_end i' = period_end i
  /\ amount_cents i' = amount_cents i
  /\ dwolla_transfer_href i' = dwolla_transfer_href i
  /\ created_at i' = created_at i
  /\ (inv_status i' = inv_status i
      \/ inv_status i' = "completed" \/ inv_status i' = "failed").

(** An invoice without its [updated_at]. *)
Definition timeless (i : Invoice)
  : Z * string * Z * Z * Z * option string * string * Z :=
  (inv_id i, inv_crm_contact_id i, period_start i, period_end i,
   amount_cents i, dwolla_transfer_href i, inv_status i, created_at i).

Definition invoices_persist (w w' : World) : Prop :=
  exists kept new,
    invoices (store w') = (kept ++ new)%list
    /\ Forall2 same_terms (invoices (store w)) kept.

(** The units of the usage rows that point at invoice [j]. *)
Definition billed_units (j : Z) (l : list UsageRow) : JsNum :=
  foldr js_add (Fin 0)
    (units <$> List.filter (fun r => bool_decide (invoice_id r = Some j)) l).

(** Every invoice charges the price of the usage that points at it. *)
Definition reconciled (d : Db) : Prop :=
  Forall (fun i =>
            amountCents (billed_units (inv_id i) (usage_ledger d))
            = Fin (inject_Z (amount_cents i)))
    (invoices d).

(** The invoice [i] of row [c] records an accepted transfer request: a
    fetch call of the run posted the transfer of the row, the processor
    answered it with an ok status, and the invoice carries the location of
    the answer and the amount of the request, which is positive. *)
Definition records_transfer (rt : Runtime) (env : ProcessEnv)
  (start end_ : Z) (first last : nat) (c : BillableRow) (i : Invoice) : Prop :=
  exists k tok res,
    (first <= k < last)%nat
    /\ fetch rt k (ApiPost "transfers" tok (transfer_of env start end_ c))
       = FetchResolves res
    /\ res_ok res = true
    /\ dwolla_transfer_href i = location res
    /\ amount_value (transfer_of env start end_ c)
       = Fin (inject_Z (amount_cents i))
    /\ 0 < amount_cents i
    /\ inv_crm_contact_id i = row_crm_contact_id c.

(** Every usage row counts a positive number of units. *)
Definition units_positive (d : Db) : Prop :=
  Forall (fun r => positive_number (units r)) (usage_ledger d).

(** ** Sample inputs

    A runtime that answers the network calls from a script and reads two
    raw notification bodies, the requests of the README walk-through and
    the scenarios of the specification. *)

Definition sample_event (topic href : string) : JsValue :=
  JObject [("topic", JStr topic);
           ("_links", JObject [("resource", JObject [("href", JStr href)])])].

Definition sample_runtime (script : list FetchResult) : Runtime :=
  mkRuntime
    (fun _ => NaN)
    (fun _ => "[object Object]")
    (fun v => match v with
              | JStr s => String.eqb s "2025-01-15T20:30:00Z"
              | _ => false
              end)
    (fun now => now)
    (fun t => t - 604800000)
    (fun _ => "{}")
    (fun _ => 1736973000000)
    (fun s =>
       if String.eqb s "completed:t1"
       then Some (sample_event "transfer_completed" "t1")
       else if String.eqb s "failed:t1"
       then Some (sample_event "transfer_failed" "t1")
       else None)
    (fun _ _ => "5d41402abc4b2a76")
    (fun n _ => default (FetchRejects (mkError "fetch failed")) (script !! n)).

Definition sample_env : ProcessEnv :=
  mkProcessEnv (Some "ghl-secret") (Some "key") (Some "secret") None
    (Some "https://api.dwolla.com/funding-sources/operator").

Definition signed_env : ProcessEnv :=
  mkProcessEnv (Some "ghl-secret") (Some "key") (Some "secret")
    (Some "whsec") (Some "https://api.dwolla.com/funding-sources/operator").

Definition empty_world : World :=
  mkWorld (mkDb ∅ [] []) None 0 0 0 (mkTokenCache None None) 0.

Definition usage_request (name : string) (units : Q) (key : string)
  : GhlRequest :=
  mkGhlRequest (Some "Bearer ghl-secret")
    [("crm_contact_id", JStr "CUSTOMER123");
     ("name", JStr name);
     ("email", JStr "john@example.com");
     ("units", JNum (Fin units));
     ("occurred_at", JStr "2025-01-15T20:30:00Z");
     ("idempotency_key", JStr key)].

Definition world_with_invoice (st : string) (updated : Z) : World :=
  mkWorld
    (mkDb ∅ []
       [mkInvoice 1 "CUSTOMER123" 0 604800000 1200 (Some "t1") st 5 updated])
    None 0 1 1000 (mkTokenCache None None) 0.

(** Scripts for the Dwolla API: a token grant, a business-rule rejection,
    an expired credential, a created transfer. *)
Definition token_granted : FetchResult :=
  FetchResolves
    (mkHttpResponse 200 "" None (Some (mkTokenJson (Some "tok") (Some 3600)))).

Definition api_answers (st : Z) (text : string) (loc : option string)
  : FetchResult :=
  FetchResolves (mkHttpResponse st text loc None).

Definition sample_transfer : TransferBody :=
  mkTransferBody (Some "https://api.dwolla.com/funding-sources/customer")
    (Some "https://api.dwolla.com/funding-sources/operator")
    (Fin 1200) "CUSTOMER123" 0 604800000.

(** The scenario of the specification: an active customer with a funding
    source and two usage events, of 3 and 2 units, inside the window. *)
Definition sample_customer : Customer :=
  mkCustomer (Some "John Doe") (Some "john@example.com") None
    (Some "https://api.dwolla.com/funding-sources/customer") (Some "active").

Definition billing_world : World :=
  mkWorld
    (mkDb {[ "CUSTOMER123" := sample_customer ]}
       [mkUsageRow 1 "CUSTOMER123-test-1" "CUSTOMER123" (Fin 3)
          1736973000000 None;
        mkUsageRow 2 "CUSTOMER123-test-2" "CUSTOMER123" (Fin 2)
          1736973000001 None]
       [])
    None 2 0 1737000000000 (mkTokenCache None None) 0.

Definition billing_request : BillRequest :=
  mkBillRequest (Some "Bearer admin").

(** The processor creates the transfer. *)
Definition transfer_created : list FetchResult :=
  [token_granted;
   api_answers 201 "" (Some "https://api.dwolla.com/transfers/t1")].

(** The processor rejects the transfer on every attempt. *)
Definition transfer_rejected : list FetchResult :=
  [token_granted;
   api_answers 400 "Invalid funding source" None;
   api_answers 400 "Invalid funding source" None;
   api_answers 400 "Invalid funding source" None].

Definition sample_row : BillableRow :=
  mkBillableRow "CUSTOMER123" (Some "John Doe") (Some "john@example.com")
    (Some "https://api.dwolla.com/funding-sources/customer") (Fin 5).



(** The sample customer with one usage event of [Infinity] units inside
    the window. *)
Definition infinite_world : World :=
  mkWorld
    (mkDb {[ "CUSTOMER123" := sample_customer ]}
       [mkUsageRow 1 "CUSTOMER123-test-1" "CUSTOMER123" (Inf false)
          1736973000000 None]
       [])
    None 1 0 1737000000000 (mkTokenCache None None) 0.

(** [billing_world] after a run in which the transfer was created. *)
Definition billed_world : World :=
  mkWorld
    (mkDb {[ "CUSTOMER123" := sample_customer ]}
       [mkUsageRow 1 "CUSTOMER123-test-1" "CUSTOMER123" (Fin 3)
          1736973000000 (Some 1);
        mkUsageRow 2 "CUSTOMER123-test-2" "CUSTOMER123" (Fin 2)
          1736973000001 (Some 1)]
       [mkInvoice 1 "CUSTOMER123" 1736395200000 1737000000000 2000
          (Some "https://api.dwolla.com/transfers/t1") "initiated"
          1737000000000 1737000000000])
    None 2 1 1737000000000
    (mkTokenCache (Some "tok") (Some 1737003540000)) 2.

(** A world whose token cache holds a token that is valid for an hour. *)
Definition world_with_token : World :=
  mkWorld (mkDb ∅ [] []) None 0 0 0
    (mkTokenCache (Some "tok") (Some 3540000)) 0.

(** An environment in which no variable is set. *)
Definition unconfigured_env : ProcessEnv :=
  mkProcessEnv None None None None None.

(** A PostgreSQL in read-only mode: it refuses every INSERT and UPDATE. *)
Definition pg_read_only (rt : Runtime) : DbHandle := fun R q =>
  match q in Sql R return M (list R) with
  | BEGIN => pg_query rt _ BEGIN
  | COMMIT => pg_query rt _ COMMIT
  | ROLLBACK => pg_query rt _ ROLLBACK
  | SelectBillable start end_ => pg_query rt _ (SelectBillable start end_)
  | _ => throw (mkError "cannot execute statement in a read-only transaction")
  end.

(** The sample runtime reading two more notification bodies, about a
    second transfer. *)
Definition two_transfers_runtime : Runtime :=
  let rt := sample_runtime [] in
  mkRuntime (StringToNumber rt) (ToString rt) (fromISO_isValid rt)
    (startOfWeek rt) (minusOneWeek rt) (prepareValue rt) (timestamptz_in rt)
    (fun s =>
       if String.eqb s "completed:t2"
       then Some (sample_event "transfer_completed" "t2")
       else if String.eqb s "failed:t2"
       then Some (sample_event "transfer_failed" "t2")
       else JSON_parse rt s)
    (hmac_sha256_hex rt) (fetch rt).

Definition world_with_two_invoices : World :=
  mkWorld
    (mkDb ∅ []
       [mkInvoice 1 "CUSTOMER123" 0 604800000 1200 (Some "t1") "initiated" 5 5;
        mkInvoice 2 "CUSTOMER456" 0 604800000 800 (Some "t2") "initiated" 5 5])
    None 0 2 1000 (mkTokenCache None None) 0.

(** * Properties *)

(** ** Running computations *)

Lemma run_bind {A B} (m : M A) (f : A -> M B) (w : World) :
  (m ≫= f) w =
  match m w with
  | (Ok a, w') => f a w'
  | (Throw e, w') => (Throw e, w')
  end.
Proof. reflexivity. Qed.

Lemma run_ret {A} (a : A) (w : World) : mret (M := M) a w = (Ok a, w).
Proof. reflexivity. Qed.

Lemma db_eta (d : Db) : mkDb (customers d) (usage_ledger d) (invoices d) = d.
Proof. by destruct d. Qed.

Ltac step :=
  rewrite ?run_bind; cbv beta iota; rewrite ?run_ret; cbv beta iota.

(** ** Double precision *)





(** [floor_log2 n d] is not too small either: n / d < 2^(k+1). *)
Lemma floor_log2_upper (n d : Z) :
  0 < n -> 0 < d ->
  n * 2 ^ Z.max 0 (- (floor_log2 n d + 1))
  < d * 2 ^ Z.max 0 (floor_log2 n d + 1).
Proof.
  intros Hn Hd. unfold floor_log2.
  set (l := Z.log2 n - Z.log2 d).
  pose proof (Z.log2_spec n Hn) as [_ Hn2].
  pose proof (Z.log2_spec d Hd) as [Hd1 _].
  pose proof (Z.log2_nonneg n) as Hln. pose proof (Z.log2_nonneg d) as Hld.
  destruct (Z.leb_spec (d * 2 ^ Z.max 0 l) (n * 2 ^ Z.max 0 (- l)))
    as [_ | Hlt].
  - (* n < 2^(log2 n + 1) and 2^(log2 d) <= d *)
    destruct (Z.le_gt_cases 0 (l + 1)) as [Hl | Hl].
    + rewrite (Z.max_l 0 (- (l + 1))), (Z.max_r 0 (l + 1)) by lia.
      rewrite Z.pow_0_r, Z.mul_1_r.
      replace (Z.succ (Z.log2 n)) with (Z.log2 d + (l + 1)) in Hn2 by lia.
      rewrite Z.pow_add_r in Hn2 by lia.
      assert (0 < 2 ^ (l + 1)) by (apply Z.pow_pos_nonneg; lia).
      nia.
    + rewrite (Z.max_r 0 (- (l + 1))), (Z.max_l 0 (l + 1)) by lia.
      rewrite Z.pow_0_r, Z.mul_1_r.
      replace (Z.log2 d) with (Z.succ (Z.log2 n) + (- (l + 1))) in Hd1 by lia.
      rewrite Z.pow_add_r in Hd1 by lia.
      assert (0 < 2 ^ (- (l + 1))) by (apply Z.pow_pos_nonneg; lia).
      nia.
  - replace (l - 1 + 1) with l by lia. lia.
Qed.

Lemma nearest_even_upper (n d c : Z) :
  0 < d -> n < d * c -> nearest_even n d <= c.
Proof.
  intros Hd Hlt. unfold nearest_even.
  pose proof (Z.div_lt_upper_bound n d c Hd Hlt).
  destruct (2 * (n mod d) ?= d); [destruct (Z.even _) | |]; lia.
Qed.

(** The significand [binary64] keeps has at most 53 bits, as a double
    has. *)
Lemma binary64_significand (n d : Z) :
  0 < n -> 0 < d ->
  let e := Z.max (floor_log2 n d - 52) (-1074) in
  nearest_even (n * 2 ^ Z.max 0 (- e)) (d * 2 ^ Z.max 0 e) <= 2 ^ 53.
Proof.
  intros Hn Hd e.
  assert (Hb : 0 < 2 ^ Z.max 0 e) by (apply Z.pow_pos_nonneg; lia).
  apply nearest_even_upper; [by apply Z.mul_pos_pos |].
  pose proof (floor_log2_upper n d Hn Hd) as Hk.
  set (k := floor_log2 n d) in *. subst e.
  destruct (Z.le_gt_cases (k - 52) (-1074)) as [Hsub | Hnorm].
  - rewrite (Z.max_r (k - 52)) by lia.
    rewrite (Z.max_r 0 (- -1074)), (Z.max_l 0 (-1074)) by lia.
    rewrite (Z.max_r 0 (- (k + 1))), (Z.max_l 0 (k + 1)) in Hk by lia.
    rewrite Z.pow_0_r, Z.mul_1_r in *.
    assert (H53 : 0 < 2 ^ 53) by (apply Z.pow_pos_nonneg; lia).
    destruct (Z.le_gt_cases 0 (1075 + k)) as [Hk1 | Hk1].
    + replace (- -1074) with (- (k + 1) + (1075 + k)) by lia.
      rewrite Z.pow_add_r by lia.
      assert (H1 : 2 ^ (1075 + k) <= 2 ^ 53) by (apply Z.pow_le_mono_r; lia).
      assert (0 < 2 ^ (1075 + k)) by (apply Z.pow_pos_nonneg; lia).
      assert (0 < 2 ^ (- (k + 1))) by (apply Z.pow_pos_nonneg; lia).
      nia.
    + assert (H1 : 2 ^ (- -1074) <= 2 ^ (- (k + 1)))
        by (apply Z.pow_le_mono_r; lia).
      nia.
  - rewrite (Z.max_l (k - 52)) by lia.
    destruct (Z.le_gt_cases 52 k) as [Hbig | Hsmall].
    + rewrite (Z.max_l 0 (- (k - 52))), (Z.max_r 0 (k - 52)) by lia.
      rewrite (Z.max_l 0 (- (k + 1))), (Z.max_r 0 (k + 1)) in Hk by lia.
      rewrite Z.pow_0_r, Z.mul_1_r in *.
      rewrite <- Z.mul_assoc, <- Z.pow_add_r by lia.
      replace (k - 52 + 53) with (k + 1) by lia. exact Hk.
    + rewrite (Z.max_r 0 (- (k - 52))), (Z.max_l 0 (k - 52)) by lia.
      rewrite Z.pow_0_r, Z.mul_1_r.
      destruct (Z.le_gt_cases 0 (k + 1)) as [Hk0 | Hk0].
      * rewrite (Z.max_l 0 (- (k + 1))), (Z.max_r 0 (k + 1)) in Hk by lia.
        rewrite Z.pow_0_r, Z.mul_1_r in Hk.
        replace 53 with (k + 1 + (- (k - 52))) by lia.
        rewrite Z.pow_add_r by lia.
        assert (0 < 2 ^ (- (k - 52))) by (apply Z.pow_pos_nonneg; lia).
        nia.
      * rewrite (Z.max_r 0 (- (k + 1))), (Z.max_l 0 (k + 1)) in Hk by lia.
        rewrite Z.pow_0_r, Z.mul_1_r in Hk.
        replace (- (k - 52)) with (- (k + 1) + 53) by lia.
        rewrite Z.pow_add_r by lia.
        assert (0 < 2 ^ 53) by (apply Z.pow_pos_nonneg; lia).
        nia.
Qed.








(** The doubles at work: 0.1 is read as
    0.1000000000000000055511151231257827, and the amounts of 0.03625,
    0.07125, 0.14125, 0.14375 and 0.25125 units, whose exact prices end in
    half a cent, are the lower cents; whole and binary fractions of units
    are exact. *)
Example amounts_in_double_precision :
  binary64 (1 # 10) = Fin (7205759403792794 # 72057594037927936)
  /\ (1000000000000000055511151231257827 # 10000000000000000000000000000000000
      < 7205759403792794 # 72057594037927936)%Q
  /\ (7205759403792794 # 72057594037927936
      < 1000000000000000055511151231257828 # 10000000000000000000000000000000000)%Q
  /\ amountCents (Fin (3625 # 100000)) = Fin 14
  /\ amountCents (Fin (7125 # 100000)) = Fin 28
  /\ amountCents (Fin (14125 # 100000)) = Fin 56
  /\ amountCents (Fin (14375 # 100000)) = Fin 57
  /\ amountCents (Fin (25125 # 100000)) = Fin 100
  /\ amountCents (Fin (1 # 10)) = Fin 40
  /\ amountCents (Fin (1005 # 1000)) = Fin 402
  /\ amountCents (Fin (5 # 2)) = Fin 1000
  /\ amountCents (Fin 5) = Fin 2000
  /\ amountCents (Inf false) = Inf false
  /\ amountCents (Fin (inject_Z (2 ^ 1024))) = Inf false.
Proof. vm_compute. repeat split. Qed.

(** ** Usage Recorder *)

Section UsageRecorder.

Variable rt : Runtime.
Variable env : ProcessEnv.

Lemma non_empty_string_spec (v : JsValue) :
  non_empty_string v <-> negb (truthy v) || negb (is_string v) = false.
Proof.
  split.
  - intros (s & -> & Hs). cbn.
    destruct (String.eqb_spec s ""); [done | reflexivity].
  - destruct v; cbn; try discriminate.
    + by destruct b.
    + destruct n; cbn; try discriminate. by destruct (Qeq_bool q 0).
    + destruct (String.eqb_spec s ""); [discriminate |].
      intros _. by exists s.
Qed.

Lemma positive_number_spec (v : JsValue) :
  positive_number (Number rt v)
  <-> is_nullish v || js_isNaN (Number rt v) || js_le0 (Number rt v) = false.
Proof.
  assert (Hnum : forall n, positive_number n
                           <-> js_isNaN n || js_le0 n = false).
  { intros [| [] | q]; cbn; try (split; [done | discriminate]);
      try (split; [discriminate | done]); [split; done |].
    split.
    - intros Hq. apply not_true_is_false. intros Hle.
      apply Qle_bool_iff in Hle. by apply Qlt_not_le in Hq.
    - intros Hle. apply Qnot_le_lt. intros Hq.
      apply Qle_bool_iff in Hq. congruence. }
  destruct v; cbn [is_nullish orb]; apply Hnum.
Qed.

Lemma validateUsageWebhook_spec (body : JsValue) :
  validateUsageWebhook rt body = [] <-> well_formed rt body.
Proof.
  unfold validateUsageWebhook, well_formed, valid_point_in_time.
  rewrite !non_empty_string_spec, positive_number_spec.
  destruct (negb (truthy (get body "crm_contact_id")) || _);
    destruct (negb (truthy (get body "idempotency_key")) || _);
    destruct (is_nullish (get body "units") || _ || _);
    destruct (truthy (get body "occurred_at"));
    destruct (fromISO_isValid rt (get body "occurred_at"));
    cbn; split; try discriminate; try tauto;
    intros (? & ? & ? & ? & ?); discriminate.
Qed.

(** What the handler does with an authenticated, validated submission on
    PostgreSQL: one transaction holding the customer upsert and the usage
    insert. *)
Lemma createGhlUsageHandler_run (req : GhlRequest) (w : World)
  (cid k : string) :
  authorized env req ->
  well_formed rt (JObject (ghl_body req)) ->
  get (JObject (ghl_body req)) "crm_contact_id" = JStr cid ->
  get (JObject (ghl_body req)) "idempotency_key" = JStr k ->
  txn w = None ->
  let body := JObject (ghl_body req) in
  let id := usage_ledger_id_seq w + 1 in
  let d1 := upsert_customer cid (pg_text rt (get body "name"))
              (pg_text rt (get body "email")) (store w) in
  let ins := insert_usage id k cid (Number rt (get body "units"))
               (timestamptz_in rt (get body "occurred_at")) d1 in
  let isNew := (0 <? length ins.2)%nat in
  createGhlUsageHandler rt env (pg_query rt) req w =
  (Ok (mkResponse 200
         (UsageResult true isNew
            (if isNew then "Usage recorded" else "Duplicate request ignored"))),
   mkWorld ins.1 None id (invoices_id_seq w) (clock w) (tokenCache w)
     (net_calls w)).
Proof.
  intros Hauth Hwf Hcid Hk Htxn body id d1 ins isNew.
  apply validateUsageWebhook_spec in Hwf.
  unfold createGhlUsageHandler, try_catch, try_finally.
  rewrite bool_decide_eq_true_2 by exact Hauth.
  cbv zeta. cbn [negb]. rewrite Hwf. cbn [length Nat.ltb Nat.leb].
  subst body. rewrite Hcid, Hk.
  destruct w as [st tx useq iseq ck tc nc]. cbn in Htxn. subst tx.
  subst isNew ins d1 id.
  cbv [pg_query mbind M_bind mret M_ret modify get_world throw pg_text
       write current begun set_txn set_store set_usage_seq txn store
       working started usage_ledger_id_seq invoices_id_seq clock tokenCache
       net_calls].
  destruct (insert_usage _ _ _ _ _ _) as [d rows] eqn:Hins.
  reflexivity.
Qed.



Lemma well_formed_keys (body : JsValue) :
  well_formed rt body ->
  exists cid k, get body "crm_contact_id" = JStr cid
                /\ get body "idempotency_key" = JStr k.
Proof. intros ((cid & ? & _) & (k & ? & _) & _). by exists cid, k. Qed.

(** C9. A submission with a missing or malformed field ([units] that does
    not convert to a positive number, [occurred_at] that is not a valid
    point in time, [idempotency_key] or [crm_contact_id] that is not a
    non-empty string) is answered 400 with the list of validation errors,
    and whatever the [db] object is, the world is left as it was: neither
    the customer upsert nor the usage insert is issued. *)
Theorem invalid_usage_rejected_without_side_effect
  (db : DbHandle) (req : GhlRequest) (w : World) :
  authorized env req ->
  ~ well_formed rt (JObject (ghl_body req)) ->
  exists details,
    details <> []
    /\ createGhlUsageHandler rt env db req w
       = (Ok (mkResponse 400 (InvalidPayload details)), w).
Proof.
  intros Hauth Hbad.
  exists (validateUsageWebhook rt (JObject (ghl_body req))).
  assert (Hne : validateUsageWebhook rt (JObject (ghl_body req)) <> []).
  { intros Hnil. by apply Hbad, validateUsageWebhook_spec. }
  split; [exact Hne |].
  unfold createGhlUsageHandler, try_catch.
  rewrite bool_decide_eq_true_2 by exact Hauth.
  cbv zeta. cbn [negb].
  destruct (validateUsageWebhook rt (JObject (ghl_body req))); [done |].
  reflexivity.
Qed.



End UsageRecorder.

Lemma usage_request_well_formed (name : string) (units : Q) (key : string) :
  (0 < units)%Q -> key <> "" ->
  well_formed (sample_runtime []) (JObject (ghl_body (usage_request name units key))).
Proof.
  intros Hunits Hkey. repeat split.
  - by exists "CUSTOMER123".
  - by exists key.
  - exact Hunits.
Qed.

(** The scenario of the specification: [units = -1]. *)
Lemma invalid_usage_rejected_witness :
  let req := usage_request "John Doe" (-1) "CUSTOMER123-test-1" in
  authorized sample_env req
  /\ ~ well_formed (sample_runtime []) (JObject (ghl_body req))
  /\ exists details,
       details <> []
       /\ createGhlUsageHandler (sample_runtime []) sample_env
            (pg_query (sample_runtime [])) req empty_world
          = (Ok (mkResponse 400 (InvalidPayload details)), empty_world).
Proof.
  assert (Hbad : ~ well_formed (sample_runtime [])
                     (JObject (ghl_body (usage_request "John Doe" (-1)
                                           "CUSTOMER123-test-1")))).
  { intros (_ & _ & Hpos & _). discriminate Hpos. }
  split; [reflexivity |]. split; [exact Hbad |].
  apply (invalid_usage_rejected_without_side_effect (sample_runtime [])
           sample_env (pg_query (sample_runtime []))
           (usage_request "John Doe" (-1) "CUSTOMER123-test-1") empty_world
           eq_refl Hbad).
Defined.

(** [name] and [email] are not validated: a submission without them is
    recorded, and the customer row holds NULL for both. *)
Example usage_without_name_recorded :
  let rt := sample_runtime [] in
  let req :=
    mkGhlRequest (Some "Bearer ghl-secret")
      [("crm_contact_id", JStr "CUSTOMER123");
       ("units", JNum (Fin 3));
       ("occurred_at", JStr "2025-01-15T20:30:00Z");
       ("idempotency_key", JStr "CUSTOMER123-test-1")] in
  let '(r, w') :=
    createGhlUsageHandler rt sample_env (pg_query rt) req empty_world in
  r = Ok (mkResponse 200 (UsageResult true true "Usage recorded"))
  /\ customers (store w') !! "CUSTOMER123"
     = Some (mkCustomer None None None None (Some "pending"))
  /\ usage_ledger (store w')
     = [mkUsageRow 1 "CUSTOMER123-test-1" "CUSTOMER123" (Fin 3)
          1736973000000 None].
Proof. vm_compute. repeat split. Qed.



(** ** Transfer Status Reconciler *)

Section Reconciler.
Variable rt : Runtime.
Variable env : ProcessEnv.

Lemma write_current (w : World) : write (current w) w = w.
Proof. destruct w as [st [[d t] |] ? ? ? ? ?]; reflexivity. Qed.

Lemma truthy_pg_text (v : JsValue) :
  truthy v = true -> exists h, pg_text rt v = Some h.
Proof. destruct v; cbn; try discriminate; eauto. Qed.

Lemma status_update_none (target href : string) (now : Z) (l : list Invoice) :
  (forall i, i ∈ l -> dwolla_transfer_href i <> Some href
                      \/ inv_status i = target) ->
  (fun i => if status_update_applies target href i
            then set_status target now i else i) <$> l = l
  /\ List.filter (status_update_applies target href) l = [].
Proof.
  induction l as [| i l IH]; [done |]. intros Hno.
  assert (Hi : status_update_applies target href i = false).
  { unfold status_update_applies.
    destruct (Hno i ltac:(left)) as [Hh | ->].
    - destruct (dwolla_transfer_href i) as [h |]; [| done]. cbn.
      destruct (String.eqb_spec h href); [congruence | done].
    - rewrite String.eqb_refl. by rewrite andb_false_r. }
  destruct IH as [IH1 IH2]; [intros j Hj; apply Hno; by right |].
  rewrite fmap_cons. cbn [List.filter]. rewrite Hi, IH1, IH2. done.
Qed.

Lemma update_invoice_status_none (target href : string) (now : Z) (d : Db) :
  (forall i, i ∈ invoices d -> dwolla_transfer_href i <> Some href
                               \/ inv_status i = target) ->
  update_invoice_status target href now d = (d, []).
Proof.
  intros Hno. unfold update_invoice_status.
  destruct (status_update_none target href now _ Hno) as [-> ->].
  by rewrite db_eta.
Qed.

Lemma update_invoice_status_steps (target href : string) (now : Z) (d : Db) :
  Forall2 (status_step target href now) (invoices d)
    (invoices (update_invoice_status target href now d).1).
Proof.
  cbn [update_invoice_status fst invoices].
  induction (invoices d) as [| i l IH]; [constructor |].
  rewrite fmap_cons. constructor; [| exact IH].
  destruct (status_update_applies target href i) eqn:Happ; [| constructor].
  apply andb_true_iff in Happ as [Hh Hs].
  constructor.
  - unfold opt_str_eqb in Hh. destruct (dwolla_transfer_href i); [| done].
    by apply String.eqb_eq in Hh as ->.
  - intros Heq. by rewrite Heq, String.eqb_refl in Hs.
Qed.

Lemma update_invoice_status_settled (target href : string) (now : Z) (d : Db) :
  forall i, i ∈ invoices (update_invoice_status target href now d).1 ->
    dwolla_transfer_href i <> Some href \/ inv_status i = target.
Proof.
  cbn [update_invoice_status fst invoices].
  intros i' (i & -> & Hi)%list_elem_of_fmap.
  destruct (status_update_applies target href i) eqn:Happ; [by right |].
  unfold status_update_applies in Happ.
  apply andb_false_iff in Happ as [Hh | Hs].
  - left. destruct (dwolla_transfer_href i) as [h |]; [| done].
    cbn in Hh. apply String.eqb_neq in Hh. congruence.
  - right. apply negb_false_iff in Hs. by apply String.eqb_eq in Hs.
Qed.

Lemma createDwollaWebhookHandler_cases (db : DbHandle) (req : DwollaRequest)
  (w : World) :
  createDwollaWebhookHandler rt env db req w =
  match verifyDwollaWebhookSignature rt req (DWOLLA_WEBHOOK_SECRET env) with
  | Throw _ => (Ok (sendStatus 200), w)
  | Ok false => (Ok (sendStatus 401), w)
  | Ok true =>
      match JSON_parse rt (raw_body req) with
      | None => (Ok (sendStatus 200), w)
      | Some evt =>
          if negb (truthy (event_href evt)) || negb (truthy (get_opt evt "topic"))
          then (Ok (sendStatus 200), w)
          else if is_topic (get_opt evt "topic") "transfer_completed"
          then (Ok (sendStatus 200),
                (db _ (UpdateInvoiceStatus "completed" (event_href evt)) w).2)
          else if is_topic (get_opt evt "topic") "transfer_failed"
          then (Ok (sendStatus 200),
                (db _ (UpdateInvoiceStatus "failed" (event_href evt)) w).2)
          else (Ok (sendStatus 200), w)
      end
  end.
Proof.
  unfold createDwollaWebhookHandler, try_catch, lift. rewrite run_bind.
  destruct (verifyDwollaWebhookSignature _ _ _) as [[] | e]; try reflexivity.
  cbn [negb]. rewrite run_bind.
  destruct (JSON_parse rt (raw_body req)) as [evt |]; [| reflexivity].
  rewrite run_ret. fold (event_href evt).
  destruct (negb (truthy (event_href evt)) || _); [reflexivity |].
  rewrite run_bind.
  destruct (is_topic (get_opt evt "topic") "transfer_completed").
  { rewrite run_bind.
    by destruct (db _ (UpdateInvoiceStatus "completed" (event_href evt)) w)
      as [[rows | e] w']. }
  destruct (is_topic (get_opt evt "topic") "transfer_failed");
    [| reflexivity].
  rewrite run_bind.
  by destruct (db _ (UpdateInvoiceStatus "failed" (event_href evt)) w)
    as [[rows | e] w'].
Qed.

Lemma pg_update_invoice_status (target : string) (href : JsValue) (h : string)
  (w : World) :
  pg_text rt href = Some h ->
  (pg_query rt _ (UpdateInvoiceStatus target href) w).2
  = write (update_invoice_status target h (now_sql w) (current w)).1 w.
Proof.
  intros Hh. cbn. rewrite Hh.
  by destruct (update_invoice_status target h (now_sql w) (current w)).
Qed.

Lemma pg_update_invoice_status_idle (target : string) (href : JsValue)
  (h : string) (w : World) :
  txn w = None ->
  pg_text rt href = Some h ->
  (pg_query rt _ (UpdateInvoiceStatus target href) w).2
  = set_store (update_invoice_status target h (clock w) (store w)).1 w.
Proof.
  intros Htxn Hh. rewrite (pg_update_invoice_status _ _ h) by done.
  unfold write, current, now_sql. by rewrite Htxn.
Qed.

Lemma update_invoice_status_frame (target href : string) (now : Z) (d : Db) :
  customers (update_invoice_status target href now d).1 = customers d
  /\ usage_ledger (update_invoice_status target href now d).1 = usage_ledger d.
Proof. done. Qed.

(** C8.  An authenticated notification is answered 200 whatever the [db]
    object does, a query that throws included, and whatever the payload
    is (unparsable, without reference or topic, of an unrecognised
    topic); on PostgreSQL a notification whose transfer reference matches
    no invoice is answered 200 and leaves the world exactly as it was. *)
Theorem notification_always_acknowledged (db : DbHandle) (req : DwollaRequest)
  (w : World) :
  verifyDwollaWebhookSignature rt req (DWOLLA_WEBHOOK_SECRET env) = Ok true ->
  (createDwollaWebhookHandler rt env db req w).1 = Ok (sendStatus 200)
  /\ ((forall h i, notification_href rt req = Some h ->
                   i ∈ invoices (current w) ->
                   dwolla_transfer_href i <> Some h) ->
      createDwollaWebhookHandler rt env (pg_query rt) req w
      = (Ok (sendStatus 200), w)).
Proof.
  intros Hauth. rewrite !createDwollaWebhookHandler_cases, Hauth.
  unfold notification_href.
  destruct (JSON_parse rt (raw_body req)) as [evt |]; [| done].
  destruct (negb (truthy (event_href evt)) || _) eqn:Hfalsy; [done |].
  apply orb_false_iff in Hfalsy as [Hhref%negb_false_iff _].
  rewrite Hhref.
  apply truthy_pg_text in Hhref as [h Hh].
  assert (Hnone : forall target,
    (forall h i, pg_text rt (event_href evt) = Some h ->
                 i ∈ invoices (current w) -> dwolla_transfer_href i <> Some h) ->
    (pg_query rt _ (UpdateInvoiceStatus target (event_href evt)) w).2 = w).
  { intros target Hno. rewrite (pg_update_invoice_status _ _ h) by done.
    rewrite update_invoice_status_none; [apply write_current |].
    intros i Hi. left. by apply Hno. }
  split.
  - by repeat destruct (is_topic _ _).
  - intros Hno. repeat destruct (is_topic _ _); rewrite ?Hnone; done.
Qed.

Lemma verify_with_secret (req : DwollaRequest) (secret : string) :
  secret <> "" ->
  verifyDwollaWebhookSignature rt req (Some secret) =
  match x_request_signature_sha256 req with
  | None => Ok false
  | Some sig =>
      if String.eqb sig "" then Ok false
      else timingSafeEqual sig (hmac_sha256_hex rt secret (raw_body req))
  end.
Proof.
  intros Hs. unfold verifyDwollaWebhookSignature. cbn [falsy_str].
  destruct (String.eqb_spec secret ""); [done |].
  destruct (x_request_signature_sha256 req) as [sig |]; [| done].
  cbn. by destruct (String.eqb sig "").
Qed.

Lemma signature_checked_with_secret (db : DbHandle)
  (req : DwollaRequest) (w : World) (secret : string) :
  DWOLLA_WEBHOOK_SECRET env = Some secret ->
  secret <> "" ->
  let digest := hmac_sha256_hex rt secret (raw_body req) in
  (verifyDwollaWebhookSignature rt req (Some secret) = Ok true
   <-> x_request_signature_sha256 req = Some digest /\ digest <> "")
  /\ (x_request_signature_sha256 req <> Some digest ->
      (createDwollaWebhookHandler rt env db req w).2 = w
      /\ (falsy_str (x_request_signature_sha256 req) = true
          \/ String.length (default "" (x_request_signature_sha256 req))
             = String.length digest ->
          (createDwollaWebhookHandler rt env db req w).1
          = Ok (sendStatus 401))).
Proof.
  intros Hsecret Hne digest.
  rewrite createDwollaWebhookHandler_cases, Hsecret.
  rewrite (verify_with_secret req secret Hne). fold digest.
  destruct (x_request_signature_sha256 req) as [sig |];
    [| split; [split; [done | by intros [? _]] | done]].
  destruct (String.eqb_spec sig "") as [-> | Hsig].
  { split; [| done]. split; [done |]. by intros [[= <-] ?]. }
  unfold timingSafeEqual. cbn [default falsy_str].
  destruct (Nat.eqb_spec (String.length sig) (String.length digest)) as [Hl | Hl].
  - destruct (String.eqb_spec sig digest) as [-> | Hd].
    + split; [| done]. split; [done | by intros _].
    + split; [split; [done | by intros [[= ?] _]] |].
      intros _. split; [done |]. done.
  - split; [split; [done | intros [[= ->] _]; done] |].
    intros _. split; [done |]. intros [Hf | ?]; [| done].
    by apply String.eqb_eq in Hf.
Qed.

(** C7 (amended).  With a signing secret configured, a notification is
    verified exactly when its signature header equals the HMAC-SHA256 hex
    digest of the raw body; a notification whose header is missing or
    differs from the digest causes no state change whatever the [db]
    object is (no statement is issued), and it is answered 401 when the
    header is missing, empty or of the digest's length.  With no secret
    configured the verification succeeds for every notification. *)
Theorem forged_notification_changes_nothing (db : DbHandle)
  (req : DwollaRequest) (w : World) (secret : string) :
  DWOLLA_WEBHOOK_SECRET env = Some secret ->
  secret <> "" ->
  let digest := hmac_sha256_hex rt secret (raw_body req) in
  (verifyDwollaWebhookSignature rt req (Some secret) = Ok true
   <-> x_request_signature_sha256 req = Some digest /\ digest <> "")
  /\ (x_request_signature_sha256 req <> Some digest ->
      (createDwollaWebhookHandler rt env db req w).2 = w
      /\ (falsy_str (x_request_signature_sha256 req) = true
          \/ String.length (default "" (x_request_signature_sha256 req))
             = String.length digest ->
          (createDwollaWebhookHandler rt env db req w).1
          = Ok (sendStatus 401)))
  /\ (forall unset, falsy_str unset = true ->
        verifyDwollaWebhookSignature rt req unset = Ok true).
Proof.
  intros Hsecret Hne digest.
  destruct (signature_checked_with_secret db req w secret Hsecret Hne)
    as [Hverify Hforged].
  split; [exact Hverify |]. split; [exact Hforged |].
  intros unset Hunset. unfold verifyDwollaWebhookSignature.
  by rewrite Hunset.
Qed.

Lemma notification_moves_matching_invoices (req : DwollaRequest)
  (w : World) (r : Outcome Response) (w' : World) :
  txn w = None ->
  createDwollaWebhookHandler rt env (pg_query rt) req w = (r, w') ->
  (exists c, r = Ok (sendStatus c))
  /\ customers (store w') = customers (store w)
  /\ usage_ledger (store w') = usage_ledger (store w)
  /\ (exists target href,
        (target = "completed" \/ target = "failed")
        /\ Forall2 (status_step target href (clock w))
             (invoices (store w)) (invoices (store w')))
  /\ createDwollaWebhookHandler rt env (pg_query rt) req w' = (r, w').
Proof.
  intros Htxn. rewrite !createDwollaWebhookHandler_cases.
  assert (Hkept : forall target href,
            Forall2 (status_step target href (clock w))
              (invoices (store w)) (invoices (store w))).
  { intros. induction (invoices (store w)); constructor; [constructor | done]. }
  assert (Hsame : forall c, (Ok (sendStatus c), w) = (r, w') ->
    (exists c, r = Ok (sendStatus c))
    /\ customers (store w') = customers (store w)
    /\ usage_ledger (store w') = usage_ledger (store w)
    /\ (exists target href,
          (target = "completed" \/ target = "failed")
          /\ Forall2 (status_step target href (clock w))
               (invoices (store w)) (invoices (store w')))
    /\ (Ok (sendStatus c), w') = (r, w')).
  { intros c [= <- <-]. split; [eauto |]. split; [done |]. split; [done |].
    split; [| done]. exists "completed", "". eauto. }
  assert (Hupd : forall target href,
    target = "completed" \/ target = "failed" ->
    truthy href = true ->
    (Ok (sendStatus 200),
     (pg_query rt _ (UpdateInvoiceStatus target href) w).2) = (r, w') ->
    (exists c, r = Ok (sendStatus c))
    /\ customers (store w') = customers (store w)
    /\ usage_ledger (store w') = usage_ledger (store w)
    /\ (exists target href,
          (target = "completed" \/ target = "failed")
          /\ Forall2 (status_step target href (clock w))
               (invoices (store w)) (invoices (store w')))
    /\ (Ok (sendStatus 200),
        (pg_query rt _ (UpdateInvoiceStatus target href) w').2) = (r, w')).
  { intros target href Htarget [h Hh]%truthy_pg_text.
    rewrite (pg_update_invoice_status_idle _ _ h w) by done.
    pose proof (update_invoice_status_steps target h (clock w) (store w))
      as Hsteps.
    pose proof (update_invoice_status_settled target h (clock w) (store w))
      as Hsettled.
    pose proof (update_invoice_status_frame target h (clock w) (store w))
      as [Hc Hu].
    destruct (update_invoice_status target h (clock w) (store w))
      as [d' rows]. cbn [fst] in *.
    intros [= <- <-].
    rewrite (pg_update_invoice_status_idle _ _ h (set_store d' w)) by done.
    change (clock (set_store d' w)) with (clock w).
    change (store (set_store d' w)) with d'.
    rewrite (update_invoice_status_none target h (clock w) d' Hsettled).
    split; [eauto |]. split; [done |]. split; [done |].
    split; [| done]. by exists target, h. }
  destruct (verifyDwollaWebhookSignature _ _ _) as [[] | e];
    [| by apply Hsame ..].
  destruct (JSON_parse rt (raw_body req)) as [evt |]; [| by apply Hsame].
  destruct (negb (truthy (event_href evt)) || _) eqn:Hfalsy; [by apply Hsame |].
  apply orb_false_iff in Hfalsy as [Hhref%negb_false_iff _].
  destruct (is_topic _ "transfer_completed"); [apply Hupd; auto |].
  destruct (is_topic _ "transfer_failed"); [apply Hupd; auto |].
  by apply Hsame.
Qed.

Lemma is_topic_spec (topic : JsValue) (s : string) :
  is_topic topic s = true <-> topic = JStr s.
Proof.
  destruct topic; cbn; try (split; [discriminate | discriminate]).
  rewrite String.eqb_eq. split; [by intros -> | by intros [= ->]].
Qed.

Lemma notification_settles_status (req : DwollaRequest) (w : World)
  (r : Outcome Response) (w' : World) (h target : string) :
  txn w = None ->
  createDwollaWebhookHandler rt env (pg_query rt) req w = (r, w') ->
  verifyDwollaWebhookSignature rt req (DWOLLA_WEBHOOK_SECRET env) = Ok true ->
  notification_href rt req = Some h ->
  (notification_topic rt req = JStr "transfer_completed" /\ target = "completed"
   \/ notification_topic rt req = JStr "transfer_failed" /\ target = "failed") ->
  forall i, i ∈ invoices (store w') ->
    dwolla_transfer_href i = Some h -> inv_status i = target.
Proof.
  intros Htxn Hrun Hauth Hhref Htopic.
  rewrite createDwollaWebhookHandler_cases, Hauth in Hrun.
  unfold notification_href, notification_topic in *.
  destruct (JSON_parse rt (raw_body req)) as [evt |]; [| done].
  destruct (truthy (event_href evt)) eqn:Htruthy; [| done].
  assert (Hrun' : (Ok (sendStatus 200),
                   (pg_query rt _ (UpdateInvoiceStatus target (event_href evt))
                      w).2) = (r, w')).
  { destruct Htopic as [[Ht ->] | [Ht ->]]; rewrite Ht in Hrun.
    - by rewrite (eq_refl : negb true || negb (truthy (JStr "transfer_completed"))
                           = false),
        (eq_refl : is_topic (JStr "transfer_completed") "transfer_completed"
                   = true) in Hrun.
    - by rewrite (eq_refl : negb true || negb (truthy (JStr "transfer_failed"))
                           = false),
        (eq_refl : is_topic (JStr "transfer_failed") "transfer_completed"
                   = false),
        (eq_refl : is_topic (JStr "transfer_failed") "transfer_failed"
                   = true) in Hrun. }
  rewrite (pg_update_invoice_status_idle _ _ h w) in Hrun' by done.
  injection Hrun' as _ <-. cbn [store set_store].
  intros i Hi Hh.
  by destruct (update_invoice_status_settled target h (clock w) (store w) i Hi).
Qed.

(** What a delivery changes is decided by the notification: an
    authenticated notification with a reference and a topic that asks for
    a status moves the invoices of that reference to that status, and
    every other delivery leaves the world as it is. *)
Lemma notification_decides (req : DwollaRequest) (w : World)
  (r : Outcome Response) (w' : World) :
  txn w = None ->
  createDwollaWebhookHandler rt env (pg_query rt) req w = (r, w') ->
  (forall h target,
     verifyDwollaWebhookSignature rt req (DWOLLA_WEBHOOK_SECRET env) = Ok true ->
     notification_href rt req = Some h ->
     asks_for rt req target ->
     Forall2 (status_step target h (clock w))
       (invoices (store w)) (invoices (store w')))
  /\ (~ (verifyDwollaWebhookSignature rt req (DWOLLA_WEBHOOK_SECRET env)
         = Ok true
         /\ (exists h, notification_href rt req = Some h)
         /\ (exists target, asks_for rt req target)) ->
      w' = w).
Proof.
  intros Htxn. rewrite createDwollaWebhookHandler_cases.
  unfold asks_for, notification_href, notification_topic.
  destruct (verifyDwollaWebhookSignature _ _ _) as [[] | e];
    [| by intros [= _ <-] ..].
  destruct (JSON_parse rt (raw_body req)) as [evt |]; [| by intros [= _ <-]].
  destruct (truthy (event_href evt)) eqn:Hhref; [| by intros [= _ <-]].
  cbn [negb orb].
  destruct (truthy_pg_text _ Hhref) as [h0 Hh0]. rewrite Hh0.
  destruct (negb (truthy (get_opt evt "topic"))) eqn:Htopic.
  { intros [= _ <-]. split; [| done].
    intros h target _ _ [[Ht _] | [Ht _]]; by rewrite Ht in Htopic. }
  assert (Hupd : forall target,
            is_topic (get_opt evt "topic") ("transfer_" ++ target) = true ->
            (target = "completed" \/ target = "failed") ->
            (Ok (sendStatus 200),
             (pg_query rt _ (UpdateInvoiceStatus target (event_href evt)) w).2)
            = (r, w') ->
            (forall h target',
               Ok true = Ok true -> Some h0 = Some h ->
               get_opt evt "topic" = JStr "transfer_completed"
               /\ target' = "completed"
               \/ get_opt evt "topic" = JStr "transfer_failed"
                  /\ target' = "failed" ->
               Forall2 (status_step target' h (clock w))
                 (invoices (store w)) (invoices (store w')))
            /\ (~ (Ok true = Ok true
                   /\ (exists h, Some h0 = Some h)
                   /\ (exists target',
                         get_opt evt "topic" = JStr "transfer_completed"
                         /\ target' = "completed"
                         \/ get_opt evt "topic" = JStr "transfer_failed"
                            /\ target' = "failed")) ->
                w' = w)).
  { intros target Htarget%is_topic_spec Hcases.
    rewrite (pg_update_invoice_status_idle _ _ h0 w) by done.
    intros [= _ <-]. split.
    - intros h target' _ [= <-] Hasks.
      assert (target' = target) as ->.
      { rewrite Htarget in Hasks.
        destruct Hcases as [-> | ->], Hasks as [[[=] ->] | [[=] ->]]; done. }
      apply update_invoice_status_steps.
    - intros Hnot. exfalso. apply Hnot. split; [done |].
      split; [by exists h0 |]. exists target. rewrite Htarget.
      destruct Hcases as [-> | ->]; [by left | by right]. }
  destruct (is_topic _ "transfer_completed") eqn:Hc;
    [by apply (Hupd "completed"); auto |].
  destruct (is_topic _ "transfer_failed") eqn:Hf;
    [by apply (Hupd "failed"); auto |].
  intros [= _ <-]. split; [| done].
  intros h target _ _ [[Ht _] | [Ht _]].
  - apply is_topic_spec in Ht. congruence.
  - apply is_topic_spec in Ht. congruence.
Qed.

(** C4 (amended).  A delivery is answered without error and touches neither
    customers nor usage.  After an authenticated notification that carries
    a transfer reference and whose topic asks for a status ([completed]
    for [transfer_completed], [failed] for [transfer_failed]), every
    invoice is either left as it is or, because its transfer reference is
    the notification's and its status differs from the one asked for, set
    to that status, whatever status it had, and every invoice with that
    reference then has that status.  Any other delivery leaves the world
    as it is.  Delivering the same notification again changes nothing and
    gives the same answer. *)
Theorem invoice_status_follows_notification (req : DwollaRequest)
  (w : World) (r : Outcome Response) (w' : World) :
  txn w = None ->
  createDwollaWebhookHandler rt env (pg_query rt) req w = (r, w') ->
  (exists c, r = Ok (sendStatus c))
  /\ customers (store w') = customers (store w)
  /\ usage_ledger (store w') = usage_ledger (store w)
  /\ (forall h target,
        verifyDwollaWebhookSignature rt req (DWOLLA_WEBHOOK_SECRET env)
        = Ok true ->
        notification_href rt req = Some h ->
        asks_for rt req target ->
        Forall2 (status_step target h (clock w))
          (invoices (store w)) (invoices (store w'))
        /\ forall i, i ∈ invoices (store w') ->
             dwolla_transfer_href i = Some h -> inv_status i = target)
  /\ (~ (verifyDwollaWebhookSignature rt req (DWOLLA_WEBHOOK_SECRET env)
         = Ok true
         /\ (exists h, notification_href rt req = Some h)
         /\ (exists target, asks_for rt req target)) ->
      w' = w)
  /\ createDwollaWebhookHandler rt env (pg_query rt) req w' = (r, w').
Proof.
  intros Htxn Hrun.
  destruct (notification_moves_matching_invoices req w r w' Htxn Hrun)
    as (Hr & Hc & Hu & _ & Hagain).
  destruct (notification_decides req w r w' Htxn Hrun) as [Hsteps Hother].
  repeat (split; [assumption |]).
  split; [| split; assumption].
  intros h target Hauth Hhref Hasks.
  split; [by apply Hsteps |].
  by apply (notification_settles_status req w r w' h target Htxn Hrun).
Qed.

End Reconciler.

(** A notification signed with the digest the sample runtime computes. *)
Lemma notification_acknowledged_witness :
  let rt := sample_runtime [] in
  let req := mkDwollaRequest (Some "5d41402abc4b2a76") "completed:t9" in
  verifyDwollaWebhookSignature rt req (DWOLLA_WEBHOOK_SECRET signed_env)
  = Ok true
  /\ (createDwollaWebhookHandler rt signed_env (pg_query rt) req
        (world_with_invoice "initiated" 5)).1 = Ok (sendStatus 200)
  /\ ((forall h i, notification_href rt req = Some h ->
                   i ∈ invoices (current (world_with_invoice "initiated" 5)) ->
                   dwolla_transfer_href i <> Some h) ->
      createDwollaWebhookHandler rt signed_env (pg_query rt) req
        (world_with_invoice "initiated" 5)
      = (Ok (sendStatus 200), world_with_invoice "initiated" 5)).
Proof.
  split; [reflexivity |].
  apply (notification_always_acknowledged (sample_runtime []) signed_env
           (pg_query (sample_runtime []))
           (mkDwollaRequest (Some "5d41402abc4b2a76") "completed:t9")
           (world_with_invoice "initiated" 5) eq_refl).
Defined.

Lemma forged_notification_witness :
  let rt := sample_runtime [] in
  let req := mkDwollaRequest (Some "0000000000000000") "completed:t1" in
  let w := world_with_invoice "initiated" 5 in
  let digest := hmac_sha256_hex rt "whsec" (raw_body req) in
  DWOLLA_WEBHOOK_SECRET signed_env = Some "whsec"
  /\ "whsec" <> ""
  /\ (verifyDwollaWebhookSignature rt req (Some "whsec") = Ok true
      <-> x_request_signature_sha256 req = Some digest /\ digest <> "")
  /\ (x_request_signature_sha256 req <> Some digest ->
      (createDwollaWebhookHandler rt signed_env (pg_query rt) req w).2 = w
      /\ (falsy_str (x_request_signature_sha256 req) = true
          \/ String.length (default "" (x_request_signature_sha256 req))
             = String.length digest ->
          (createDwollaWebhookHandler rt signed_env (pg_query rt) req w).1
          = Ok (sendStatus 401)))
  /\ (forall unset, falsy_str unset = true ->
        verifyDwollaWebhookSignature rt req unset = Ok true).
Proof.
  split; [reflexivity |]. split; [discriminate |].
  apply (forged_notification_changes_nothing (sample_runtime []) signed_env
           (pg_query (sample_runtime []))
           (mkDwollaRequest (Some "0000000000000000") "completed:t1")
           (world_with_invoice "initiated" 5) "whsec" eq_refl
           ltac:(discriminate)).
Defined.

Lemma invoice_status_witness :
  let rt := sample_runtime [] in
  let req := mkDwollaRequest (Some "5d41402abc4b2a76") "completed:t1" in
  let w := world_with_invoice "initiated" 5 in
  let w' := world_with_invoice "completed" 1000 in
  let r := Ok (sendStatus 200) in
  txn w = None
  /\ createDwollaWebhookHandler rt signed_env (pg_query rt) req w = (r, w')
  /\ (verifyDwollaWebhookSignature rt req (DWOLLA_WEBHOOK_SECRET signed_env)
      = Ok true
      /\ notification_href rt req = Some "t1"
      /\ asks_for rt req "completed")
  /\ (exists c, r = Ok (sendStatus c))
  /\ customers (store w') = customers (store w)
  /\ usage_ledger (store w') = usage_ledger (store w)
  /\ (forall h target,
        verifyDwollaWebhookSignature rt req (DWOLLA_WEBHOOK_SECRET signed_env)
        = Ok true ->
        notification_href rt req = Some h ->
        asks_for rt req target ->
        Forall2 (status_step target h (clock w))
          (invoices (store w)) (invoices (store w'))
        /\ forall i, i ∈ invoices (store w') ->
             dwolla_transfer_href i = Some h -> inv_status i = target)
  /\ (~ (verifyDwollaWebhookSignature rt req
           (DWOLLA_WEBHOOK_SECRET signed_env) = Ok true
         /\ (exists h, notification_href rt req = Some h)
         /\ (exists target, asks_for rt req target)) ->
      w' = w)
  /\ createDwollaWebhookHandler rt signed_env (pg_query rt) req w' = (r, w').
Proof.
  split; [reflexivity |]. split; [reflexivity |].
  split; [split; [reflexivity |]; split; [reflexivity | by left] |].
  apply (invoice_status_follows_notification (sample_runtime []) signed_env
           (mkDwollaRequest (Some "5d41402abc4b2a76") "completed:t1")
           (world_with_invoice "initiated" 5) (Ok (sendStatus 200))
           (world_with_invoice "completed" 1000) eq_refl eq_refl).
Defined.

(** C4, as stated, fails: a correctly signed [transfer_completed]
    notification moves an invoice that is already [failed] to
    [completed]. *)
Lemma completed_notification_overwrites_failed :
  let rt := sample_runtime [] in
  createDwollaWebhookHandler rt signed_env (pg_query rt)
    (mkDwollaRequest (Some "5d41402abc4b2a76") "completed:t1")
    (world_with_invoice "failed" 5)
  = (Ok (sendStatus 200), world_with_invoice "completed" 1000)
  /\ inv_status <$> invoices (store (world_with_invoice "failed" 5))
     = ["failed"]
  /\ inv_status <$> invoices (store (world_with_invoice "completed" 1000))
     = ["completed"].
Proof. repeat split. Qed.

(** The symmetric transition: [completed] to [failed]. *)
Example failed_notification_overwrites_completed :
  let rt := sample_runtime [] in
  createDwollaWebhookHandler rt signed_env (pg_query rt)
    (mkDwollaRequest (Some "5d41402abc4b2a76") "failed:t1")
    (world_with_invoice "completed" 5)
  = (Ok (sendStatus 200), world_with_invoice "failed" 1000).
Proof. reflexivity. Qed.

(** C7, as stated, fails: with [DWOLLA_WEBHOOK_SECRET] unset the check is
    skipped, and a notification whose signature is not the digest of its
    body updates the invoice. *)
Lemma forged_notification_applied_without_secret :
  let rt := sample_runtime [] in
  let req := mkDwollaRequest (Some "forged") "completed:t1" in
  DWOLLA_WEBHOOK_SECRET sample_env = None
  /\ (forall secret,
        x_request_signature_sha256 req
        <> Some (hmac_sha256_hex rt secret (raw_body req)))
  /\ createDwollaWebhookHandler rt sample_env (pg_query rt) req
       (world_with_invoice "initiated" 5)
     = (Ok (sendStatus 200), world_with_invoice "completed" 1000).
Proof. repeat split. discriminate. Qed.

(** With a secret configured, a signature of another length than the
    digest makes [timingSafeEqual] throw: the notification changes nothing,
    but the answer is 200, not 401. *)
Example short_signature_acknowledged :
  let rt := sample_runtime [] in
  createDwollaWebhookHandler rt signed_env (pg_query rt)
    (mkDwollaRequest (Some "forged") "completed:t1")
    (world_with_invoice "initiated" 5)
  = (Ok (sendStatus 200), world_with_invoice "initiated" 5).
Proof. reflexivity. Qed.

(** ** Transfer Initiator *)

Section TransferInitiator.

Variable rt : Runtime.
Variable env : ProcessEnv.

Lemma same_db_refl (w : World) : same_db w w.
Proof. by repeat split. Qed.

Lemma same_db_trans (w1 w2 w3 : World) :
  same_db w1 w2 -> same_db w2 w3 -> same_db w1 w3.
Proof.
  intros (? & ? & ? & ?) (? & ? & ? & ?). repeat split; congruence.
Qed.

Lemma frames_ret {A} (a : A) : frames_db (mret a).
Proof. intros w. apply same_db_refl. Qed.

Lemma frames_throw {A} (e : Error) : frames_db (throw (A := A) e).
Proof. intros w. apply same_db_refl. Qed.

Lemma frames_bind {A B} (m : M A) (f : A -> M B) :
  frames_db m -> (forall a, frames_db (f a)) -> frames_db (m ≫= f).
Proof.
  intros Hm Hf w. rewrite run_bind. specialize (Hm w).
  destruct (m w) as [[a | e] w1]; [| exact Hm].
  eapply same_db_trans; [exact Hm | apply Hf].
Qed.

Lemma frames_try_catch {A} (m : M A) (h : Error -> M A) :
  frames_db m -> (forall e, frames_db (h e)) -> frames_db (try_catch m h).
Proof.
  intros Hm Hh w. unfold try_catch. specialize (Hm w).
  destruct (m w) as [[a | e] w1]; [exact Hm |].
  eapply same_db_trans; [exact Hm | apply Hh].
Qed.

Lemma frames_get_world : frames_db get_world.
Proof. intros w. apply same_db_refl. Qed.

Lemma frames_sleep (ms : Z) : frames_db (sleep ms).
Proof. intros w. by repeat split. Qed.

Lemma frames_set_tokenCache (c : TokenCache) :
  frames_db (modify (set_tokenCache c)).
Proof. intros w. by repeat split. Qed.

Lemma frames_do_fetch (req : FetchRequest) : frames_db (do_fetch rt req).
Proof.
  intros w. unfold do_fetch. by destruct (fetch rt (net_calls w) req).
Qed.

Lemma frames_env_trim (o : option string) : frames_db (env_trim o).
Proof. destruct o; [apply frames_ret | apply frames_throw]. Qed.

Lemma frames_getDwollaToken : frames_db (getDwollaToken rt env).
Proof.
  unfold getDwollaToken.
  apply frames_bind; [apply frames_get_world | intros w0].
  destruct (cache_valid _ _); [apply frames_ret |].
  apply frames_bind; [apply frames_env_trim | intros key].
  apply frames_bind; [apply frames_env_trim | intros secret].
  apply frames_bind; [apply frames_do_fetch | intros res].
  destruct (negb (res_ok res)); [apply frames_throw |].
  destruct (body_json res) as [json |]; [| apply frames_throw].
  apply frames_bind; [apply frames_get_world | intros w1].
  apply frames_bind; [apply frames_set_tokenCache | intros _].
  apply frames_ret.
Qed.

Lemma frames_dwollaPost_attempt (path : string) (body : TransferBody)
  (retries attempt : nat) :
  frames_db (dwollaPost_attempt rt env path body retries attempt).
Proof.
  unfold dwollaPost_attempt. apply frames_try_catch.
  - apply frames_bind; [apply frames_getDwollaToken | intros tok].
    apply frames_bind; [apply frames_do_fetch | intros res].
    destruct (negb (res_ok res)); [| apply frames_ret].
    destruct ((http_status res =? 401) && _).
    { apply frames_bind; [apply frames_set_tokenCache | intros _].
      apply frames_bind; [apply frames_sleep | intros _]. apply frames_ret. }
    destruct ((400 <=? http_status res) && _); [apply frames_throw |].
    destruct (attempt <? retries)%nat; [| apply frames_throw].
    apply frames_bind; [apply frames_sleep | intros _]. apply frames_ret.
  - intros e. destruct (attempt =? retries)%nat;
      [apply frames_throw | apply frames_ret].
Qed.

Lemma frames_dwollaPost_from (path : string) (body : TransferBody)
  (retries remaining attempt : nat) :
  frames_db (dwollaPost_from rt env path body retries remaining attempt).
Proof.
  revert attempt. induction remaining as [| n IH]; intros attempt.
  - apply frames_ret.
  - cbn [dwollaPost_from].
    apply frames_bind; [apply frames_dwollaPost_attempt | intros [loc |]].
    + apply frames_ret.
    + apply IH.
Qed.

(** The transfer call never touches the database. *)
Lemma frames_dwollaPost (path : string) (body : TransferBody) (retries : nat) :
  frames_db (dwollaPost rt env path body retries).
Proof. apply frames_dwollaPost_from. Qed.

(** On its last pass the loop returns or throws. *)
Lemma dwollaPost_attempt_last (path : string) (body : TransferBody)
  (retries : nat) (w : World) :
  (dwollaPost_attempt rt env path body retries retries w).1 <> Ok Continue.
Proof.
  unfold dwollaPost_attempt, try_catch.
  rewrite Nat.ltb_irrefl, Nat.eqb_refl.
  rewrite run_bind.
  destruct (getDwollaToken rt env w) as [[tok | e] w1]; [| done].
  rewrite run_bind.
  destruct (do_fetch rt _ w1) as [[res | e] w2]; [| done].
  destruct (negb (res_ok res)); [| done].
  rewrite andb_false_r.
  by destruct ((400 <=? http_status res) && _).
Qed.

(** With at least one attempt allowed, [dwollaPost] never returns
    [undefined]. *)
Lemma dwollaPost_from_defined (path : string) (body : TransferBody)
  (retries remaining attempt : nat) (w : World) :
  (0 < remaining)%nat -> (attempt + remaining = S retries)%nat ->
  (dwollaPost_from rt env path body retries remaining attempt w).1 <> Ok None.
Proof.
  revert attempt w. induction remaining as [| n IH]; intros attempt w Hpos Hsum;
    [lia |].
  cbn [dwollaPost_from]. rewrite run_bind.
  destruct (dwollaPost_attempt rt env path body retries attempt w)
    as [[[loc |] | e] w1] eqn:Hattempt; [done | | done].
  destruct n as [| n'].
  - replace attempt with retries in Hattempt by lia.
    pose proof (dwollaPost_attempt_last path body retries w) as Hlast.
    by rewrite Hattempt in Hlast.
  - apply IH; lia.
Qed.

Lemma dwollaPost_defined (path : string) (body : TransferBody) (w : World) :
  (dwollaPost rt env path body 3 w).1 <> Ok None.
Proof. apply dwollaPost_from_defined; lia. Qed.



End TransferInitiator.

(** C6.  The code does not fail immediately on a client-side error: the
    [catch] of the retry loop swallows the error thrown for a 4xx answer
    on every pass but the last.  When the processor rejects the request
    with 400 every time, [dwollaPost] sends it three times, without
    delay, before it throws (four fetch calls, the token grant
    included); when the processor rejects the first request and accepts
    the second, [dwollaPost] returns the second answer's location
    instead of throwing.  Likewise two successive 401 answers are each
    retried, not only the first. *)
Theorem client_error_is_retried :
  dwollaPost (sample_runtime transfer_rejected) sample_env "transfers"
    sample_transfer 3 empty_world
  = (Throw (mkError "Dwolla API error: 400 - Invalid funding source"),
     mkWorld (mkDb ∅ [] []) None 0 0 0
       (mkTokenCache (Some "tok") (Some 3540000)) 4)
  /\ dwollaPost
       (sample_runtime
          [token_granted;
           api_answers 400 "Invalid funding source" None;
           api_answers 201 "" (Some "https://api.dwolla.com/transfers/t1")])
       sample_env "transfers" sample_transfer 3 empty_world
     = (Ok (Some (Some "https://api.dwolla.com/transfers/t1")),
        mkWorld (mkDb ∅ [] []) None 0 0 0
          (mkTokenCache (Some "tok") (Some 3540000)) 3)
  /\ dwollaPost
       (sample_runtime
          [token_granted; api_answers 401 "" None;
           token_granted; api_answers 401 "" None;
           token_granted;
           api_answers 201 "" (Some "https://api.dwolla.com/transfers/t1")])
       sample_env "transfers" sample_transfer 3 empty_world
     = (Ok (Some (Some "https://api.dwolla.com/transfers/t1")),
        mkWorld (mkDb ∅ [] []) None 0 0 2000
          (mkTokenCache (Some "tok") (Some 3542000)) 6).
Proof. repeat split. Qed.

(** A server-side error is retried after 1000 ms and 2000 ms, and the
    third failure is thrown. *)
Example server_error_backs_off :
  dwollaPost
    (sample_runtime
       [token_granted; api_answers 500 "" None; api_answers 503 "" None;
        api_answers 500 "down" None])
    sample_env "transfers" sample_transfer 3 empty_world
  = (Throw (mkError "Dwolla API error: 500 - down"),
     mkWorld (mkDb ∅ [] []) None 0 0 3000
       (mkTokenCache (Some "tok") (Some 3540000)) 4).
Proof. reflexivity. Qed.

(** ** Billing Aggregator *)

Section Billing.
Variable rt : Runtime.
Variable env : ProcessEnv.

Lemma bill_customer_skips (start end_ : Z) (c : BillableRow)
  (results : Results) (w : World) :
  js_le0 (amountCents_of c) = true ->
  bill_customer rt env (pg_query rt) start end_ c results w
  = (Ok (count_skipped results), w).
Proof. intros H. unfold bill_customer. fold (amountCents_of c). by rewrite H. Qed.

Lemma pg_begin (w : World) :
  txn w = None ->
  pg_query rt unit BEGIN w = (Ok [], begun w).
Proof. destruct w; cbn. by intros ->. Qed.

Lemma pg_rollback (w : World) :
  pg_query rt unit ROLLBACK w = (Ok [], set_txn None w).
Proof. reflexivity. Qed.

Lemma pg_commit (w : World) :
  pg_query rt unit COMMIT w
  = (Ok [], match txn w with
            | Some t => set_txn None (set_store (working t) w)
            | None => w
            end).
Proof. reflexivity. Qed.

Lemma pg_insert_invoice (cid : string) (start end_ : Z) (amountCents : JsNum)
  (href : option string) (w : World) :
  pg_query rt Z (InsertInvoice cid start end_ amountCents href) w =
  match pg_int amountCents with
  | None => (Throw (mkError "invalid input syntax for type integer"), w)
  | Some amount =>
      (Ok [invoices_id_seq w + 1],
       write (insert_invoice (invoices_id_seq w + 1) cid start end_ amount
                href (now_sql w) (current w))
         (set_invoices_seq (invoices_id_seq w + 1) w))
  end.
Proof. cbn. by destruct (pg_int amountCents). Qed.

Lemma pg_claim_usage (invoiceId : Z) (cid : string) (start end_ : Z)
  (w : World) :
  pg_query rt unit (ClaimUsage invoiceId cid start end_) w
  = (Ok [], write (claim_usage invoiceId cid start end_ (current w)) w).
Proof. reflexivity. Qed.

Lemma bill_customer_run (start end_ : Z) (c : BillableRow)
  (results : Results) (w w2 : World) (r : Outcome (option (option string))) :
  txn w = None ->
  js_le0 (amountCents_of c) = false ->
  dwollaPost rt env "transfers" (transfer_of env start end_ c) 3
    (begun w) = (r, w2) ->
  let cid := row_crm_contact_id c in
  let id := invoices_id_seq w + 1 in
  bill_customer rt env (pg_query rt) start end_ c results w =
  match r with
  | Throw e => (Ok (count_failed cid e results), set_txn None w2)
  | Ok None =>
      (Ok (count_failed cid (TypeError "location") results), set_txn None w2)
  | Ok (Some location) =>
      match pg_int (amountCents_of c) with
      | None =>
          (Ok (count_failed cid
                 (mkError "invalid input syntax for type integer") results),
           set_txn None w2)
      | Some amount =>
          (Ok (count_successful (amountCents_of c) results),
           set_txn None
             (set_store
                (claim_usage id cid start end_
                   (insert_invoice id cid start end_ amount location
                      (clock w) (store w)))
                (set_invoices_seq id w2)))
      end
  end.
Proof.
  intros Htxn Hamount Hpost cid id.
  pose proof (frames_dwollaPost rt env "transfers" (transfer_of env start end_ c)
                3 (begun w)) as Hframe.
  rewrite Hpost in Hframe. destruct Hframe as (Hst & Htx & Hus & His).
  cbn in Hst, Htx, Hus, His.
  unfold bill_customer. fold (amountCents_of c). rewrite Hamount.
  fold (transfer_of env start end_ c).
  unfold try_finally, try_catch. rewrite run_bind.
  rewrite (pg_begin w Htxn).
  rewrite run_bind, Hpost.
  destruct r as [[location |] | e].
  - step. step. rewrite pg_insert_invoice.
    destruct (pg_int (amountCents_of c)) as [amount |];
      [| by rewrite run_bind, pg_rollback].
    step. step. rewrite pg_claim_usage. step. rewrite pg_commit. step.
    destruct w2 as [st2 tx2 us2 is2 ck2 tc2 nc2]. cbn in *. subst.
    reflexivity.
  - step. cbv [throw]. by rewrite run_bind, pg_rollback.
  - by rewrite run_bind, pg_rollback.
Qed.

Lemma bill_customer_step (start end_ : Z) (c : BillableRow)
  (results : Results) (w : World) :
  txn w = None ->
  exists results' w',
    bill_customer rt env (pg_query rt) start end_ c results w
    = (Ok results', w')
    /\ txn w' = None
    /\ customer_step start end_ c (results, w) (results', w').
Proof.
  intros Htxn.
  destruct (js_le0 (amountCents_of c)) eqn:Hamount.
  { rewrite bill_customer_skips by done.
    eexists _, _. split; [reflexivity |]. split; [done |]. by constructor. }
  destruct (dwollaPost rt env "transfers" (transfer_of env start end_ c) 3
              (begun w)) as [r w2] eqn:Hpost.
  rewrite (bill_customer_run start end_ c results w w2 r Htxn Hamount Hpost).
  pose proof (frames_dwollaPost rt env "transfers" (transfer_of env start end_ c)
                3 (begun w)) as Hframe.
  rewrite Hpost in Hframe. destruct Hframe as (Hst & Htx & Hus & His).
  cbn in Hst, Htx, Hus, His.
  assert (Hfailed : forall e,
    exists results' w',
      (Ok (count_failed (row_crm_contact_id c) e results), set_txn None w2)
      = (Ok results', w')
      /\ txn w' = None
      /\ customer_step start end_ c (results, w) (results', w')).
  { intros e. eexists _, _. split; [reflexivity |]. split; [done |].
    constructor; [done |]. by repeat split. }
  destruct r as [[location |] | e]; [| apply Hfailed ..].
  destruct (pg_int (amountCents_of c)) as [amount |] eqn:Hint;
    [| apply Hfailed].
  eexists _, _. split; [reflexivity |]. split; [done |].
  by apply (step_billed start end_ c results w location amount (clock w)).
Qed.

Lemma bill_customers_steps (start end_ : Z) (rows : list BillableRow)
  (results : Results) (w : World) :
  txn w = None ->
  exists results' w',
    bill_customers rt env (pg_query rt) start end_ rows results w
    = (Ok results', w')
    /\ txn w' = None
    /\ billing_steps start end_ rows (results, w) (results', w').
Proof.
  revert results w. induction rows as [| c rest IH]; intros results w Htxn.
  { eexists _, _. split; [reflexivity |]. split; [done |]. constructor. }
  destruct (bill_customer_step start end_ c results w Htxn)
    as (r1 & w1 & Hrun & Htxn1 & Hstep).
  destruct (IH r1 w1 Htxn1) as (r2 & w2 & Hrest & Htxn2 & Hsteps).
  exists r2, w2. split; [| split; [done |]].
  - cbn [bill_customers]. by rewrite run_bind, Hrun.
  - by econstructor.
Qed.

Lemma pg_select_billable (start end_ : Z) (w : World) :
  txn w = None ->
  pg_query rt BillableRow (SelectBillable start end_) w
  = (Ok (select_billable start end_ (store w)), w).
Proof.
  intros Htxn.
  change (pg_query rt BillableRow (SelectBillable start end_) w)
    with (Ok (select_billable start end_ (current w)), w).
  unfold current. by rewrite Htxn.
Qed.

Lemma bill_week_run (req : BillRequest) (w : World) :
  txn w = None ->
  bill_authorization req = Some "Bearer admin" ->
  let end_ := startOfWeek rt (clock w) in
  let start := minusOneWeek rt end_ in
  let rows := select_billable start end_ (store w) in
  exists results w',
    bill_week rt env (pg_query rt) req w
    = (Ok (mkResponse 200 (BillingSummary start end_ results)), w')
    /\ txn w' = None
    /\ billing_steps start end_ rows (initial_results (length rows), w)
         (results, w').
Proof.
  intros Htxn Hauth end_ start rows.
  destruct (bill_customers_steps start end_ rows
              (initial_results (length rows)) w Htxn)
    as (results & w' & Hrun & Htxn' & Hsteps).
  exists results, w'. split; [| done].
  unfold bill_week, try_catch.
  rewrite bool_decide_eq_true_2 by done. cbn [negb].
  rewrite run_bind. cbn [get_world]. cbv beta iota zeta.
  rewrite run_bind.
  rewrite pg_select_billable by done.
  cbv beta iota. fold end_ start. rewrite run_bind.
  fold rows. by rewrite Hrun.
Qed.


Lemma bill_week_unauthorized (req : BillRequest) (w : World) :
  bill_authorization req <> Some "Bearer admin" ->
  bill_week rt env (pg_query rt) req w = (Ok (sendStatus 401), w).
Proof.
  intros Hauth. unfold bill_week, try_catch.
  by rewrite bool_decide_eq_false_2.
Qed.

(** The amount an [int] column took is the rounded amount itself. *)
Lemma pg_int_Math_round (n : JsNum) (amount : Z) :
  pg_int (Math_round n) = Some amount -> Math_round n = Fin (inject_Z amount).
Proof.
  destruct n as [| neg | q]; try discriminate.
  unfold Math_round, pg_int.
  destruct (Qeq_bool _ _); [| discriminate].
  rewrite Qfloor_Z. by intros [= <-].
Qed.


Lemma amount_positive (n : JsNum) (amount : Z) :
  js_le0 n = false -> n = Fin (inject_Z amount) -> 0 < amount.
Proof.
  intros Hle ->. cbn in Hle.
  destruct (Z_lt_le_dec 0 amount) as [| Hneg]; [done |].
  assert (Hq : Qle_bool (inject_Z amount) 0 = true).
  { apply Qle_bool_iff. change 0%Q with (inject_Z 0). by rewrite <- Zle_Qle. }
  congruence.
Qed.


Lemma billing_steps_frame (start end_ : Z) (rows : list BillableRow)
  (x z : Results * World) :
  billing_steps start end_ rows x z ->
  txn z.2 = txn x.2
  /\ usage_ledger_id_seq z.2 = usage_ledger_id_seq x.2
  /\ customers (store z.2) = customers (store x.2)
  /\ invoices_id_seq x.2 <= invoices_id_seq z.2.
Proof.
  induction 1 as [x | c rest x y z Hstep _ IH]; [repeat split; lia |].
  destruct IH as (Htx & Hus & Hcs & Hseq).
  inversion Hstep as [results w Hamt | results w e w' Hamt Hsame
                     | results w location amount now w' Hamt Hint Hst Htx' Hus'
                         His']; subst; cbn [fst snd] in *.
  - done.
  - destruct Hsame as (Hst1 & Htx1 & Hus1 & His1).
    repeat split; try congruence; try lia.
  - repeat split; try congruence; try lia.
    rewrite Hcs, Hst. reflexivity.
Qed.

Lemma claimed_after_trans (s0 s1 s2 : Z) (r1 r2 r3 : UsageRow) :
  s0 <= s1 -> s1 <= s2 ->
  claimed_after s0 s1 r1 r2 -> claimed_after s1 s2 r2 r3 ->
  claimed_after s0 s2 r1 r3.
Proof.
  intros H01 H12 [-> | (Hnone & j & Hj & ->)] [-> | (Hnone' & j' & Hj' & ->)].
  - by left.
  - right. split; [done |]. exists j'. split; [lia | done].
  - right. split; [done |]. exists j. split; [lia | done].
  - discriminate Hnone'.
Qed.

Lemma qualifies_unbilled (start end_ : Z) (cid : string) (r : UsageRow) :
  qualifies start end_ cid r = true -> invoice_id r = None.
Proof.
  unfold qualifies, unbilled. intros [_ Hu]%andb_true_iff.
  by destruct (invoice_id r).
Qed.

Lemma billing_steps_ledger (start end_ : Z) (rows : list BillableRow)
  (x z : Results * World) :
  billing_steps start end_ rows x z ->
  Forall2 (claimed_after (invoices_id_seq x.2) (invoices_id_seq z.2))
    (usage_ledger (store x.2)) (usage_ledger (store z.2)).
Proof.
  induction 1 as [x | c rest x y z Hstep Hsteps IH].
  { apply Forall_Forall2_diag, Forall_forall. intros r _. by left. }
  pose proof (billing_steps_frame _ _ _ _ _ Hsteps) as (_ & _ & _ & Hseq).
  inversion Hstep as [results w Hamt | results w e w' Hamt Hsame
                     | results w location amount now w' Hamt Hint Hst Htx' Hus'
                         His']; subst; cbn [fst snd] in *.
  - done.
  - destruct Hsame as (Hst1 & Htx1 & Hus1 & His1).
    by rewrite <- Hst1, <- His1.
  - assert (Hle : invoices_id_seq w <= invoices_id_seq w') by lia.
    eapply (Forall2_trans _ _ _ _ _ _
              (fun r1 r2 r3 =>
                 claimed_after_trans (invoices_id_seq w) (invoices_id_seq w')
                   (invoices_id_seq z.2) r1 r2 r3 Hle Hseq)); [| exact IH].
    rewrite Hst. cbn [usage_ledger claim_usage].
    apply Forall2_fmap_r, Forall_Forall2_diag, Forall_forall.
    intros r _. cbn.
    destruct (qualifies start end_ (row_crm_contact_id c) r) eqn:Hq;
      [| by left].
    right. split; [by eapply qualifies_unbilled |].
    exists (invoices_id_seq w + 1). split; [lia | done].
Qed.

Lemma Forall2_elem_of_l {A B} (R : A -> B -> Prop) (l : list A) (k : list B)
  (a : A) :
  Forall2 R l k -> a ∈ l -> exists b, b ∈ k /\ R a b.
Proof.
  intros HR [n Hn]%list_elem_of_lookup.
  destruct (Forall2_lookup_l _ _ _ _ _ HR Hn) as (b & Hb & Hab).
  exists b. split; [by eapply list_elem_of_lookup_2 | done].
Qed.

Lemma Forall2_elem_of_r {A B} (R : A -> B -> Prop) (l : list A) (k : list B)
  (b : B) :
  Forall2 R l k -> b ∈ k -> exists a, a ∈ l /\ R a b.
Proof.
  intros HR [n Hn]%list_elem_of_lookup.
  destruct (Forall2_lookup_r _ _ _ _ _ HR Hn) as (a & Ha & Hab).
  exists a. split; [by eapply list_elem_of_lookup_2 | done].
Qed.



Lemma qualifies_customer (start end_ : Z) (cid : string) (r : UsageRow) :
  qualifies start end_ cid r = true -> usage_crm_contact_id r = cid.
Proof.
  unfold qualifies. intros [[Hc _]%andb_true_iff _]%andb_true_iff.
  by apply String.eqb_eq.
Qed.

Lemma claim_usage_other (start end_ : Z) (id : Z) (cid cid' : string)
  (d : Db) (r : UsageRow) :
  cid' <> cid ->
  usage_crm_contact_id r = cid' ->
  r ∈ usage_ledger (claim_usage id cid start end_ d) <-> r ∈ usage_ledger d.
Proof.
  intros Hne Hr. cbn [usage_ledger claim_usage]. rewrite list_elem_of_fmap.
  assert (Hnq : forall r0, usage_crm_contact_id r0 = cid' ->
                           qualifies start end_ cid r0 = false).
  { intros r0 Hr0. apply not_true_is_false.
    intros Hq%qualifies_customer. congruence. }
  split.
  - intros (r0 & -> & Hr0).
    destruct (qualifies start end_ cid r0) eqn:Hq.
    + apply qualifies_customer in Hq. cbn in Hr. congruence.
    + done.
  - intros Hin. exists r. by rewrite (Hnq r Hr).
Qed.

Lemma billing_steps_outcomes (start end_ : Z) (rows : list BillableRow)
  (x z : Results * World) :
  billing_steps start end_ rows x z ->
  NoDup (row_crm_contact_id <$> rows) ->
  references_in_sequence (invoices_id_seq x.2) (usage_ledger (store x.2)) ->
  exists outcomes,
    Forall2 (row_outcome start end_ (invoices_id_seq x.2)
               (invoices_id_seq z.2)) rows outcomes
    /\ invoices (store z.2)
       = (invoices (store x.2) ++ omap outcome_invoice outcomes)%list
    /\ errors z.1 = (errors x.1 ++ omap outcome_error outcomes)%list
    /\ (successful z.1
        = successful x.1 + length (omap outcome_invoice outcomes))%nat
    /\ (failed z.1 = failed x.1 + length (omap outcome_error outcomes))%nat
    /\ (skipped z.1
        = skipped x.1
          + length (List.filter (fun c => js_le0 (amountCents_of c)) rows))%nat
    /\ total z.1 = total x.1
    /\ Forall (claims_exactly start end_ (usage_ledger (store x.2))
                 (usage_ledger (store z.2)))
         (omap outcome_invoice outcomes).
Proof.
  induction 1 as [x | c rest x y z Hstep Hsteps IH]; intros Hnodup Hrefs.
  { exists []. cbn. rewrite !app_nil_r.
    repeat split; try lia; constructor. }
  apply NoDup_cons in Hnodup as [Hc Hnodup].
  pose proof (billing_steps_frame _ _ _ _ _ Hsteps) as (_ & _ & _ & Hseq).
  pose proof (billing_steps_ledger _ _ _ _ _ Hsteps) as Hledger.
  inversion Hstep as [results w Hamt | results w e w' Hamt Hsame
                     | results w location amount now w' Hamt Hint Hst Htx' Hus'
                         His']; subst; cbn [fst snd] in *;
    cbn [List.filter]; rewrite Hamt.
  - destruct (IH Hnodup Hrefs)
      as (os & Hos & Hinv & Herr & Hsucc & Hfail & Hskip & Htot & Hcl).
    exists (WasSkipped :: os). cbn in *.
    repeat split; try done; try lia. by constructor.
  - destruct Hsame as (Hst1 & Htx1 & Hus1 & His1).
    rewrite Hst1, His1 in IH.
    destruct (IH Hnodup Hrefs)
      as (os & Hos & Hinv & Herr & Hsucc & Hfail & Hskip & Htot & Hcl).
    exists (HasFailed (row_crm_contact_id c) (message e) :: os).
    rewrite His1, Hst1 in *. cbn in *.
    repeat split; try done; try lia.
    + by constructor.
    + by rewrite Herr, <- app_assoc.
  - set (id0 := invoices_id_seq w + 1) in *.
    set (cid := row_crm_contact_id c) in *.
    assert (Hy : usage_ledger (store w')
                 = (fun r => if qualifies start end_ cid r
                             then claim id0 r else r) <$> usage_ledger (store w)).
    { by rewrite Hst. }
    assert (Hrefs' : references_in_sequence (invoices_id_seq w')
                       (usage_ledger (store w'))).
    { rewrite Hy. apply Forall_fmap, Forall_forall. intros r Hr j. cbn.
      unfold references_in_sequence in Hrefs.
      rewrite Forall_forall in Hrefs. specialize (Hrefs r Hr).
      destruct (qualifies start end_ cid r).
      - cbn. intros [= <-]. lia.
      - intros Hj. specialize (Hrefs j Hj). lia. }
    destruct (IH Hnodup Hrefs')
      as (os & Hos & Hinv & Herr & Hsucc & Hfail & Hskip & Htot & Hcl).
    set (i0 := mkInvoice id0 cid start end_ amount location "initiated" now now).
    exists (WasBilled i0 :: os). cbn [omap list_omap outcome_invoice outcome_error].
    split; [| split; [| split; [| split; [| split; [| split; [| split]]]]]].
    + constructor.
      * unfold row_outcome, invoice_of_row. cbn.
        repeat split; try done; try lia.
        by apply pg_int_Math_round.
      * eapply Forall2_impl; [exact Hos |].
        intros c' [| cid' msg | i]; cbn; try done.
        intros (Hid & Hrest). split; [lia | exact Hrest].
    + rewrite Hinv, Hst. cbn [invoices claim_usage insert_invoice].
      by rewrite <- app_assoc.
    + by rewrite Herr.
    + rewrite Hsucc. cbn. lia.
    + rewrite Hfail. cbn. lia.
    + rewrite Hskip. cbn. lia.
    + by rewrite Htot.
    + constructor.
      * (* the invoice of this customer *)
        intros r'. cbn [inv_id inv_crm_contact_id i0]. split.
        -- intros [Hin Hid].
           destruct (Forall2_elem_of_r _ _ _ _ Hledger Hin)
             as (r1 & Hr1 & [-> | (_ & j & Hj & ->)]);
             [| cbn in Hid; injection Hid as ->; lia].
           rewrite Hy in Hr1. apply list_elem_of_fmap in Hr1 as (r0 & -> & Hr0).
           destruct (qualifies start end_ cid r0) eqn:Hq; [by exists r0 |].
           unfold references_in_sequence in Hrefs.
           rewrite Forall_forall in Hrefs.
           specialize (Hrefs r0 Hr0 id0 Hid). lia.
        -- intros (r & Hr & Hq & ->). split; [| done].
           assert (Hin : claim id0 r ∈ usage_ledger (store w')).
           { rewrite Hy. apply list_elem_of_fmap. exists r. by rewrite Hq. }
           destruct (Forall2_elem_of_l _ _ _ _ Hledger Hin)
             as (r2 & Hr2 & [-> | (Hnone & _)]); [done | discriminate Hnone].
      * (* the invoices of the customers after it *)
        apply Forall_forall. intros i Hi.
        rewrite Forall_forall in Hcl. specialize (Hcl i Hi).
        apply list_elem_of_omap in Hi as (o & Ho & Hoi).
        destruct o as [| cid' msg | i']; try discriminate.
        injection Hoi as ->.
        destruct (Forall2_elem_of_r _ _ _ _ Hos Ho) as (c' & Hc' & Hrow).
        destruct Hrow as (_ & Hcid & _).
        assert (Hne : inv_crm_contact_id i <> cid).
        { intros Heq. apply Hc. rewrite <- Heq, Hcid.
          by apply list_elem_of_fmap_2. }
        intros r'. rewrite (Hcl r'). split.
        -- intros (r & Hr & Hq & ->). exists r. split; [| done].
           rewrite Hst in Hr.
           by apply (claim_usage_other start end_ id0 cid
                       (inv_crm_contact_id i)
                       (insert_invoice id0 cid start end_ amount location now
                          (store w)) r Hne (qualifies_customer _ _ _ _ Hq)) in Hr.
        -- intros (r & Hr & Hq & ->). exists r. split; [| done].
           rewrite Hst.
           by apply (claim_usage_other start end_ id0 cid
                       (inv_crm_contact_id i)
                       (insert_invoice id0 cid start end_ amount location now
                          (store w)) r Hne (qualifies_customer _ _ _ _ Hq)).
Qed.

Lemma billable_row_spec (start end_ : Z) (d : Db) (kc : string * Customer)
  (c : BillableRow) :
  billable_row start end_ d kc = Some c ->
  row_crm_contact_id c = kc.1
  /\ status kc.2 = Some "active"
  /\ dwolla_funding_href kc.2 <> None
  /\ row_dwolla_funding_href c = dwolla_funding_href kc.2
  /\ row_units c = usage_total start end_ kc.1 (usage_ledger d)
  /\ pg_gt0 (row_units c) = true.
Proof.
  unfold billable_row.
  destruct (opt_str_eqb (status kc.2) "active") eqn:Hst; [| done].
  destruct (is_some (dwolla_funding_href kc.2)) eqn:Hf; [| done].
  destruct (pg_gt0 _) eqn:Hgt; [| done].
  intros [= <-]. cbn. repeat split; try done.
  - unfold opt_str_eqb in Hst. destruct (status kc.2) as [st |]; [| done].
    by apply String.eqb_eq in Hst as ->.
  - by destruct (dwolla_funding_href kc.2).
Qed.

Lemma select_billable_qualifying (start end_ : Z) (d : Db) :
  Forall (qualifying_row start end_ d) (select_billable start end_ d).
Proof.
  apply Forall_forall. intros c ([cid cust] & Hin & Hrow)%list_elem_of_omap.
  apply elem_of_map_to_list in Hin.
  destruct (billable_row_spec _ _ _ _ _ Hrow) as (Hcid & Hst & Hf & Hfr & Hu & Hgt).
  cbn in *. exists cust. rewrite Hcid. by repeat split.
Qed.

Lemma select_billable_complete (start end_ : Z) (d : Db) (cid : string)
  (cust : Customer) :
  customers d !! cid = Some cust ->
  status cust = Some "active" ->
  dwolla_funding_href cust <> None ->
  pg_gt0 (usage_total start end_ cid (usage_ledger d)) = true ->
  exists c, c ∈ select_billable start end_ d /\ row_crm_contact_id c = cid.
Proof.
  intros Hc Hst Hf Hgt.
  exists (mkBillableRow cid (name cust) (email cust) (dwolla_funding_href cust)
            (usage_total start end_ cid (usage_ledger d))).
  split; [| done]. apply list_elem_of_omap. exists (cid, cust).
  split; [by apply elem_of_map_to_list |].
  unfold billable_row. cbn. rewrite Hst, Hgt. cbn.
  by destruct (dwolla_funding_href cust).
Qed.

Lemma select_billable_NoDup (start end_ : Z) (d : Db) :
  NoDup (row_crm_contact_id <$> select_billable start end_ d).
Proof.
  unfold select_billable.
  apply (sublist_NoDup _ (map_to_list (customers d)).*1);
    [apply (NoDup_fst_map_to_list (customers d)) |].
  induction (map_to_list (customers d)) as [| kc l IH]; [constructor |].
  cbn [omap list_omap]. destruct (billable_row start end_ d kc) as [c |] eqn:Hc.
  - destruct (billable_row_spec _ _ _ _ _ Hc) as (Hcid & _).
    rewrite !fmap_cons, Hcid. by constructor.
  - rewrite fmap_cons. by constructor.
Qed.



(** C2.  When the transfer call throws for a customer, the customer's
    transaction is rolled back: no table changes and no invoice
    identifier is drawn, so the customer's usage keeps its null
    [invoice_id]; the customer is counted under [failed] with the error
    message, and the loop goes on with the remaining customers. *)
Theorem transfer_failure_rolls_back (start end_ : Z) (c : BillableRow)
  (rest : list BillableRow) (results : Results) (w w2 : World) (e : Error) :
  txn w = None ->
  js_le0 (amountCents_of c) = false ->
  dwollaPost rt env "transfers" (transfer_of env start end_ c) 3
    (begun w) = (Throw e, w2) ->
  let w' := set_txn None w2 in
  let results' := count_failed (row_crm_contact_id c) e results in
  bill_customer rt env (pg_query rt) start end_ c results w = (Ok results', w')
  /\ store w' = store w
  /\ txn w' = None
  /\ invoices_id_seq w' = invoices_id_seq w
  /\ failed results' = S (failed results)
  /\ successful results' = successful results
  /\ errors results'
     = (errors results ++ [(row_crm_contact_id c, message e)])%list
  /\ bill_customers rt env (pg_query rt) start end_ (c :: rest) results w
     = bill_customers rt env (pg_query rt) start end_ rest results' w'.
Proof.
  intros Htxn Hamount Hpost w' results'.
  pose proof (bill_customer_run start end_ c results w w2 (Throw e) Htxn
                Hamount Hpost) as Hrun.
  pose proof (frames_dwollaPost rt env "transfers"
                (transfer_of env start end_ c) 3 (begun w))
    as Hframe.
  rewrite Hpost in Hframe. destruct Hframe as (Hst & _ & _ & His).
  repeat split; try done.
  cbn [bill_customers]. by rewrite run_bind, Hrun.
Qed.

End Billing.

(** ** Histories of the service *)

Section Histories.
Variable rt : Runtime.
Variable env : ProcessEnv.

Lemma Forall2_diag {A} (R : A -> A -> Prop) (l : list A) :
  (forall a, R a a) -> Forall2 R l l.
Proof. intros HR. apply Forall_Forall2_diag, Forall_forall. auto. Qed.

Lemma evolves_same (w w' : World) :
  invoices_id_seq w' = invoices_id_seq w ->
  usage_ledger (store w') = usage_ledger (store w) ->
  Forall2 (fun i i' => inv_id i' = inv_id i) (invoices (store w))
    (invoices (store w')) ->
  evolves w w'.
Proof.
  intros Hseq Hl Hi. split; [lia |]. split.
  - exists (usage_ledger (store w)), []. rewrite app_nil_r. split; [done |].
    apply Forall2_diag. intros r. by left.
  - exists (invoices (store w')), []. rewrite app_nil_r. by repeat split.
Qed.

Lemma evolves_refl (w : World) : evolves w w.
Proof. apply evolves_same; try done. by apply Forall2_diag. Qed.

Lemma evolves_trans (w1 w2 w3 : World) :
  evolves w1 w2 -> evolves w2 w3 -> evolves w1 w3.
Proof.
  intros (H12 & (k1 & a1 & Hl1 & Hk1) & (ki1 & n1 & Hi1 & Hki1 & Hn1))
         (H23 & (k2 & a2 & Hl2 & Hk2) & (ki2 & n2 & Hi2 & Hki2 & Hn2)).
  split; [lia |]. split.
  - rewrite Hl1 in Hk2.
    apply Forall2_app_inv_l in Hk2 as (k2a & k2b & Hka & Hkb & ->).
    exists k2a, (k2b ++ a2)%list. split; [by rewrite Hl2, app_assoc |].
    eapply Forall2_trans; [| exact Hk1 | exact Hka].
    intros r1 r2 r3. by apply claimed_after_trans.
  - rewrite Hi1 in Hki2.
    apply Forall2_app_inv_l in Hki2 as (kia & kib & Hkia & Hkib & ->).
    exists kia, (kib ++ n2)%list. split; [by rewrite Hi2, app_assoc |].
    split.
    + eapply Forall2_trans; [| exact Hki1 | exact Hkia].
      intros i1 i2 i3. cbn. congruence.
    + apply Forall_app. split.
      * apply Forall_forall. intros i Hi.
        destruct (Forall2_elem_of_r _ _ _ _ Hkib Hi) as (i0 & Hi0 & Heq).
        rewrite Forall_forall in Hn1. specialize (Hn1 i0 Hi0). lia.
      * eapply Forall_impl; [exact Hn2 |]. intros i. cbn. lia.
Qed.

Lemma usage_recorded_effect (req : GhlRequest) (w : World) :
  txn w = None ->
  let w' := (createGhlUsageHandler rt env (pg_query rt) req w).2 in
  txn w' = None
  /\ invoices_id_seq w' = invoices_id_seq w
  /\ invoices (store w') = invoices (store w)
  /\ exists added,
       usage_ledger (store w') = (usage_ledger (store w) ++ added)%list
       /\ Forall (fun r => invoice_id r = None) added.
Proof.
  intros Htxn.
  assert (Hsame : txn w = None
                  /\ invoices_id_seq w = invoices_id_seq w
                  /\ invoices (store w) = invoices (store w)
                  /\ exists added,
                       usage_ledger (store w)
                       = (usage_ledger (store w) ++ added)%list
                       /\ Forall (fun r => invoice_id r = None) added).
  { repeat split; try done. exists []. by rewrite app_nil_r. }
  destruct (decide (ghl_authorization req
                    = Some ("Bearer " ++ template (GHL_BEARER env))))
    as [Hauth | Hauth].
  2:{ unfold createGhlUsageHandler, try_catch.
      by rewrite bool_decide_eq_false_2. }
  destruct (validateUsageWebhook rt (JObject (ghl_body req))) eqn:Hval.
  2:{ unfold createGhlUsageHandler, try_catch.
      rewrite bool_decide_eq_true_2 by done. cbv zeta.
      by rewrite Hval. }
  apply validateUsageWebhook_spec in Hval.
  destruct (well_formed_keys rt _ Hval) as (cid & k & Hcid & Hk).
  rewrite (createGhlUsageHandler_run rt env req w cid k Hauth Hval Hcid Hk Htxn).
  cbv zeta. cbn [snd txn invoices_id_seq store].
  unfold insert_usage. cbn [usage_ledger upsert_customer invoices].
  destruct (key_taken k (usage_ledger (store w))); cbn [fst].
  - repeat split; try done. exists []. by rewrite app_nil_r.
  - repeat split; try done. eexists. split; [reflexivity |].
    by repeat constructor.
Qed.

Lemma notification_delivered_effect (req : DwollaRequest) (w : World) :
  txn w = None ->
  let w' := (createDwollaWebhookHandler rt env (pg_query rt) req w).2 in
  txn w' = None
  /\ invoices_id_seq w' = invoices_id_seq w
  /\ usage_ledger (store w') = usage_ledger (store w)
  /\ Forall2 (fun i i' => inv_id i' = inv_id i) (invoices (store w))
       (invoices (store w')).
Proof.
  intros Htxn w'.
  destruct (createDwollaWebhookHandler rt env (pg_query rt) req w)
    as [r w1] eqn:Hrun. subst w'. cbn [snd].
  destruct (notification_moves_matching_invoices rt env req w r w1 Htxn Hrun)
    as (_ & _ & Hu & (target & href & _ & Hsteps) & _).
  assert (Hframe : txn w1 = None /\ invoices_id_seq w1 = invoices_id_seq w).
  { rewrite createDwollaWebhookHandler_cases in Hrun.
    assert (Hupd : forall target v,
              truthy v = true ->
              txn (pg_query rt _ (UpdateInvoiceStatus target v) w).2 = None
              /\ invoices_id_seq
                   (pg_query rt _ (UpdateInvoiceStatus target v) w).2
                 = invoices_id_seq w).
    { intros tg v [h Hh]%(truthy_pg_text rt).
      by rewrite (pg_update_invoice_status_idle rt _ _ h w). }
    destruct (verifyDwollaWebhookSignature _ _ _) as [[] | e];
      [| by injection Hrun as _ <- ..].
    destruct (JSON_parse rt (raw_body req)) as [evt |];
      [| by injection Hrun as _ <-].
    destruct (negb (truthy (event_href evt)) || _) eqn:Hfalsy;
      [by injection Hrun as _ <- |].
    apply orb_false_iff in Hfalsy as [Hhref%negb_false_iff _].
    destruct (is_topic _ "transfer_completed");
      [injection Hrun as _ <-; by apply Hupd |].
    destruct (is_topic _ "transfer_failed");
      [injection Hrun as _ <-; by apply Hupd |].
    by injection Hrun as _ <-. }
  destruct Hframe as [Htx Hseq]. repeat split; try done.
  eapply Forall2_impl; [exact Hsteps |].
  intros i i' [|]; done.
Qed.

Lemma billing_run_effect (req : BillRequest) (w : World) :
  ids_in_sequence w ->
  let w' := (bill_week rt env (pg_query rt) req w).2 in
  ids_in_sequence w' /\ evolves w w'.
Proof.
  intros (Htxn & Hinvs & Hrefs) w'.
  destruct (decide (bill_authorization req = Some "Bearer admin"))
    as [Hauth | Hauth].
  2:{ subst w'. rewrite bill_week_unauthorized by done.
      split; [done | apply evolves_refl]. }
  destruct (bill_week_run rt env req w Htxn Hauth)
    as (results & w1 & Hrun & Htxn1 & Hsteps).
  subst w'. rewrite Hrun. cbn [snd].
  pose proof (billing_steps_frame _ _ _ _ _ Hsteps) as (_ & _ & _ & Hseq).
  pose proof (billing_steps_ledger _ _ _ _ _ Hsteps) as Hledger.
  destruct (billing_steps_outcomes _ _ _ _ _ Hsteps
              (select_billable_NoDup _ _ _) Hrefs)
    as (os & Hos & Hinv & _).
  cbn [fst snd] in *.
  assert (Hnew : Forall (fun i => invoices_id_seq w < inv_id i
                                  <= invoices_id_seq w1)
                   (omap outcome_invoice os)).
  { apply Forall_forall. intros i (o & Ho & Hoi)%list_elem_of_omap.
    destruct o as [| cid msg | i']; try discriminate. injection Hoi as ->.
    destruct (Forall2_elem_of_r _ _ _ _ Hos Ho) as (c & _ & Hrow).
    by destruct Hrow as (Hid & _). }
  split.
  - split; [done |]. split.
    + rewrite Hinv. apply Forall_app. split.
      * eapply Forall_impl; [exact Hinvs |]. intros i. cbn. lia.
      * eapply Forall_impl; [exact Hnew |]. intros i. cbn. lia.
    + apply Forall_forall. intros r' Hr' j Hj.
      destruct (Forall2_elem_of_r _ _ _ _ Hledger Hr')
        as (r & Hr & [-> | (_ & j' & Hj' & ->)]).
      * unfold references_in_sequence in Hrefs.
        rewrite Forall_forall in Hrefs. specialize (Hrefs r Hr j Hj). lia.
      * cbn in Hj. injection Hj as <-. lia.
  - split; [done |]. split.
    + exists (usage_ledger (store w1)), []. by rewrite app_nil_r.
    + exists (invoices (store w)), (omap outcome_invoice os).
      split; [done |]. split; [by apply Forall2_diag |].
      eapply Forall_impl; [exact Hnew |]. intros i. cbn. lia.
Qed.

Lemma service_step_invariant (w w' : World) :
  ids_in_sequence w ->
  service_step rt env w w' ->
  ids_in_sequence w' /\ evolves w w'.
Proof.
  intros Hw Hstep. pose proof Hw as (Htxn & Hinvs & Hrefs).
  destruct Hstep as [req | req | req | cs | t].
  - destruct (usage_recorded_effect req w Htxn)
      as (Htx & Hseq & Hinv & added & Hl & Hadded).
    split.
    + split; [done |]. rewrite Hseq, Hinv, Hl. split; [done |].
      apply Forall_app. split; [done |].
      eapply Forall_impl; [exact Hadded |]. intros r Hr j. congruence.
    + split; [lia |]. split.
      * exists (usage_ledger (store w)), added. split; [done |].
        apply Forall2_diag. intros r. by left.
      * exists (invoices (store w)), []. rewrite app_nil_r, Hinv.
        split; [done |]. split; [by apply Forall2_diag | constructor].
  - by apply billing_run_effect.
  - destruct (notification_delivered_effect req w Htxn)
      as (Htx & Hseq & Hl & Hinv).
    split.
    + split; [done |]. rewrite Hseq, Hl. split; [| done].
      apply Forall_forall. intros i' Hi'.
      destruct (Forall2_elem_of_r _ _ _ _ Hinv Hi') as (i & Hi & ->).
      rewrite Forall_forall in Hinvs. by apply Hinvs.
    + by apply evolves_same.
  - split; [done |]. apply evolves_same; try done. by apply Forall2_diag.
  - split; [done |]. apply evolves_same; try done. by apply Forall2_diag.
Qed.

Lemma history_invariant (w w' : World) :
  ids_in_sequence w ->
  rtc (service_step rt env) w w' ->
  ids_in_sequence w' /\ evolves w w'.
Proof.
  intros Hw Hrtc. induction Hrtc as [w | w w1 w2 Hstep _ IH].
  - split; [done | apply evolves_refl].
  - destruct (service_step_invariant w w1 Hw Hstep) as [Hw1 He1].
    destruct (IH Hw1) as [Hw2 He2].
    split; [done | by eapply evolves_trans].
Qed.

Lemma same_id_filter (i : Z) (l k : list Invoice) :
  Forall2 (fun a b => inv_id b = inv_id a) l k ->
  length (List.filter (fun inv => inv_id inv =? i) k)
  = length (List.filter (fun inv => inv_id inv =? i) l).
Proof.
  induction 1 as [| a b l k Hab _ IH]; [done |].
  cbn [List.filter]. rewrite Hab.
  destruct (inv_id a =? i); cbn [length]; by rewrite IH.
Qed.

Lemma filter_delete {A} (f : A -> bool) (l : list A) (k : nat) (a : A) :
  l !! k = Some a -> f a = false ->
  List.filter f (delete k l) = List.filter f l.
Proof.
  revert k. induction l as [| b l IH]; intros [| k] Hk Hf; try done.
  - injection Hk as ->. cbn. by rewrite Hf.
  - change (delete (S k) (b :: l)) with (b :: delete k l).
    cbn [List.filter]. by rewrite (IH k).
Qed.

(** A claimed usage row adds nothing to the aggregate of the billing
    query, whatever the window and the customer. *)
Lemma usage_total_delete (start end_ : Z) (cid : string) (l : list UsageRow)
  (k : nat) (r : UsageRow) (i : Z) :
  l !! k = Some r -> invoice_id r = Some i ->
  usage_total start end_ cid (delete k l) = usage_total start end_ cid l.
Proof.
  intros Hk Hi. unfold usage_total.
  rewrite (filter_delete _ l k r Hk); [done |].
  unfold qualifies, unbilled. rewrite Hi. by rewrite andb_false_r.
Qed.

Lemma select_billable_without (start end_ : Z) (d : Db) (k : nat)
  (r : UsageRow) (i : Z) :
  usage_ledger d !! k = Some r -> invoice_id r = Some i ->
  select_billable start end_ (without_usage k d)
  = select_billable start end_ d.
Proof.
  intros Hk Hi. unfold select_billable. cbn [customers without_usage].
  induction (map_to_list (customers d)) as [| kc l IH]; [done |].
  cbn [omap list_omap]. rewrite IH.
  unfold billable_row.
  change (usage_ledger (without_usage k d)) with (delete k (usage_ledger d)).
  by rewrite (usage_total_delete start end_ kc.1 _ k r i Hk Hi).
Qed.

(** A run after a usage row was claimed: the row stays as it is, and the
    invoices the run adds carry other identifiers and amounts computed
    without the row. *)
Lemma billing_run_spares_claimed (req : BillRequest) (w : World) (k : nat)
  (r : UsageRow) (i : Z) :
  ids_in_sequence w ->
  usage_ledger (store w) !! k = Some r ->
  invoice_id r = Some i ->
  let end_ := startOfWeek rt (clock w) in
  let start := minusOneWeek rt end_ in
  let w' := (bill_week rt env (pg_query rt) req w).2 in
  usage_ledger (store w') !! k = Some r
  /\ exists new,
       invoices (store w') = (invoices (store w) ++ new)%list
       /\ Forall (fun i' =>
                    inv_id i' <> i
                    /\ amountCents
                         (usage_total start end_ (inv_crm_contact_id i')
                            (usage_ledger (without_usage k (store w))))
                       = Fin (inject_Z (amount_cents i')))
            new.
Proof.
  intros (Htxn & Hinvs & Hrefs) Hk Hi end_ start w'.
  destruct (decide (bill_authorization req = Some "Bearer admin"))
    as [Hauth | Hauth].
  2:{ subst w'. rewrite bill_week_unauthorized by done. cbn [snd].
      split; [done |]. exists []. by rewrite app_nil_r. }
  destruct (bill_week_run rt env req w Htxn Hauth)
    as (results & w1 & Hrun & Htxn1 & Hsteps).
  fold end_ start in Hrun, Hsteps.
  subst w'. rewrite Hrun. cbn [snd].
  pose proof (billing_steps_ledger _ _ _ _ _ Hsteps) as Hledger.
  destruct (billing_steps_outcomes _ _ _ _ _ Hsteps
              (select_billable_NoDup _ _ _) Hrefs)
    as (os & Hos & Hinv & _).
  cbn [fst snd] in *.
  split.
  { destruct (Forall2_lookup_l _ _ _ _ _ Hledger Hk)
      as (r' & Hk' & [-> | (Hnone & _)]); [done | congruence]. }
  exists (omap outcome_invoice os). split; [exact Hinv |].
  apply Forall_forall. intros i' (o & Ho & Hoi)%list_elem_of_omap.
  destruct o as [| cid msg | i'']; try discriminate. injection Hoi as ->.
  destruct (Forall2_elem_of_r _ _ _ _ Hos Ho) as (c & Hc & Hrow).
  destruct Hrow as (Hid & Hcid & Hamt & _).
  split.
  { unfold references_in_sequence in Hrefs. rewrite Forall_forall in Hrefs.
    specialize (Hrefs r (list_elem_of_lookup_2 _ _ _ Hk) i Hi). lia. }
  pose proof (select_billable_qualifying start end_ (store w)) as Hqual.
  rewrite Forall_forall in Hqual.
  destruct (Hqual c Hc) as (cust & _ & _ & _ & _ & Hunits & _).
  cbn [usage_ledger without_usage].
  rewrite (usage_total_delete start end_ _ _ k r i Hk Hi).
  rewrite Hcid, <- Hunits. exact Hamt.
Qed.

(** C1.  Along any history of the service from a state whose identifiers
    are in sequence, a usage row stays at its place, as it was or claimed
    once while its [invoice_id] was null.  A row that carries an
    [invoice_id] is never altered again; it never qualifies for a claiming
    update, and the billing query answers as if the row were not in the
    ledger, whatever the window; a billing run at any later time leaves
    the row as it is, and the invoices it adds carry other identifiers and
    amounts computed without the row; and no further invoice takes the
    identifier the row points at. *)
Theorem usage_claimed_at_most_once (w w' : World) (k : nat) (r : UsageRow) :
  ids_in_sequence w ->
  rtc (service_step rt env) w w' ->
  usage_ledger (store w) !! k = Some r ->
  (exists r', usage_ledger (store w') !! k = Some r' /\ usage_step r r')
  /\ (forall i, invoice_id r = Some i ->
        usage_ledger (store w') !! k = Some r
        /\ (forall start end_ cid, qualifies start end_ cid r = false)
        /\ (forall start end_,
              select_billable start end_ (store w')
              = select_billable start end_ (without_usage k (store w')))
        /\ (forall req,
              let end_ := startOfWeek rt (clock w') in
              let start := minusOneWeek rt end_ in
              let w'' := (bill_week rt env (pg_query rt) req w').2 in
              usage_ledger (store w'') !! k = Some r
              /\ exists new,
                   invoices (store w'') = (invoices (store w') ++ new)%list
                   /\ Forall (fun i' =>
                                inv_id i' <> i
                                /\ amountCents
                                     (usage_total start end_
                                        (inv_crm_contact_id i')
                                        (usage_ledger
                                           (without_usage k (store w'))))
                                   = Fin (inject_Z (amount_cents i')))
                        new)
        /\ length (List.filter (fun inv => inv_id inv =? i)
                     (invoices (store w')))
           = length (List.filter (fun inv => inv_id inv =? i)
                       (invoices (store w)))).
Proof.
  intros Hw Hrtc Hk.
  destruct (history_invariant w w' Hw Hrtc)
    as (Hw' & _ & (kept & added & Hl & Hkept) & (ki & new & Hi & Hki & Hnew)).
  destruct (Forall2_lookup_l _ _ _ _ _ Hkept Hk) as (r' & Hk' & Hstep).
  assert (Hk'' : usage_ledger (store w') !! k = Some r').
  { rewrite Hl. by apply lookup_app_l_Some. }
  split.
  { exists r'. split; [done |].
    destruct Hstep as [-> | (Hnone & j & _ & ->)]; by constructor. }
  intros i Hri.
  destruct Hstep as [-> | (Hnone & _)]; [| congruence].
  split; [done |]. split.
  { intros start end_ cid. unfold qualifies, unbilled. rewrite Hri.
    by rewrite andb_false_r. }
  split.
  { intros start end_. symmetry.
    by apply (select_billable_without start end_ (store w') k r i). }
  split.
  { intros req. by apply billing_run_spares_claimed. }
  destruct Hw as (_ & _ & Hrefs).
  unfold references_in_sequence in Hrefs.
  rewrite Forall_forall in Hrefs.
  specialize (Hrefs r (list_elem_of_lookup_2 _ _ _ Hk) i Hri).
  rewrite Hi, List.filter_app, length_app.
  rewrite (same_id_filter i _ _ Hki).
  assert (Hnone : List.filter (fun inv => inv_id inv =? i) new = []).
  { clear Hi. induction Hnew as [| inv new Hinv _ IH]; [done |].
    cbn [List.filter]. destruct (Z.eqb_spec (inv_id inv) i); [lia | done]. }
  rewrite Hnone. cbn. lia.
Qed.

End Histories.

(** The scenario of the specification: two usage events of 3 and 2 units
    in one window give one invoice of 5 units, 2000 cents, and both rows
    point at it. *)
Example two_events_one_invoice :
  let rt := sample_runtime transfer_created in
  bill_week rt sample_env (pg_query rt) billing_request billing_world
  = (Ok (mkResponse 200
           (BillingSummary 1736395200000 1737000000000
              (mkResults 1 1 0 0 (Fin 2000) (Fin (2000 / 100)) []))),
     billed_world).
Proof. vm_compute. reflexivity. Qed.

(** Running the aggregator again over the same window bills nothing. *)
Example second_run_bills_nothing :
  let rt := sample_runtime transfer_created in
  bill_week rt sample_env (pg_query rt) billing_request billed_world
  = (Ok (mkResponse 200
           (BillingSummary 1736395200000 1737000000000 (initial_results 0))),
     billed_world).
Proof. vm_compute. reflexivity. Qed.

Lemma billing_world_references :
  references_in_sequence (invoices_id_seq billing_world)
    (usage_ledger (store billing_world)).
Proof. repeat constructor; discriminate. Qed.




(** The same cent is lost off the half cent: with a second usage event of
    10^-20 units the exact price is above 57.5 cents, and the amount is
    57 cents again. *)
Example price_above_half_cent_rounded_down :
  let u := ((14375 # 100000) + (1 # 100000000000000000000))%Q in
  amountCents (Fin u) = Fin 57
  /\ (115 # 2 < u * inject_Z PRICE_PER_UNIT_CENTS)%Q
  /\ rounded_price u = 58.
Proof. vm_compute. repeat split. Qed.

Lemma transfer_failure_witness :
  let rt := sample_runtime transfer_rejected in
  let env := sample_env in
  let start := 1736395200000 in
  let end_ := 1737000000000 in
  let w := billing_world in
  let e := mkError "Dwolla API error: 400 - Invalid funding source" in
  let w2 :=
    mkWorld (store w) (Some (mkTxn (store w) 1737000000000)) 2 0
      1737000000000
      (mkTokenCache (Some "tok") (Some 1737003540000)) 4 in
  let w' := set_txn None w2 in
  let results := initial_results 1 in
  let results' := count_failed "CUSTOMER123" e results in
  dwollaPost rt env "transfers" (transfer_of env start end_ sample_row) 3
    (begun w) = (Throw e, w2)
  /\ bill_customer rt env (pg_query rt) start end_ sample_row results w
     = (Ok results', w')
  /\ store w' = store w
  /\ txn w' = None
  /\ invoices_id_seq w' = invoices_id_seq w
  /\ failed results' = S (failed results)
  /\ successful results' = successful results
  /\ errors results'
     = (errors results ++ [("CUSTOMER123", message e)])%list
  /\ bill_customers rt env (pg_query rt) start end_ [sample_row] results w
     = bill_customers rt env (pg_query rt) start end_ [] results' w'.
Proof.
  split; [reflexivity |].
  apply (transfer_failure_rolls_back (sample_runtime transfer_rejected)
           sample_env 1736395200000 1737000000000 sample_row [] 
           (initial_results 1) billing_world _ _ eq_refl eq_refl eq_refl).
Defined.

(** The whole run when the processor rejects the transfer: the summary
    counts the failure and the tables are as they were. *)
Example rejected_transfer_leaves_usage_unbilled :
  let rt := sample_runtime transfer_rejected in
  let '(r, w') :=
    bill_week rt sample_env (pg_query rt) billing_request billing_world in
  r = Ok (mkResponse 200
            (BillingSummary 1736395200000 1737000000000
               (mkResults 1 0 1 0 (Fin 0) (Fin 0)
                  [("CUSTOMER123",
                    "Dwolla API error: 400 - Invalid funding source")])))
  /\ store w' = store billing_world.
Proof. vm_compute. split; reflexivity. Qed.

(** The empty database has its identifiers in sequence, and so has every
    world a history reaches from it ([history_invariant]). *)
Lemma empty_world_in_sequence : ids_in_sequence empty_world.
Proof. repeat split; constructor. Qed.

Lemma billed_world_in_sequence : ids_in_sequence billed_world.
Proof.
  split; [reflexivity |]. split.
  - repeat constructor. cbn. lia.
  - repeat constructor; cbn; intros j [= <-]; lia.
Qed.

(** After the run of the scenario, a second run over the same window
    bills nothing and leaves the first usage row with its invoice. *)
Lemma usage_claimed_witness :
  let rt := sample_runtime transfer_created in
  let w := billed_world in
  let w' := (bill_week rt sample_env (pg_query rt) billing_request w).2 in
  let r := mkUsageRow 1 "CUSTOMER123-test-1" "CUSTOMER123" (Fin 3)
             1736973000000 (Some 1) in
  (invoices (store w') = invoices (store w)
   /\ select_billable 1736395200000 1737000000000 (store w') = [])
  /\ (exists r', usage_ledger (store w') !! 0%nat = Some r' /\ usage_step r r')
  /\ (forall i, invoice_id r = Some i ->
        usage_ledger (store w') !! 0%nat = Some r
        /\ (forall start end_ cid, qualifies start end_ cid r = false)
        /\ (forall start end_,
              select_billable start end_ (store w')
              = select_billable start end_ (without_usage 0 (store w')))
        /\ (forall req,
              let end_ := startOfWeek rt (clock w') in
              let start := minusOneWeek rt end_ in
              let w'' := (bill_week rt sample_env (pg_query rt) req w').2 in
              usage_ledger (store w'') !! 0%nat = Some r
              /\ exists new,
                   invoices (store w'') = (invoices (store w') ++ new)%list
                   /\ Forall (fun i' =>
                                inv_id i' <> i
                                /\ amountCents
                                     (usage_total start end_
                                        (inv_crm_contact_id i')
                                        (usage_ledger
                                           (without_usage 0 (store w'))))
                                   = Fin (inject_Z (amount_cents i')))
                        new)
        /\ length (List.filter (fun inv => inv_id inv =? i)
                     (invoices (store w')))
           = length (List.filter (fun inv => inv_id inv =? i)
                       (invoices (store w)))).
Proof.
  split; [by vm_compute |].
  apply (usage_claimed_at_most_once (sample_runtime transfer_created)
           sample_env billed_world _ 0%nat _ billed_world_in_sequence
           (rtc_once _ _ (billing_run _ _ _ billing_request))
           eq_refl).
Defined.

(** * Further properties

    Properties the code shows and the specification does not state. *)

(** ** Token cache and Transfer Initiator *)

Section TokenCacheProps.
Variable rt : Runtime.
Variable env : ProcessEnv.

Lemma getDwollaToken_cached (w : World) :
  cache_valid (tokenCache w) (clock w) = true ->
  getDwollaToken rt env w = (Ok (token (tokenCache w)), w).
Proof.
  intros Hvalid. unfold getDwollaToken. rewrite run_bind. cbn [get_world].
  cbv beta iota. by rewrite Hvalid.
Qed.

Lemma getDwollaToken_refresh (w : World) (key secret : string)
  (res : HttpResponse) (json : TokenJson) :
  cache_valid (tokenCache w) (clock w) = false ->
  DWOLLA_KEY env = Some key ->
  DWOLLA_SECRET env = Some secret ->
  fetch rt (net_calls w) (TokenRequest key secret) = FetchResolves res ->
  res_ok res = true ->
  body_json res = Some json ->
  getDwollaToken rt env w
  = (Ok (access_token json),
     set_tokenCache
       (mkTokenCache (access_token json)
          (Some (clock w
                 + (token_lifetime json - DWOLLA_TOKEN_EXPIRY_BUFFER_SECONDS)
                   * 1000)))
       (set_net_calls (S (net_calls w)) w)).
Proof.
  intros Hvalid Hkey Hsecret Hfetch Hok Hjson.
  unfold getDwollaToken. rewrite run_bind. cbn [get_world]. cbv beta iota.
  rewrite Hvalid, Hkey, Hsecret. cbn [env_trim].
  rewrite run_bind, run_ret. cbv beta iota. rewrite run_bind, run_ret.
  cbv beta iota. rewrite run_bind. unfold do_fetch at 1. rewrite Hfetch.
  cbv beta iota. rewrite Hok. cbn [negb]. rewrite Hjson.
  reflexivity.
Qed.

Lemma getDwollaToken_fetches (w : World) (key secret : string) :
  cache_valid (tokenCache w) (clock w) = false ->
  DWOLLA_KEY env = Some key ->
  DWOLLA_SECRET env = Some secret ->
  net_calls (getDwollaToken rt env w).2 = S (net_calls w).
Proof.
  intros Hinvalid Hkey Hsecret.
  unfold getDwollaToken. rewrite run_bind. cbn [get_world]. cbv beta iota.
  rewrite Hinvalid, Hkey, Hsecret. cbn [env_trim].
  rewrite run_bind, run_ret. cbv beta iota. rewrite run_bind, run_ret.
  cbv beta iota. rewrite run_bind. unfold do_fetch at 1.
  destruct (fetch rt _ _) as [e | res']; [reflexivity |].
  cbv beta iota. destruct (negb (res_ok res')); [reflexivity |].
  destruct (body_json res') as [json' |]; reflexivity.
Qed.

(** X1.  When the cache holds no valid token, [getDwollaToken] makes one
    token request; the token of an ok answer is cached with the expiry
    [now + (expires_in - 60) * 1000], where a missing or zero [expires_in]
    counts as 3600 seconds.  Every later call before the expiry returns
    the cached token without any request and leaves the world as it is;
    every call at or after the expiry goes to the token endpoint again
    (so a token that lives 60 seconds or less is never reused). *)
Theorem token_reused_until_expiry (w : World) (key secret tok : string)
  (res : HttpResponse) (json : TokenJson) :
  cache_valid (tokenCache w) (clock w) = false ->
  DWOLLA_KEY env = Some key ->
  DWOLLA_SECRET env = Some secret ->
  fetch rt (net_calls w) (TokenRequest key secret) = FetchResolves res ->
  res_ok res = true ->
  body_json res = Some json ->
  access_token json = Some tok ->
  tok <> "" ->
  let expiry :=
    clock w
    + (token_lifetime json - DWOLLA_TOKEN_EXPIRY_BUFFER_SECONDS) * 1000 in
  exists w1,
    getDwollaToken rt env w = (Ok (Some tok), w1)
    /\ net_calls w1 = S (net_calls w)
    /\ tokenCache w1 = mkTokenCache (Some tok) (Some expiry)
    /\ (forall t, 0 <= t < expiry ->
          getDwollaToken rt env (set_clock t w1)
          = (Ok (Some tok), set_clock t w1))
    /\ (forall t, expiry <= t ->
          net_calls (getDwollaToken rt env (set_clock t w1)).2
          = S (net_calls w1)).
Proof.
  intros Hvalid Hkey Hsecret Hfetch Hok Hjson Htok Hne expiry.
  eexists. split.
  { rewrite (getDwollaToken_refresh w key secret res json) by done.
    rewrite Htok. reflexivity. }
  split; [reflexivity |]. split; [reflexivity |]. split.
  - intros t [Ht0 Ht]. rewrite getDwollaToken_cached; [reflexivity |].
    change (cache_valid (mkTokenCache (Some tok) (Some expiry)) t = true).
    unfold cache_valid. cbn [token expiresAt falsy_str].
    destruct (String.eqb_spec tok ""); [done |]. cbn [negb andb].
    apply andb_true_iff. split; [| by apply Z.ltb_lt].
    apply negb_true_iff, Z.eqb_neq. lia.
  - intros t Ht.
    rewrite (getDwollaToken_fetches _ key secret); [reflexivity | | done ..].
    change (cache_valid (mkTokenCache (Some tok) (Some expiry)) t = false).
    unfold cache_valid. cbn [token expiresAt].
    apply andb_false_iff. right. apply andb_false_iff. right.
    apply Z.ltb_ge. lia.
Qed.

End TokenCacheProps.

Section TransferInitiatorProps.
Variable rt : Runtime.
Variable env : ProcessEnv.

Lemma dwollaPost_attempt_run (path : string) (body : TransferBody)
  (retries attempt : nat) (w w1 : World) (tok : option string)
  (res : HttpResponse) :
  getDwollaToken rt env w = (Ok tok, w1) ->
  fetch rt (net_calls w1) (ApiPost path tok body) = FetchResolves res ->
  let w2 := set_net_calls (S (net_calls w1)) w1 in
  dwollaPost_attempt rt env path body retries attempt w =
  if res_ok res then (Ok (Return (location res)), w2)
  else if (http_status res =? 401) && (attempt <? retries)%nat then
    (Ok Continue,
     set_clock (clock w1 + 1000) (set_tokenCache (mkTokenCache None None) w2))
  else if (400 <=? http_status res) && (http_status res <? 500) then
    (if (attempt =? retries)%nat then Throw (api_error res) else Ok Continue,
     w2)
  else if (attempt <? retries)%nat then
    (Ok Continue,
     set_clock (clock w1 + Z.min (1000 * 2 ^ (Z.of_nat attempt - 1)) 5000) w2)
  else
    (if (attempt =? retries)%nat then Throw (api_error res) else Ok Continue,
     w2).
Proof.
  intros Htoken Hfetch w2.
  unfold dwollaPost_attempt, try_catch. rewrite run_bind, Htoken.
  rewrite run_bind. unfold do_fetch at 1. rewrite Hfetch. cbv beta iota.
  fold w2. destruct (res_ok res); [reflexivity |]. cbn [negb].
  destruct ((http_status res =? 401) && (attempt <? retries)%nat);
    [reflexivity |].
  destruct ((400 <=? http_status res) && (http_status res <? 500)).
  { cbv [throw]. by destruct (attempt =? retries)%nat. }
  destruct (attempt <? retries)%nat; [reflexivity |].
  cbv [throw]. by destruct (attempt =? retries)%nat.
Qed.

(** An attempt whose token request or POST fails without an answer. *)
Lemma dwollaPost_attempt_thrown (path : string) (body : TransferBody)
  (retries attempt : nat) (w w1 : World) (e : Error) :
  getDwollaToken rt env w = (Throw e, w1) ->
  dwollaPost_attempt rt env path body retries attempt w =
  (if (attempt =? retries)%nat then Throw e else Ok Continue, w1).
Proof.
  intros Htoken. unfold dwollaPost_attempt, try_catch.
  rewrite run_bind, Htoken. cbv [throw].
  by destruct (attempt =? retries)%nat.
Qed.

Lemma dwollaPost_attempt_rejected (path : string) (body : TransferBody)
  (retries attempt : nat) (w w1 : World) (tok : option string) (e : Error) :
  getDwollaToken rt env w = (Ok tok, w1) ->
  fetch rt (net_calls w1) (ApiPost path tok body) = FetchRejects e ->
  dwollaPost_attempt rt env path body retries attempt w =
  (if (attempt =? retries)%nat then Throw e else Ok Continue,
   set_net_calls (S (net_calls w1)) w1).
Proof.
  intros Htoken Hfetch. unfold dwollaPost_attempt, try_catch.
  rewrite run_bind, Htoken. rewrite run_bind. unfold do_fetch at 1.
  rewrite Hfetch. cbv beta iota. cbv [throw].
  by destruct (attempt =? retries)%nat.
Qed.

Lemma getDwollaToken_effort (w : World) :
  clock (getDwollaToken rt env w).2 = clock w
  /\ (net_calls w <= net_calls (getDwollaToken rt env w).2
      <= S (net_calls w))%nat.
Proof.
  pose (P := fun w' : World =>
               clock w' = clock w
               /\ (net_calls w' = net_calls w
                   \/ net_calls w' = S (net_calls w))).
  assert (Hw' : P (getDwollaToken rt env w).2); [| destruct Hw'; lia].
  assert (Hsame : P w) by (split; [reflexivity | left; reflexivity]).
  assert (Hcall : forall c, P (set_tokenCache c
                                 (set_net_calls (S (net_calls w)) w))
                            /\ P (set_net_calls (S (net_calls w)) w)).
  { intros c. split; (split; [reflexivity | right; reflexivity]). }
  clearbody P.
  unfold getDwollaToken. rewrite run_bind. cbn [get_world].
  cbv beta iota.
  destruct (cache_valid _ _); [exact Hsame |].
  destruct (DWOLLA_KEY env) as [key |]; [| exact Hsame].
  destruct (DWOLLA_SECRET env) as [secret |]; [| exact Hsame].
  cbn [env_trim].
  rewrite run_bind, run_ret. cbv beta iota. rewrite run_bind, run_ret.
  cbv beta iota. rewrite run_bind. unfold do_fetch at 1.
  destruct (fetch rt _ _) as [e | res]; [apply (Hcall (mkTokenCache None None)) |].
  cbv beta iota.
  destruct (negb (res_ok res)); [apply (Hcall (mkTokenCache None None)) |].
  destruct (body_json res) as [json |];
    [| apply (Hcall (mkTokenCache None None))].
  apply Hcall.
Qed.

Lemma longest_pause_bounds (retries attempt : nat) :
  0 <= longest_pause retries attempt
       <= if (attempt <? retries)%nat then 5000 else 0.
Proof.
  unfold longest_pause. destruct (attempt <? retries)%nat; lia.
Qed.

Ltac fin :=
  cbv zeta;
  cbn [snd clock net_calls set_net_calls set_clock set_tokenCache];
  lia.

Lemma dwollaPost_attempt_effort (path : string) (body : TransferBody)
  (retries attempt : nat) (w : World) :
  let w' := (dwollaPost_attempt rt env path body retries attempt w).2 in
  (net_calls w <= net_calls w' <= net_calls w + 2)%nat
  /\ clock w <= clock w' <= clock w + longest_pause retries attempt.
Proof.
  pose proof (getDwollaToken_effort w) as [Hclock Hcalls].
  pose proof (longest_pause_bounds retries attempt) as Hpause.
  destruct (getDwollaToken rt env w) as [[tok | e] w1] eqn:Htoken;
    cbn [snd] in Hclock, Hcalls.
  2:{ rewrite (dwollaPost_attempt_thrown _ _ _ _ w w1 e Htoken).
      fin. }
  destruct (fetch rt (net_calls w1) (ApiPost path tok body)) as [e | res]
    eqn:Hfetch.
  { rewrite (dwollaPost_attempt_rejected _ _ _ _ w w1 tok e Htoken Hfetch).
    fin. }
  rewrite (dwollaPost_attempt_run _ _ _ _ w w1 tok res Htoken Hfetch).
  assert (Hpow : 0 <= 2 ^ (Z.of_nat attempt - 1)) by (apply Z.pow_nonneg; lia).
  unfold longest_pause in *.
  destruct (res_ok res); [fin |].
  destruct (attempt <? retries)%nat.
  - rewrite andb_true_r.
    destruct (http_status res =? 401); [fin |].
    destruct ((400 <=? http_status res) && (http_status res <? 500)).
    + destruct (attempt =? retries)%nat; fin.
    + fin.
  - rewrite andb_false_r.
    destruct ((400 <=? http_status res) && (http_status res <? 500));
      destruct (attempt =? retries)%nat; fin.
Qed.

Lemma longest_pauses_nonneg (retries remaining attempt : nat) :
  0 <= longest_pauses retries remaining attempt.
Proof.
  revert attempt. induction remaining as [| n IH]; intros attempt; [done |].
  cbn [longest_pauses].
  pose proof (longest_pause_bounds retries attempt).
  specialize (IH (S attempt)). lia.
Qed.

Lemma dwollaPost_from_effort (path : string) (body : TransferBody)
  (retries remaining attempt : nat) (w : World) :
  let w' := (dwollaPost_from rt env path body retries remaining attempt w).2 in
  (net_calls w <= net_calls w' <= net_calls w + 2 * remaining)%nat
  /\ clock w <= clock w' <= clock w + longest_pauses retries remaining attempt.
Proof.
  revert attempt w. induction remaining as [| n IH]; intros attempt w.
  { cbn. lia. }
  cbn [dwollaPost_from longest_pauses]. rewrite run_bind.
  pose proof (dwollaPost_attempt_effort path body retries attempt w)
    as [Hcalls Hclock].
  pose proof (longest_pauses_nonneg retries n (S attempt)) as Hrest.
  destruct (dwollaPost_attempt rt env path body retries attempt w)
    as [[[loc |] | e] w1]; cbn [snd] in *.
  - rewrite run_ret. cbn [snd]. lia.
  - specialize (IH (S attempt) w1). cbv zeta in IH. lia.
  - lia.
Qed.

Lemma longest_pauses_coarse (retries remaining attempt : nat) :
  (attempt + remaining = S retries)%nat ->
  longest_pauses retries remaining attempt <= 5000 * Z.of_nat (remaining - 1).
Proof.
  revert attempt. induction remaining as [| n IH]; intros attempt Hsum;
    [cbn; lia |].
  cbn [longest_pauses].
  pose proof (longest_pause_bounds retries attempt) as Hpause.
  destruct n as [| n'].
  - cbn [longest_pauses].
    replace (attempt <? retries)%nat with false in Hpause
      by (symmetry; apply Nat.ltb_ge; lia).
    lia.
  - specialize (IH (S attempt) ltac:(lia)).
    destruct (attempt <? retries)%nat; lia.
Qed.

(** X2.  [dwollaPost] makes at most two fetch calls per attempt (a token
    request and the POST), hence at most [2 * retries] in all, and the
    delays it waits add up to at most [5000 * (retries - 1)] ms: to at
    most 3000 ms with the default of three attempts.  The clock never
    goes back. *)
Theorem dwollaPost_effort_bounded (path : string) (body : TransferBody)
  (retries : nat) (w : World) :
  let w' := (dwollaPost rt env path body retries w).2 in
  (net_calls w <= net_calls w' <= net_calls w + 2 * retries)%nat
  /\ clock w <= clock w' <= clock w + 5000 * Z.of_nat (retries - 1)
  /\ (retries = 3%nat -> clock w' <= clock w + 3000).
Proof.
  pose proof (dwollaPost_from_effort path body retries retries 1 w)
    as [Hcalls Hclock].
  fold (dwollaPost rt env path body retries) in Hcalls, Hclock.
  cbv zeta in *. split; [exact Hcalls |].
  split.
  - destruct retries as [| n]; [cbn in *; lia |].
    pose proof (longest_pauses_coarse (S n) (S n) 1 ltac:(lia)). lia.
  - intros ->. vm_compute longest_pauses in Hclock. lia.
Qed.

(** X3.  The loop of [dwollaPost] never falls through: with at least
    one attempt allowed the call returns a location object or throws, and
    it returns [undefined] exactly when [retries] is 0, in which case it
    requests nothing and changes nothing. *)
Theorem dwollaPost_undefined_only_without_attempts (path : string)
  (body : TransferBody) (retries : nat) (w : World) :
  ((dwollaPost rt env path body retries w).1 = Ok None <-> retries = 0%nat)
  /\ dwollaPost rt env path body 0 w = (Ok None, w).
Proof.
  split; [| reflexivity]. split.
  - intros Hnone. destruct retries as [| n]; [done |]. exfalso.
    by apply (dwollaPost_from_defined rt env path body (S n) (S n) 1 w);
      [lia | lia |].
  - by intros ->.
Qed.

Lemma dwollaPost_attempt_return (path : string) (body : TransferBody)
  (retries attempt : nat) (w w' : World) (loc : option string) :
  dwollaPost_attempt rt env path body retries attempt w
  = (Ok (Return loc), w') ->
  exists tok res,
    fetch rt (Nat.pred (net_calls w')) (ApiPost path tok body)
    = FetchResolves res
    /\ res_ok res = true
    /\ location res = loc
    /\ (net_calls w < net_calls w')%nat.
Proof.
  pose proof (getDwollaToken_effort w) as [_ Hcalls].
  destruct (getDwollaToken rt env w) as [[tok | e] w1] eqn:Htoken;
    cbn [snd] in Hcalls.
  2:{ rewrite (dwollaPost_attempt_thrown _ _ _ _ w w1 e Htoken).
      by destruct (attempt =? retries)%nat. }
  destruct (fetch rt (net_calls w1) (ApiPost path tok body)) as [e | res]
    eqn:Hfetch.
  { rewrite (dwollaPost_attempt_rejected _ _ _ _ w w1 tok e Htoken Hfetch).
    by destruct (attempt =? retries)%nat. }
  rewrite (dwollaPost_attempt_run _ _ _ _ w w1 tok res Htoken Hfetch).
  destruct (res_ok res) eqn:Hok.
  - intros [= <- <-]. exists tok, res. cbn [net_calls set_net_calls Nat.pred].
    repeat split; try done. lia.
  - destruct (_ && _); [done |].
    destruct (_ && _); [by destruct (attempt =? retries)%nat |].
    destruct (attempt <? retries)%nat; [done |].
    by destruct (attempt =? retries)%nat.
Qed.

Lemma dwollaPost_from_return (path : string) (body : TransferBody)
  (retries remaining attempt : nat) (w w' : World) (loc : option string) :
  dwollaPost_from rt env path body retries remaining attempt w
  = (Ok (Some loc), w') ->
  exists tok res,
    fetch rt (Nat.pred (net_calls w')) (ApiPost path tok body)
    = FetchResolves res
    /\ res_ok res = true
    /\ location res = loc
    /\ (net_calls w < net_calls w')%nat.
Proof.
  revert w attempt.
  induction remaining as [| n IH]; intros w attempt; [done |].
  cbn [dwollaPost_from]. rewrite run_bind.
  pose proof (dwollaPost_attempt_effort path body retries attempt w)
    as [Hcalls _].
  destruct (dwollaPost_attempt rt env path body retries attempt w)
    as [[[loc1 |] | e] w1] eqn:Hattempt; cbn [snd] in Hcalls; [| | done].
  - rewrite run_ret. intros [= <- <-].
    by apply (dwollaPost_attempt_return path body retries attempt w).
  - intros Hrest. destruct (IH w1 (S attempt) Hrest)
      as (tok & res & Hfetch & Hok & Hloc & Hlt).
    exists tok, res. repeat split; try done. lia.
Qed.

(** X4.  [dwollaPost] reports a transfer only on the word of the
    processor: when it returns a location, the last fetch call it made is
    a POST of this very body to this path that was answered with an ok
    status, and the location returned is the [location] header of that
    answer. *)
Theorem transfer_reported_only_after_success (path : string)
  (body : TransferBody) (retries : nat) (w w' : World) (loc : option string) :
  dwollaPost rt env path body retries w = (Ok (Some loc), w') ->
  exists tok res,
    fetch rt (Nat.pred (net_calls w')) (ApiPost path tok body)
    = FetchResolves res
    /\ res_ok res = true
    /\ location res = loc
    /\ (net_calls w < net_calls w')%nat.
Proof.
  intros Hpost.
  destruct (dwollaPost_from_return path body retries retries 1 w w' loc Hpost)
    as (tok & res & Hfetch & Hok & Hloc & Hlt).
  exists tok, res. by repeat split.
Qed.

Lemma cached_attempt_server_error (path : string) (body : TransferBody)
  (retries attempt : nat) (w : World) (res : HttpResponse) :
  cache_valid (tokenCache w) (clock w) = true ->
  fetch rt (net_calls w) (ApiPost path (token (tokenCache w)) body)
  = FetchResolves res ->
  500 <= http_status res ->
  dwollaPost_attempt rt env path body retries attempt w =
  if (attempt <? retries)%nat then
    (Ok Continue,
     set_clock (clock w + Z.min (1000 * 2 ^ (Z.of_nat attempt - 1)) 5000)
       (set_net_calls (S (net_calls w)) w))
  else
    (if (attempt =? retries)%nat then Throw (api_error res) else Ok Continue,
     set_net_calls (S (net_calls w)) w).
Proof.
  intros Hvalid Hfetch Hstatus.
  rewrite (dwollaPost_attempt_run _ _ _ _ w w _ res
             (getDwollaToken_cached rt env w Hvalid) Hfetch).
  unfold res_ok.
  replace (http_status res <=? 299) with false by (symmetry; apply Z.leb_gt; lia).
  rewrite andb_false_r.
  replace (http_status res =? 401) with false by (symmetry; apply Z.eqb_neq; lia).
  replace (http_status res <? 500) with false by (symmetry; apply Z.ltb_ge; lia).
  rewrite andb_false_r. cbn [andb]. reflexivity.
Qed.

(** X5.  With a cached token that stays valid, three answers with a
    status of 500 or more make [dwollaPost] wait 1000 ms after the first
    and 2000 ms after the second, and throw the error of the third: three
    POSTs, no token request, the cache untouched. *)
Theorem server_error_exhausts_backoff (path : string) (body : TransferBody)
  (w : World) (r1 r2 r3 : HttpResponse) :
  (forall t, clock w <= t <= clock w + 3000 ->
             cache_valid (tokenCache w) t = true) ->
  let post := ApiPost path (token (tokenCache w)) body in
  fetch rt (net_calls w) post = FetchResolves r1 ->
  fetch rt (S (net_calls w)) post = FetchResolves r2 ->
  fetch rt (S (S (net_calls w))) post = FetchResolves r3 ->
  500 <= http_status r1 -> 500 <= http_status r2 -> 500 <= http_status r3 ->
  dwollaPost rt env path body 3 w
  = (Throw (api_error r3),
     set_net_calls (S (S (S (net_calls w)))) (set_clock (clock w + 3000) w)).
Proof.
  intros Hcache post H1 H2 H3 Hs1 Hs2 Hs3.
  unfold dwollaPost. cbn [dwollaPost_from]. rewrite run_bind.
  rewrite (cached_attempt_server_error path body 3 1 w r1
             (Hcache (clock w) ltac:(lia)) H1 Hs1).
  cbn [Nat.ltb Nat.leb]. cbv beta iota.
  change (Z.min (1000 * 2 ^ (Z.of_nat 1 - 1)) 5000) with 1000.
  set (w1 := set_clock (clock w + 1000) (set_net_calls (S (net_calls w)) w)).
  rewrite run_bind.
  rewrite (cached_attempt_server_error path body 3 2 w1 r2
             (Hcache (clock w + 1000) ltac:(lia)) H2 Hs2).
  cbn [Nat.ltb Nat.leb]. cbv beta iota.
  change (Z.min (1000 * 2 ^ (Z.of_nat 2 - 1)) 5000) with 2000.
  set (w2 := set_clock (clock w1 + 2000) (set_net_calls (S (net_calls w1)) w1)).
  rewrite run_bind.
  rewrite (cached_attempt_server_error path body 3 3 w2 r3
             (Hcache (clock w + 1000 + 2000) ltac:(lia)) H3 Hs3).
  cbn [Nat.ltb Nat.leb Nat.eqb]. cbv beta iota.
  subst w2 w1. destruct w as [st tx us is_ ck tc nc].
  cbn [set_clock set_net_calls clock net_calls store txn usage_ledger_id_seq
       invoices_id_seq tokenCache].
  by replace (ck + 1000 + 2000) with (ck + 3000) by lia.
Qed.

(** X6.  When the POST made with a cached token is answered 401,
    [dwollaPost] drops the cached token, waits 1000 ms, requests a new
    token and repeats the POST with it; when that POST is accepted the
    call returns its location, and the cache holds the new token with an
    expiry counted from the time of the new grant. *)
Theorem expired_credential_refreshed (path : string) (body : TransferBody)
  (w : World) (key secret : string) (r1 r2 r3 : HttpResponse)
  (json : TokenJson) :
  cache_valid (tokenCache w) (clock w) = true ->
  fetch rt (net_calls w) (ApiPost path (token (tokenCache w)) body)
  = FetchResolves r1 ->
  http_status r1 = 401 ->
  DWOLLA_KEY env = Some key ->
  DWOLLA_SECRET env = Some secret ->
  fetch rt (S (net_calls w)) (TokenRequest key secret) = FetchResolves r2 ->
  res_ok r2 = true ->
  body_json r2 = Some json ->
  fetch rt (S (S (net_calls w))) (ApiPost path (access_token json) body)
  = FetchResolves r3 ->
  res_ok r3 = true ->
  dwollaPost rt env path body 3 w
  = (Ok (Some (location r3)),
     set_net_calls (S (S (S (net_calls w))))
       (set_tokenCache
          (mkTokenCache (access_token json)
             (Some (clock w + 1000
                    + (token_lifetime json
                       - DWOLLA_TOKEN_EXPIRY_BUFFER_SECONDS) * 1000)))
          (set_clock (clock w + 1000) w))).
Proof.
  intros Hvalid H1 Hs1 Hkey Hsecret H2 Hok2 Hjson H3 Hok3.
  unfold dwollaPost. cbn [dwollaPost_from]. rewrite run_bind.
  rewrite (dwollaPost_attempt_run _ _ _ _ w w _ r1
             (getDwollaToken_cached rt env w Hvalid) H1).
  unfold res_ok at 1. rewrite Hs1. cbn [Z.leb Z.eqb Z.compare Pos.compare
    Pos.compare_cont andb Pos.eqb Nat.ltb Nat.leb]. cbv beta iota.
  set (w1 := set_clock (clock w + 1000)
               (set_tokenCache (mkTokenCache None None)
                  (set_net_calls (S (net_calls w)) w))).
  rewrite run_bind.
  assert (Htoken : getDwollaToken rt env w1
                   = (Ok (access_token json),
                      set_tokenCache
                        (mkTokenCache (access_token json)
                           (Some (clock w1
                                  + (token_lifetime json
                                     - DWOLLA_TOKEN_EXPIRY_BUFFER_SECONDS)
                                    * 1000)))
                        (set_net_calls (S (net_calls w1)) w1))).
  { by apply (getDwollaToken_refresh rt env w1 key secret r2 json). }
  rewrite (dwollaPost_attempt_run _ _ _ _ w1 _ _ r3 Htoken H3).
  rewrite Hok3. rewrite run_ret.
  subst w1. destruct w as [st tx us is_ ck tc nc]. reflexivity.
Qed.

Lemma refused_token_attempts (path : string) (body : TransferBody)
  (retries : nat) (w : World) (key secret : string)
  (r : nat -> HttpResponse) (remaining attempt : nat) :
  cache_valid (tokenCache w) (clock w) = false ->
  DWOLLA_KEY env = Some key ->
  DWOLLA_SECRET env = Some secret ->
  (forall k, (k < retries)%nat ->
     fetch rt (net_calls w + k) (TokenRequest key secret)
     = FetchResolves (r k)
     /\ res_ok (r k) = false) ->
  (0 < remaining)%nat ->
  (1 <= attempt)%nat ->
  (attempt + remaining = S retries)%nat ->
  dwollaPost_from rt env path body retries remaining attempt
    (set_net_calls (net_calls w + (attempt - 1)) w)
  = (Throw (token_error (r (retries - 1)%nat)),
     set_net_calls (net_calls w + retries) w).
Proof.
  intros Hinvalid Hkey Hsecret Hfetch.
  revert attempt.
  induction remaining as [| n IH]; intros attempt Hpos Hattempt Hsum; [lia |].
  cbn [dwollaPost_from]. rewrite run_bind.
  set (w0 := set_net_calls (net_calls w + (attempt - 1)) w).
  destruct (Hfetch (attempt - 1)%nat ltac:(lia)) as [Hres Hrefused].
  assert (Htoken : getDwollaToken rt env w0
                   = (Throw (token_error (r (attempt - 1)%nat)),
                      set_net_calls (S (net_calls w0)) w0)).
  { unfold getDwollaToken. rewrite run_bind. cbn [get_world]. cbv beta iota.
    change (tokenCache w0) with (tokenCache w).
    change (clock w0) with (clock w).
    rewrite Hinvalid, Hkey, Hsecret. cbn [env_trim].
    rewrite run_bind, run_ret. cbv beta iota. rewrite run_bind, run_ret.
    cbv beta iota. rewrite run_bind. unfold do_fetch at 1.
    change (net_calls w0) with (net_calls w + (attempt - 1))%nat.
    rewrite Hres. cbv beta iota. rewrite Hrefused. reflexivity. }
  rewrite (dwollaPost_attempt_thrown _ _ _ _ w0 _ _ Htoken).
  destruct n as [| n'].
  - replace (attempt =? retries)%nat with true
      by (symmetry; apply Nat.eqb_eq; lia).
    subst w0. cbn [set_net_calls net_calls store txn usage_ledger_id_seq
                   invoices_id_seq clock tokenCache].
    replace (attempt - 1)%nat with (retries - 1)%nat by lia.
    f_equal. unfold set_net_calls. cbn. f_equal. lia.
  - replace (attempt =? retries)%nat with false
      by (symmetry; apply Nat.eqb_neq; lia).
    cbv beta iota.
    specialize (IH (S attempt) ltac:(lia) ltac:(lia) ltac:(lia)).
    replace (set_net_calls (S (net_calls w0)) w0)
      with (set_net_calls (net_calls w + (S attempt - 1)) w); [exact IH |].
    subst w0. unfold set_net_calls. cbn. f_equal. lia.
Qed.

(** X7.  When there is no valid cached token and the token endpoint
    refuses every request, [dwollaPost] repeats the token request once
    per attempt, without any delay in between and without ever sending
    the POST, and throws the error of the last refusal. *)
Theorem refused_token_request_is_repeated (path : string)
  (body : TransferBody) (retries : nat) (w : World) (key secret : string)
  (r : nat -> HttpResponse) :
  cache_valid (tokenCache w) (clock w) = false ->
  DWOLLA_KEY env = Some key ->
  DWOLLA_SECRET env = Some secret ->
  (forall k, (k < retries)%nat ->
     fetch rt (net_calls w + k) (TokenRequest key secret)
     = FetchResolves (r k)
     /\ res_ok (r k) = false) ->
  (0 < retries)%nat ->
  dwollaPost rt env path body retries w
  = (Throw (token_error (r (retries - 1)%nat)),
     set_net_calls (net_calls w + retries) w).
Proof.
  intros Hinvalid Hkey Hsecret Hfetch Hpos.
  pose proof (refused_token_attempts path body retries w key secret r retries 1
                Hinvalid Hkey Hsecret Hfetch Hpos ltac:(lia) ltac:(lia))
    as Hrun.
  replace (set_net_calls (net_calls w + (1 - 1)) w) with w in Hrun;
    [exact Hrun |].
  destruct w. unfold set_net_calls. cbn. f_equal. lia.
Qed.

(** X8.  With [DWOLLA_KEY] or [DWOLLA_SECRET] unset and no valid cached
    token, [dwollaPost] throws the TypeError of [undefined.trim()]
    whatever the number of attempts, and no request leaves the process:
    the world is exactly as before. *)
Theorem missing_credentials_fail_without_request (path : string)
  (body : TransferBody) (retries : nat) (w : World) :
  cache_valid (tokenCache w) (clock w) = false ->
  DWOLLA_KEY env = None \/ DWOLLA_SECRET env = None ->
  (0 < retries)%nat ->
  dwollaPost rt env path body retries w = (Throw (TypeError "trim"), w).
Proof.
  intros Hinvalid Hmissing Hpos.
  assert (Htoken : getDwollaToken rt env w = (Throw (TypeError "trim"), w)).
  { unfold getDwollaToken. rewrite run_bind. cbn [get_world]. cbv beta iota.
    rewrite Hinvalid.
    destruct (DWOLLA_KEY env) as [key |]; [| reflexivity].
    destruct Hmissing as [? | ->]; [done |]. reflexivity. }
  unfold dwollaPost.
  assert (Hgen : forall remaining attempt,
            (0 < remaining)%nat -> (attempt + remaining = S retries)%nat ->
            dwollaPost_from rt env path body retries remaining attempt w
            = (Throw (TypeError "trim"), w)).
  { induction remaining as [| n IH]; intros attempt Hn Hsum; [lia |].
    cbn [dwollaPost_from]. rewrite run_bind.
    rewrite (dwollaPost_attempt_thrown _ _ _ _ w _ _ Htoken).
    destruct n as [| n'].
    - by replace (attempt =? retries)%nat with true
        by (symmetry; apply Nat.eqb_eq; lia).
    - replace (attempt =? retries)%nat with false
        by (symmetry; apply Nat.eqb_neq; lia).
      cbv beta iota. apply IH; lia. }
  apply Hgen; lia.
Qed.

End TransferInitiatorProps.

Lemma token_reused_witness :
  let rt := sample_runtime [token_granted] in
  let w := empty_world in
  let expiry := 3540000 in
  exists w1,
    getDwollaToken rt sample_env w = (Ok (Some "tok"), w1)
    /\ net_calls w1 = S (net_calls w)
    /\ tokenCache w1 = mkTokenCache (Some "tok") (Some expiry)
    /\ (forall t, 0 <= t < expiry ->
          getDwollaToken rt sample_env (set_clock t w1)
          = (Ok (Some "tok"), set_clock t w1))
    /\ (forall t, expiry <= t ->
          net_calls (getDwollaToken rt sample_env (set_clock t w1)).2
          = S (net_calls w1)).
Proof.
  apply (token_reused_until_expiry (sample_runtime [token_granted]) sample_env
           empty_world "key" "secret" "tok"
           (mkHttpResponse 200 "" None
              (Some (mkTokenJson (Some "tok") (Some 3600))))
           (mkTokenJson (Some "tok") (Some 3600))
           eq_refl eq_refl eq_refl eq_refl eq_refl eq_refl eq_refl
           ltac:(discriminate)).
Defined.

Lemma dwollaPost_effort_witness :
  let rt := sample_runtime transfer_rejected in
  let w' := (dwollaPost rt sample_env "transfers" sample_transfer 3
               empty_world).2 in
  (net_calls empty_world <= net_calls w' <= net_calls empty_world + 2 * 3)%nat
  /\ clock empty_world <= clock w'
      <= clock empty_world + 5000 * Z.of_nat (3 - 1)
  /\ (3%nat = 3%nat -> clock w' <= clock empty_world + 3000).
Proof.
  apply (dwollaPost_effort_bounded (sample_runtime transfer_rejected)
           sample_env "transfers" sample_transfer 3 empty_world).
Defined.

Lemma dwollaPost_undefined_witness :
  ((dwollaPost (sample_runtime []) sample_env "transfers" sample_transfer 0
      empty_world).1 = Ok None <-> 0%nat = 0%nat)
  /\ dwollaPost (sample_runtime []) sample_env "transfers" sample_transfer 0
       empty_world
     = (Ok None, empty_world).
Proof.
  apply (dwollaPost_undefined_only_without_attempts (sample_runtime [])
           sample_env "transfers" sample_transfer 0 empty_world).
Defined.

Lemma transfer_reported_witness :
  let rt := sample_runtime transfer_created in
  let w' := mkWorld (mkDb ∅ [] []) None 0 0 0
              (mkTokenCache (Some "tok") (Some 3540000)) 2 in
  dwollaPost rt sample_env "transfers" sample_transfer 3 empty_world
  = (Ok (Some (Some "https://api.dwolla.com/transfers/t1")), w')
  /\ exists tok res,
       fetch rt (Nat.pred (net_calls w')) (ApiPost "transfers" tok sample_transfer)
       = FetchResolves res
       /\ res_ok res = true
       /\ location res = Some "https://api.dwolla.com/transfers/t1"
       /\ (net_calls empty_world < net_calls w')%nat.
Proof.
  split; [reflexivity |].
  apply (transfer_reported_only_after_success (sample_runtime transfer_created)
           sample_env "transfers" sample_transfer 3 empty_world _ _ eq_refl).
Defined.

Lemma server_error_witness :
  let rt := sample_runtime
              [api_answers 500 "" None; api_answers 503 "" None;
               api_answers 500 "down" None] in
  dwollaPost rt sample_env "transfers" sample_transfer 3 world_with_token
  = (Throw (mkError "Dwolla API error: 500 - down"),
     set_net_calls 3 (set_clock 3000 world_with_token)).
Proof.
  apply (server_error_exhausts_backoff
           (sample_runtime
              [api_answers 500 "" None; api_answers 503 "" None;
               api_answers 500 "down" None])
           sample_env "transfers" sample_transfer world_with_token
           (mkHttpResponse 500 "" None None) (mkHttpResponse 503 "" None None)
           (mkHttpResponse 500 "down" None None)).
  - intros t Ht. cbn in Ht. unfold cache_valid. cbn.
    apply Z.ltb_lt. lia.
  - reflexivity.
  - reflexivity.
  - reflexivity.
  - cbn. lia.
  - cbn. lia.
  - cbn. lia.
Defined.

Lemma expired_credential_witness :
  let rt := sample_runtime
              [api_answers 401 "" None; token_granted;
               api_answers 201 "" (Some "https://api.dwolla.com/transfers/t1")] in
  dwollaPost rt sample_env "transfers" sample_transfer 3 world_with_token
  = (Ok (Some (Some "https://api.dwolla.com/transfers/t1")),
     mkWorld (mkDb ∅ [] []) None 0 0 1000
       (mkTokenCache (Some "tok") (Some 3541000)) 3).
Proof.
  apply (expired_credential_refreshed
           (sample_runtime
              [api_answers 401 "" None; token_granted;
               api_answers 201 "" (Some "https://api.dwolla.com/transfers/t1")])
           sample_env "transfers" sample_transfer world_with_token
           "key" "secret"
           (mkHttpResponse 401 "" None None)
           (mkHttpResponse 200 "" None
              (Some (mkTokenJson (Some "tok") (Some 3600))))
           (mkHttpResponse 201 "" (Some "https://api.dwolla.com/transfers/t1")
              None)
           (mkTokenJson (Some "tok") (Some 3600))
           eq_refl eq_refl eq_refl eq_refl eq_refl eq_refl eq_refl eq_refl
           eq_refl eq_refl).
Defined.

Lemma refused_token_witness :
  let rt := sample_runtime
              [api_answers 401 "invalid_client" None;
               api_answers 401 "invalid_client" None;
               api_answers 401 "invalid_client" None] in
  dwollaPost rt sample_env "transfers" sample_transfer 3 empty_world
  = (Throw (mkError "Dwolla token request failed: 401 - invalid_client"),
     set_net_calls 3 empty_world).
Proof.
  apply (refused_token_request_is_repeated
           (sample_runtime
              [api_answers 401 "invalid_client" None;
               api_answers 401 "invalid_client" None;
               api_answers 401 "invalid_client" None])
           sample_env "transfers" sample_transfer 3 empty_world "key" "secret"
           (fun _ => mkHttpResponse 401 "invalid_client" None None)
           eq_refl eq_refl eq_refl).
  - intros [| [| [| k]]] Hk; try (split; reflexivity). lia.
  - lia.
Defined.

Lemma missing_credentials_witness :
  dwollaPost (sample_runtime []) unconfigured_env "transfers" sample_transfer 3
    empty_world
  = (Throw (TypeError "trim"), empty_world).
Proof.
  apply (missing_credentials_fail_without_request (sample_runtime [])
           unconfigured_env "transfers" sample_transfer 3 empty_world eq_refl).
  - by left.
  - lia.
Defined.

(** ** Usage Recorder *)

Section UsageRecorderProps.
Variable rt : Runtime.
Variable env : ProcessEnv.

(** X9.  The two bearer-protected endpoints check the credential before
    anything else: a usage submission whose Authorization header is not
    exactly [Bearer <GHL_BEARER>], or a billing request whose header is
    not exactly [Bearer admin] (a missing header included), is answered
    401 whatever the [db] object is, and the world is left as it was: no
    statement, no network call. *)
Theorem unauthorized_requests_touch_nothing (db : DbHandle) (w : World) :
  (forall req, ghl_authorization req
               <> Some ("Bearer " ++ template (GHL_BEARER env)) ->
     createGhlUsageHandler rt env db req w = (Ok (sendStatus 401), w))
  /\ (forall req, bill_authorization req <> Some "Bearer admin" ->
        bill_week rt env db req w = (Ok (sendStatus 401), w)).
Proof.
  split; intros req Hauth.
  - unfold createGhlUsageHandler, try_catch. by rewrite bool_decide_eq_false_2.
  - unfold bill_week, try_catch. by rewrite bool_decide_eq_false_2.
Qed.


(** X11.  The customer upsert and the usage insert are one transaction.
    On a PostgreSQL that may fail statements, an authenticated, valid
    submission either runs exactly as on a reliable server, or is
    answered 500 with the committed tables as they were and no
    transaction left open: in particular a customer upsert whose usage
    insert or COMMIT fails is rolled back. *)
Theorem usage_transaction_all_or_nothing (db : DbHandle) (req : GhlRequest)
  (w : World) :
  faulty_pg rt db ->
  authorized env req ->
  well_formed rt (JObject (ghl_body req)) ->
  txn w = None ->
  createGhlUsageHandler rt env db req w
  = createGhlUsageHandler rt env (pg_query rt) req w
  \/ exists w',
       createGhlUsageHandler rt env db req w
       = (Ok (mkResponse 500 InternalServerError), w')
       /\ store w' = store w
       /\ txn w' = None.
Proof.
  intros (Hbegin & Hrollback & Hany) Hauth Hwf Htxn.
  destruct (well_formed_keys rt _ Hwf) as (cid & k & Hcid & Hk).
  rewrite (createGhlUsageHandler_run rt env req w cid k Hauth Hwf Hcid Hk Htxn).
  cbv zeta.
  apply validateUsageWebhook_spec in Hwf.
  unfold createGhlUsageHandler, try_catch, try_finally.
  rewrite bool_decide_eq_true_2 by exact Hauth.
  cbv zeta. cbn [negb]. rewrite Hwf. cbn [length Nat.ltb Nat.leb].
  rewrite Hcid, Hk.
  destruct w as [st tx useq iseq ck tc nc]. cbn in Htxn. subst tx.
  rewrite !run_bind, Hbegin.
  change (pg_query rt unit BEGIN (mkWorld st None useq iseq ck tc nc))
    with (Ok ([] : list unit),
          mkWorld st (Some (mkTxn st ck)) useq iseq ck tc nc).
  cbv beta iota.
  set (w0 := mkWorld st (Some (mkTxn st ck)) useq iseq ck tc nc).
  rewrite run_bind.
  destruct (Hany _ (UpsertCustomer (JStr cid) (get (JObject (ghl_body req)) "name")
                      (get (JObject (ghl_body req)) "email")) w0)
    as [-> | (e & ->)].
  2:{ right. rewrite run_bind, Hrollback. cbn. eauto. }
  change (pg_query rt unit (UpsertCustomer (JStr cid) _ _) w0)
    with (Ok ([] : list unit),
          mkWorld st
            (Some (mkTxn (upsert_customer cid
                            (pg_text rt (get (JObject (ghl_body req)) "name"))
                            (pg_text rt (get (JObject (ghl_body req)) "email"))
                            st) ck))
            useq iseq ck tc nc).
  cbv beta iota. rewrite run_bind.
  match goal with
  | |- context [db Z ?q ?w1] =>
      destruct (Hany _ q w1) as [-> | (e & ->)]
  end.
  2:{ right. rewrite run_bind, Hrollback. cbn. eauto. }
  cbv [pg_query pg_text current write txn working started set_usage_seq
       usage_ledger_id_seq store invoices_id_seq clock tokenCache net_calls
       set_txn].
  destruct (insert_usage _ _ _ _ _ _) as [d rows] eqn:Hins.
  cbv beta iota. rewrite run_bind.
  match goal with
  | |- context [db _ COMMIT ?w1] =>
      destruct (Hany _ COMMIT w1) as [-> | (e & ->)]
  end.
  2:{ right. rewrite run_bind, Hrollback. cbn. eauto. }
  left. reflexivity.
Qed.

(** X12.  The usage endpoint cannot make a customer billable.  Whatever the
    request, a customer the billing query returns after it was already
    there before it, active and with a funding source: a customer first
    seen by the usage endpoint is created [pending] without a funding
    source, and an existing one keeps its status and funding source. *)
Theorem usage_never_grants_billing (req : GhlRequest) (w : World)
  (start end_ : Z) (c : BillableRow) :
  txn w = None ->
  c ∈ select_billable start end_
        (store (createGhlUsageHandler rt env (pg_query rt) req w).2) ->
  exists cust,
    customers (store w) !! row_crm_contact_id c = Some cust
    /\ status cust = Some "active"
    /\ dwolla_funding_href cust <> None.
Proof.
  intros Htxn Hc.
  pose proof (select_billable_qualifying start end_
                (store (createGhlUsageHandler rt env (pg_query rt) req w).2))
    as Hqual.
  rewrite Forall_forall in Hqual.
  destruct (Hqual c Hc) as (cust' & Hcust' & Hactive & Hfunded & _).
  clear Hqual Hc. revert Hcust'.
  destruct (decide (ghl_authorization req
                    = Some ("Bearer " ++ template (GHL_BEARER env))))
    as [Hauth | Hauth].
  2:{ unfold createGhlUsageHandler, try_catch.
      rewrite bool_decide_eq_false_2 by done. cbn [negb snd]. eauto. }
  destruct (validateUsageWebhook rt (JObject (ghl_body req))) eqn:Hval.
  2:{ unfold createGhlUsageHandler, try_catch.
      rewrite bool_decide_eq_true_2 by done. cbv zeta.
      rewrite Hval. cbn. eauto. }
  apply validateUsageWebhook_spec in Hval.
  destruct (well_formed_keys rt _ Hval) as (cid & k & Hcid & Hk).
  rewrite (createGhlUsageHandler_run rt env req w cid k Hauth Hval Hcid Hk Htxn).
  cbv zeta. cbn [snd store].
  assert (Hcustomers : forall d id u t,
            customers (insert_usage id k cid u t d).1 = customers d).
  { intros d id u t. unfold insert_usage. by destruct (key_taken _ _). }
  rewrite Hcustomers. cbn [customers upsert_customer].
  destruct (decide (row_crm_contact_id c = cid)) as [-> | Hne].
  - rewrite lookup_insert_eq. intros [= <-].
    destruct (customers (store w) !! cid) as [c0 |]; [| discriminate Hactive].
    exists c0. by repeat split.
  - rewrite lookup_insert_ne by done. eauto.
Qed.

End UsageRecorderProps.

Lemma pg_read_only_faulty (rt : Runtime) : faulty_pg rt (pg_read_only rt).
Proof.
  repeat split; try done.
  intros R q w. destruct q; try (by left); right; by eexists.
Qed.

Lemma unauthorized_requests_witness :
  (forall req, ghl_authorization req
               <> Some ("Bearer " ++ template (GHL_BEARER sample_env)) ->
     createGhlUsageHandler (sample_runtime []) sample_env
       (pg_query (sample_runtime [])) req billing_world
     = (Ok (sendStatus 401), billing_world))
  /\ (forall req, bill_authorization req <> Some "Bearer admin" ->
        bill_week (sample_runtime []) sample_env (pg_query (sample_runtime []))
          req billing_world
        = (Ok (sendStatus 401), billing_world)).
Proof.
  apply (unauthorized_requests_touch_nothing (sample_runtime []) sample_env
           (pg_query (sample_runtime [])) billing_world).
Defined.


Lemma usage_transaction_witness :
  let rt := sample_runtime [] in
  let req := usage_request "John Doe" 3 "CUSTOMER123-test-1" in
  createGhlUsageHandler rt sample_env (pg_read_only rt) req empty_world
  = createGhlUsageHandler rt sample_env (pg_query rt) req empty_world
  \/ exists w',
       createGhlUsageHandler rt sample_env (pg_read_only rt) req
         empty_world
       = (Ok (mkResponse 500 InternalServerError), w')
       /\ store w' = store empty_world
       /\ txn w' = None.
Proof.
  apply (usage_transaction_all_or_nothing (sample_runtime []) sample_env
           (pg_read_only (sample_runtime []))
           (usage_request "John Doe" 3 "CUSTOMER123-test-1") empty_world
           (pg_read_only_faulty (sample_runtime []))
           eq_refl
           (usage_request_well_formed "John Doe" 3 "CUSTOMER123-test-1"
              eq_refl ltac:(discriminate))
           eq_refl).
Defined.

(** On a read-only server the answer is 500 and nothing is recorded. *)
Example read_only_server_records_nothing :
  let rt := sample_runtime [] in
  createGhlUsageHandler rt sample_env (pg_read_only rt)
    (usage_request "John Doe" 3 "CUSTOMER123-test-1") empty_world
  = (Ok (mkResponse 500 InternalServerError), empty_world).
Proof. reflexivity. Qed.

Lemma usage_never_grants_witness :
  let rt := sample_runtime [] in
  let req := usage_request "John Doe" 3 "CUSTOMER123-test-3" in
  let c := mkBillableRow "CUSTOMER123" (Some "John Doe")
             (Some "john@example.com")
             (Some "https://api.dwolla.com/funding-sources/customer")
             (Fin 8) in
  exists cust,
    customers (store billing_world) !! row_crm_contact_id c = Some cust
    /\ status cust = Some "active"
    /\ dwolla_funding_href cust <> None.
Proof.
  apply (usage_never_grants_billing (sample_runtime []) sample_env
           (usage_request "John Doe" 3 "CUSTOMER123-test-3") billing_world
           1736395200000 1737000000000
           (mkBillableRow "CUSTOMER123" (Some "John Doe")
              (Some "john@example.com")
              (Some "https://api.dwolla.com/funding-sources/customer")
              (Fin 8))
           eq_refl).
  vm_compute. left.
Defined.

(** ** Billing Aggregator *)

Section BillingProps.
Variable rt : Runtime.
Variable env : ProcessEnv.

Lemma js_add_inject_Z (a b : Z) :
  js_add (Fin (inject_Z a)) (Fin (inject_Z b)) = Fin (inject_Z (a + b)).
Proof.
  cbn. unfold Qplus, inject_Z. cbn. do 2 f_equal. lia.
Qed.

Lemma billing_steps_summary (start end_ : Z) (rows : list BillableRow)
  (x z : Results * World) :
  billing_steps start end_ rows x z ->
  exists new,
    invoices (store z.2) = (invoices (store x.2) ++ new)%list
    /\ (successful z.1 = successful x.1 + length new)%nat
    /\ (successful z.1 + failed z.1 + skipped z.1
        = successful x.1 + failed x.1 + skipped x.1 + length rows)%nat
    /\ total z.1 = total x.1
    /\ (length (errors z.1) + failed x.1
        = length (errors x.1) + failed z.1)%nat
    /\ forall a, total_amount_cents x.1 = Fin (inject_Z a) ->
         total_amount_cents z.1 = Fin (inject_Z (a + amounts_sum new)).
Proof.
  induction 1 as [x | c rest x y z Hstep _ IH].
  { exists []. rewrite app_nil_r.
    split; [done |]. split; [cbn; lia |]. split; [cbn; lia |].
    split; [done |]. split; [lia |].
    intros a ->. cbn. by rewrite Z.add_0_r. }
  destruct IH as (new & Hinv & Hsucc & Hsum & Htot & Herr & Hcents).
  inversion Hstep as [results w Hamt | results w e w' Hamt Hsame
                     | results w location amount now w' Hamt Hint Hst Htx' Hus'
                         His']; subst; cbn [fst snd] in *.
  - exists new. cbn in *. repeat split; try done; lia.
  - destruct Hsame as (Hst1 & _). rewrite Hst1 in Hinv.
    exists new. cbn in *. rewrite length_app in Herr. cbn in Herr.
    repeat split; try done; lia.
  - rewrite Hst in Hinv. cbn [invoices claim_usage insert_invoice] in Hinv.
    rewrite <- app_assoc in Hinv.
    eexists. split; [exact Hinv |]. cbn in *.
    repeat split; try done; try lia.
    intros a Ha. rewrite (Hcents (a + amount)).
    + unfold amounts_sum. cbn. do 2 f_equal. lia.
    + rewrite Ha. unfold amountCents_of in *.
      rewrite (pg_int_Math_round _ _ Hint). apply js_add_inject_Z.
Qed.

(** X13.  The summary of a billing run adds up: [total] is the number of
    rows of the billing query and equals [successful + failed + skipped];
    [successful] is the number of invoices the run appended; [errors] has
    one entry per failure; and [total_amount_cents] is the sum of the
    amounts of the appended invoices. *)
Theorem billing_summary_adds_up (req : BillRequest) (w : World) :
  txn w = None ->
  bill_authorization req = Some "Bearer admin" ->
  exists start end_ results w' new,
    bill_week rt env (pg_query rt) req w
    = (Ok (mkResponse 200 (BillingSummary start end_ results)), w')
    /\ invoices (store w') = (invoices (store w) ++ new)%list
    /\ total results = length (select_billable start end_ (store w))
    /\ (successful results + failed results + skipped results
        = total results)%nat
    /\ successful results = length new
    /\ length (errors results) = failed results
    /\ total_amount_cents results = Fin (inject_Z (amounts_sum new)).
Proof.
  intros Htxn Hauth.
  destruct (bill_week_run rt env req w Htxn Hauth)
    as (results & w' & Hrun & _ & Hsteps).
  destruct (billing_steps_summary _ _ _ _ _ Hsteps)
    as (new & Hinv & Hsucc & Hsum & Htot & Herr & Hcents).
  cbn [fst snd initial_results successful failed skipped total errors
       total_amount_cents length] in *.
  eexists _, _, results, w', new.
  split; [exact Hrun |]. split; [exact Hinv |].
  split; [exact Htot |]. split; [lia |]. split; [lia |]. split; [lia |].
  by apply (Hcents 0).
Qed.

Lemma filter_none {A} (f : A -> bool) (l : list A) :
  (forall a, a ∈ l -> f a = false) -> List.filter f l = [].
Proof.
  induction l as [| a l IH]; [done |]. intros Hl. cbn.
  rewrite (Hl a) by left. apply IH. intros b Hb. apply Hl. by right.
Qed.

Lemma usage_total_none (start end_ : Z) (cid : string) (l : list UsageRow) :
  (forall r, r ∈ l -> qualifies start end_ cid r = false) ->
  usage_total start end_ cid l = Fin 0.
Proof. intros Hl. unfold usage_total. by rewrite filter_none. Qed.

Lemma select_billable_none (start end_ : Z) (d : Db) :
  (forall cid r, r ∈ usage_ledger d -> qualifies start end_ cid r = false) ->
  select_billable start end_ d = [].
Proof.
  intros Hnone. unfold select_billable.
  induction (map_to_list (customers d)) as [| kc l IH]; [done |].
  cbn [omap list_omap]. unfold billable_row at 1.
  rewrite usage_total_none by (intros r Hr; by apply Hnone).
  cbn [pg_gt0]. rewrite !andb_false_r. exact IH.
Qed.

(** X14.  When no unbilled usage falls in the window of the run (the
    ledger may be empty), the run answers 200 with an all-zero summary
    and does nothing else: no transaction, no network call, the world is
    exactly as before. *)
Theorem idle_window_bills_nothing (req : BillRequest) (w : World) :
  txn w = None ->
  bill_authorization req = Some "Bearer admin" ->
  let end_ := startOfWeek rt (clock w) in
  let start := minusOneWeek rt end_ in
  (forall r, r ∈ usage_ledger (store w) ->
     in_window start end_ (occurred_at r) = false \/ invoice_id r <> None) ->
  bill_week rt env (pg_query rt) req w
  = (Ok (mkResponse 200 (BillingSummary start end_ (initial_results 0))), w).
Proof.
  intros Htxn Hauth end_ start Hidle.
  assert (Hrows : select_billable start end_ (store w) = []).
  { apply select_billable_none. intros cid r Hr. unfold qualifies, unbilled.
    destruct (Hidle r Hr) as [-> | Hbilled].
    - by rewrite andb_false_r.
    - destruct (invoice_id r); [by rewrite andb_false_r | done]. }
  unfold bill_week, try_catch.
  rewrite bool_decide_eq_true_2 by done. cbn [negb].
  rewrite run_bind. cbn [get_world]. cbv beta iota zeta.
  rewrite run_bind.
  rewrite pg_select_billable by done.
  cbv beta iota. fold end_ start. rewrite Hrows. reflexivity.
Qed.

Lemma claimed_after_not_qualifying (start end_ : Z) (cid : string)
  (seq0 seq1 : Z) (r r' : UsageRow) :
  claimed_after seq0 seq1 r r' ->
  qualifies start end_ cid r = false ->
  qualifies start end_ cid r' = false.
Proof.
  intros [-> | (_ & j & _ & ->)] Hq; [done |].
  unfold qualifies, unbilled. cbn. by rewrite andb_false_r.
Qed.

Lemma claim_usage_settles (start end_ : Z) (id : Z) (cid : string) (d : Db)
  (r : UsageRow) :
  r ∈ usage_ledger (claim_usage id cid start end_ d) ->
  qualifies start end_ cid r = false.
Proof.
  cbn [usage_ledger claim_usage]. intros (r0 & -> & _)%list_elem_of_fmap.
  destruct (qualifies start end_ cid r0) eqn:Hq; [| done].
  unfold qualifies, unbilled. cbn. by rewrite andb_false_r.
Qed.

Lemma billing_steps_settle (start end_ : Z) (rows : list BillableRow)
  (x z : Results * World) :
  billing_steps start end_ rows x z ->
  exists new,
    invoices (store z.2) = (invoices (store x.2) ++ new)%list
    /\ forall i r, i ∈ new -> r ∈ usage_ledger (store z.2) ->
         qualifies start end_ (inv_crm_contact_id i) r = false.
Proof.
  induction 1 as [x | c rest x y z Hstep Hsteps IH].
  { exists []. rewrite app_nil_r. split; [done |]. intros i r Hi. inversion Hi. }
  destruct IH as (new & Hinv & Hsettled).
  pose proof (billing_steps_ledger _ _ _ _ _ Hsteps) as Hledger.
  inversion Hstep as [results w Hamt | results w e w' Hamt Hsame
                     | results w location amount now w' Hamt Hint Hst Htx' Hus'
                         His']; subst; cbn [fst snd] in *.
  - by exists new.
  - destruct Hsame as (Hst1 & _). rewrite Hst1 in Hinv. by exists new.
  - rewrite Hst in Hinv. cbn [invoices claim_usage insert_invoice] in Hinv.
    rewrite <- app_assoc in Hinv.
    eexists. split; [exact Hinv |].
    intros i r [-> | Hi]%elem_of_cons Hr; [| by apply Hsettled].
    cbn [inv_crm_contact_id].
    destruct (Forall2_elem_of_r _ _ _ _ Hledger Hr) as (r0 & Hr0 & Hafter).
    eapply claimed_after_not_qualifying; [exact Hafter |].
    rewrite Hst in Hr0.
    by apply (claim_usage_settles start end_ _ _ _ r0 Hr0).
Qed.

(** X15.  A run claims all the usage it charges for: once it is over,
    the billing query over the same window returns none of the customers
    the run has invoiced, so running the job again at once cannot invoice
    them a second time. *)
Theorem billed_customer_leaves_query (req : BillRequest) (w : World) :
  txn w = None ->
  bill_authorization req = Some "Bearer admin" ->
  let end_ := startOfWeek rt (clock w) in
  let start := minusOneWeek rt end_ in
  let w' := (bill_week rt env (pg_query rt) req w).2 in
  exists new,
    invoices (store w') = (invoices (store w) ++ new)%list
    /\ forall i c, i ∈ new -> c ∈ select_billable start end_ (store w') ->
         row_crm_contact_id c <> inv_crm_contact_id i.
Proof.
  intros Htxn Hauth end_ start w'.
  destruct (bill_week_run rt env req w Htxn Hauth)
    as (results & w1 & Hrun & _ & Hsteps).
  subst w'. rewrite Hrun. cbn [snd].
  destruct (billing_steps_settle _ _ _ _ _ Hsteps) as (new & Hinv & Hsettled).
  cbn [fst snd] in *. exists new. split; [exact Hinv |].
  intros i c Hi Hc Heq.
  pose proof (select_billable_qualifying start end_ (store w1)) as Hqual.
  rewrite Forall_forall in Hqual.
  destruct (Hqual c Hc) as (cust & _ & _ & _ & _ & Hunits & Hgt).
  rewrite Hunits, Heq, usage_total_none in Hgt; [done |].
  intros r Hr. by apply Hsettled.
Qed.

Lemma billing_steps_claims (start end_ : Z) (rows : list BillableRow)
  (x z : Results * World) :
  billing_steps start end_ rows x z ->
  Forall2 (claimed_for start end_ rows)
    (usage_ledger (store x.2)) (usage_ledger (store z.2)).
Proof.
  induction 1 as [x | c rest x y z Hstep _ IH].
  { apply Forall_Forall2_diag, Forall_forall. intros r _. by left. }
  assert (Hfirst : Forall2 (claimed_for start end_ [c])
                     (usage_ledger (store x.2)) (usage_ledger (store y.2))).
  { inversion Hstep as [results w Hamt | results w e w' Hamt Hsame
                       | results w location amount now w' Hamt Hint Hst Htx'
                           Hus' His']; subst; cbn [fst snd] in *.
    - apply Forall_Forall2_diag, Forall_forall. intros r _. by left.
    - destruct Hsame as (-> & _).
      apply Forall_Forall2_diag, Forall_forall. intros r _. by left.
    - rewrite Hst. cbn [usage_ledger claim_usage insert_invoice].
      apply Forall2_fmap_r, Forall_Forall2_diag, Forall_forall.
      intros r _. unfold compose.
      destruct (qualifies start end_ (row_crm_contact_id c) r) eqn:Hq;
        [| by left].
      right. exists c, (invoices_id_seq w + 1).
      split; [by left | done]. }
  eapply (Forall2_trans _ _ _ _ _ _
            (fun r1 r2 r3 (H12 : claimed_for start end_ [c] r1 r2)
                 (H23 : claimed_for start end_ rest r2 r3) => _)
            Hfirst IH).
  Unshelve.
  destruct H12 as [-> | (c1 & j1 & Hc1 & Hq1 & ->)].
  - destruct H23 as [-> | (c2 & j2 & Hc2 & Hq2 & ->)]; [by left |].
    right. exists c2, j2. split; [by right | done].
  - apply list_elem_of_singleton in Hc1 as ->.
    destruct H23 as [-> | (c2 & j2 & _ & Hq2 & _)].
    + right. exists c, j1. split; [by left | done].
    + unfold qualifies, unbilled in Hq2. cbn in Hq2.
      by rewrite andb_false_r in Hq2.
Qed.

(** X16.  A run leaves every usage row at its place, and either as it
    was or claimed; a row is claimed only if it had no invoice, its time
    lies in the window [start, end) of the run, and its customer was
    active with a funding source when the run started.  Usage outside the
    window, and usage of pending or unfunded customers, is never
    touched. *)
Theorem run_claims_only_window_usage (req : BillRequest) (w : World)
  (k : nat) (r : UsageRow) :
  txn w = None ->
  bill_authorization req = Some "Bearer admin" ->
  usage_ledger (store w) !! k = Some r ->
  let end_ := startOfWeek rt (clock w) in
  let start := minusOneWeek rt end_ in
  let w' := (bill_week rt env (pg_query rt) req w).2 in
  usage_ledger (store w') !! k = Some r
  \/ exists j cust,
       usage_ledger (store w') !! k = Some (claim j r)
       /\ start <= occurred_at r < end_
       /\ invoice_id r = None
       /\ customers (store w) !! usage_crm_contact_id r = Some cust
       /\ status cust = Some "active"
       /\ dwolla_funding_href cust <> None.
Proof.
  intros Htxn Hauth Hk end_ start w'.
  destruct (bill_week_run rt env req w Htxn Hauth)
    as (results & w1 & Hrun & _ & Hsteps).
  subst w'. rewrite Hrun. cbn [snd].
  pose proof (billing_steps_claims _ _ _ _ _ Hsteps) as Hclaims.
  cbn [fst snd] in Hclaims.
  destruct (Forall2_lookup_l _ _ _ _ _ Hclaims Hk) as (r' & Hk' & Hr').
  destruct Hr' as [-> | (c & j & Hc & Hq & ->)]; [by left |].
  right.
  pose proof (select_billable_qualifying
                (minusOneWeek rt (startOfWeek rt (clock w)))
                (startOfWeek rt (clock w)) (store w)) as Hqual.
  rewrite Forall_forall in Hqual.
  destruct (Hqual c Hc) as (cust & Hcust & Hactive & Hfunded & _).
  exists j, cust. split; [exact Hk' |].
  rewrite (qualifies_customer _ _ _ _ Hq).
  pose proof (qualifies_unbilled _ _ _ _ Hq) as Hnone.
  unfold qualifies, in_window in Hq.
  apply andb_true_iff in Hq as [[_ [Hs He]%andb_true_iff]%andb_true_iff _].
  apply Z.leb_le in Hs. apply Z.ltb_lt in He.
  by repeat split.
Qed.

Lemma write_in_txn (d : Db) (w : World) (t : Txn) :
  txn w = Some t ->
  store (write d w) = store w /\ txn (write d w) = Some (mkTxn d (started t)).
Proof. intros Ht. unfold write. by rewrite Ht. Qed.

(** X17.  The transfer is requested before the invoice is written, inside
    the customer's transaction.  On a PostgreSQL that may fail
    statements, a customer whose transfer the processor has created is
    either handled exactly as on a reliable server, or counted under
    [failed] with the committed tables as they were: the created transfer
    is then left without an invoice, and the usage, still unclaimed, will
    be charged again by the next run. *)
Theorem created_transfer_may_lack_invoice (db : DbHandle) (start end_ : Z)
  (c : BillableRow) (results : Results) (w w2 : World)
  (location : option string) :
  faulty_pg rt db ->
  txn w = None ->
  js_le0 (amountCents_of c) = false ->
  dwollaPost rt env "transfers" (transfer_of env start end_ c) 3 (begun w)
  = (Ok (Some location), w2) ->
  bill_customer rt env db start end_ c results w
  = bill_customer rt env (pg_query rt) start end_ c results w
  \/ exists e w',
       bill_customer rt env db start end_ c results w
       = (Ok (count_failed (row_crm_contact_id c) e results), w')
       /\ store w' = store w
       /\ txn w' = None.
Proof.
  intros (Hbegin & Hrollback & Hany) Htxn Hamount Hpost.
  rewrite (bill_customer_run rt env start end_ c results w w2 _ Htxn Hamount
             Hpost).
  cbv zeta.
  pose proof (frames_dwollaPost rt env "transfers" (transfer_of env start end_ c)
                3 (begun w)) as Hframe.
  rewrite Hpost in Hframe. destruct Hframe as (Hst & Htx & Hus & His).
  cbn in Hst, Htx, Hus, His.
  unfold bill_customer. fold (amountCents_of c). rewrite Hamount.
  fold (transfer_of env start end_ c).
  unfold try_finally, try_catch. rewrite run_bind.
  rewrite Hbegin, (pg_begin rt w Htxn).
  rewrite run_bind, Hpost. step. step.
  match goal with
  | |- context [db Z ?q w2] => destruct (Hany _ q w2) as [-> | (e & ->)]
  end.
  2:{ right. rewrite run_bind, Hrollback, pg_rollback. step.
      eexists _, _. split; [reflexivity |]. by split. }
  rewrite pg_insert_invoice.
  destruct (pg_int (amountCents_of c)) as [amount |].
  2:{ left. by rewrite run_bind, Hrollback, pg_rollback. }
  step. step.
  match goal with
  | |- context [db unit ?q ?w3] =>
      destruct (Hany _ q w3) as [-> | (e & ->)]
  end.
  2:{ right. rewrite run_bind, Hrollback, pg_rollback. step.
      eexists _, _. split; [reflexivity |]. split; [| done].
      cbn [store set_txn].
      by destruct (write_in_txn
                     (insert_invoice (invoices_id_seq w2 + 1)
                        (row_crm_contact_id c) start end_ amount location
                        (now_sql w2) (current w2))
                     (set_invoices_seq (invoices_id_seq w2 + 1) w2) _ Htx)
        as [-> _]. }
  rewrite pg_claim_usage. step.
  match goal with
  | |- context [db unit COMMIT ?w4] =>
      destruct (Hany _ COMMIT w4) as [-> | (e & ->)]
  end.
  2:{ right. rewrite run_bind, Hrollback, pg_rollback. step.
      eexists _, _. split; [reflexivity |]. split; [| done].
      cbn [store set_txn].
      destruct (write_in_txn
                  (insert_invoice (invoices_id_seq w2 + 1)
                     (row_crm_contact_id c) start end_ amount location
                     (now_sql w2) (current w2))
                  (set_invoices_seq (invoices_id_seq w2 + 1) w2) _ Htx)
        as [Hst3 Htx3].
      match goal with
      | |- store (write ?d ?w3) = _ =>
          destruct (write_in_txn d w3 _ Htx3) as [-> _]
      end.
      by rewrite Hst3. }
  left. rewrite pg_commit. step.
  destruct w2 as [st2 tx2 us2 is2 ck2 tc2 nc2]. cbn in *. subst.
  reflexivity.
Qed.

(** X18.  The validation lets [units] through when they convert to
    [Infinity] (for instance the string "Infinity").  A customer whose
    unbilled units sum to [Infinity] (or NaN) is not skipped, since the
    amount is not [<= 0]: the run requests the transfer, and when the
    processor creates it (the run's last fetch call is the POST of this
    transfer, answered with an ok status), the invoice insert fails on the
    [int] column; the customer is counted under [failed] with that error,
    no table is changed and no invoice identifier is drawn.  The usage
    stays unbilled, so every later run does the same. *)
Theorem infinite_usage_blocks_billing (start end_ : Z) (c : BillableRow)
  (results : Results) (w w2 : World) (loc : option string) :
  txn w = None ->
  row_units c = Inf false \/ row_units c = NaN ->
  dwollaPost rt env "transfers" (transfer_of env start end_ c) 3 (begun w)
  = (Ok (Some loc), w2) ->
  (forall body,
     non_empty_string (get body "crm_contact_id") ->
     non_empty_string (get body "idempotency_key") ->
     valid_point_in_time rt (get body "occurred_at") ->
     Number rt (get body "units") = Inf false ->
     validateUsageWebhook rt body = [])
  /\ js_le0 (amountCents_of c) = false
  /\ (exists tok res,
        fetch rt (Nat.pred (net_calls w2))
          (ApiPost "transfers" tok (transfer_of env start end_ c))
        = FetchResolves res
        /\ res_ok res = true
        /\ location res = loc
        /\ (net_calls w < net_calls w2)%nat)
  /\ bill_customer rt env (pg_query rt) start end_ c results w
     = (Ok (count_failed (row_crm_contact_id c)
              (mkError "invalid input syntax for type integer") results),
        set_txn None w2)
  /\ store w2 = store w
  /\ invoices_id_seq w2 = invoices_id_seq w.
Proof.
  intros Htxn Hunits Hpost.
  split.
  { intros body Hcid Hkey Htime Hnumber. apply validateUsageWebhook_spec.
    unfold well_formed. by rewrite Hnumber. }
  assert (Hamount : js_le0 (amountCents_of c) = false
                    /\ pg_int (amountCents_of c) = None).
  { unfold amountCents_of. by destruct Hunits as [-> | ->]. }
  destruct Hamount as [Hle Hint].
  split; [exact Hle |]. split.
  { by apply (dwollaPost_from_return rt env "transfers" _ 3 3 1 (begun w)). }
  pose proof (bill_customer_run rt env start end_ c results w w2 _ Htxn Hle
                Hpost) as Hrun.
  cbv zeta in Hrun. rewrite Hint in Hrun.
  split; [exact Hrun |].
  pose proof (frames_dwollaPost rt env "transfers" (transfer_of env start end_ c)
                3 (begun w)) as Hframe.
  rewrite Hpost in Hframe. destruct Hframe as (Hst & _ & _ & His).
  by split.
Qed.

End BillingProps.

Lemma billing_summary_witness :
  let rt := sample_runtime transfer_created in
  exists start end_ results w' new,
    bill_week rt sample_env (pg_query rt) billing_request billing_world
    = (Ok (mkResponse 200 (BillingSummary start end_ results)), w')
    /\ invoices (store w') = (invoices (store billing_world) ++ new)%list
    /\ total results = length (select_billable start end_ (store billing_world))
    /\ (successful results + failed results + skipped results
        = total results)%nat
    /\ successful results = length new
    /\ length (errors results) = failed results
    /\ total_amount_cents results = Fin (inject_Z (amounts_sum new)).
Proof.
  apply (billing_summary_adds_up (sample_runtime transfer_created) sample_env
           billing_request billing_world eq_refl eq_refl).
Defined.

Lemma idle_window_witness :
  let rt := sample_runtime [] in
  bill_week rt sample_env (pg_query rt) billing_request billed_world
  = (Ok (mkResponse 200
           (BillingSummary 1736395200000 1737000000000 (initial_results 0))),
     billed_world).
Proof.
  apply (idle_window_bills_nothing (sample_runtime []) sample_env
           billing_request billed_world eq_refl eq_refl).
  intros r Hr. right.
  apply elem_of_cons in Hr as [-> | Hr]; [done |].
  apply elem_of_cons in Hr as [-> | Hr]; [done |].
  inversion Hr.
Defined.

Lemma billed_customer_witness :
  let rt := sample_runtime transfer_created in
  let w' := (bill_week rt sample_env (pg_query rt) billing_request
               billing_world).2 in
  exists new,
    invoices (store w') = (invoices (store billing_world) ++ new)%list
    /\ forall i c, i ∈ new ->
         c ∈ select_billable 1736395200000 1737000000000 (store w') ->
         row_crm_contact_id c <> inv_crm_contact_id i.
Proof.
  apply (billed_customer_leaves_query (sample_runtime transfer_created)
           sample_env billing_request billing_world eq_refl eq_refl).
Defined.

Lemma run_claims_witness :
  let rt := sample_runtime transfer_created in
  let r := mkUsageRow 1 "CUSTOMER123-test-1" "CUSTOMER123" (Fin 3)
             1736973000000 None in
  let w' := (bill_week rt sample_env (pg_query rt) billing_request
               billing_world).2 in
  usage_ledger (store w') !! 0%nat = Some r
  \/ exists j cust,
       usage_ledger (store w') !! 0%nat = Some (claim j r)
       /\ 1736395200000 <= occurred_at r < 1737000000000
       /\ invoice_id r = None
       /\ customers (store billing_world) !! usage_crm_contact_id r = Some cust
       /\ status cust = Some "active"
       /\ dwolla_funding_href cust <> None.
Proof.
  apply (run_claims_only_window_usage (sample_runtime transfer_created)
           sample_env billing_request billing_world 0%nat _ eq_refl eq_refl
           eq_refl).
Defined.

Lemma created_transfer_witness :
  let rt := sample_runtime transfer_created in
  let start := 1736395200000 in
  let end_ := 1737000000000 in
  let results := initial_results 1 in
  bill_customer rt sample_env (pg_read_only rt) start end_ sample_row results
    billing_world
  = bill_customer rt sample_env (pg_query rt) start end_ sample_row results
      billing_world
  \/ exists e w',
       bill_customer rt sample_env (pg_read_only rt) start end_ sample_row
         results billing_world
       = (Ok (count_failed (row_crm_contact_id sample_row) e results), w')
       /\ store w' = store billing_world
       /\ txn w' = None.
Proof.
  apply (created_transfer_may_lack_invoice (sample_runtime transfer_created)
           sample_env (pg_read_only (sample_runtime transfer_created))
           1736395200000 1737000000000 sample_row (initial_results 1)
           billing_world _ _
           (pg_read_only_faulty (sample_runtime transfer_created))
           eq_refl eq_refl eq_refl).
Defined.

(** A usage event of [Infinity] units (the JSON number 1e999) is recorded;
    in the run over it the transfer is created (two fetch calls), the
    customer is reported as failed, and the tables are as before. *)
Lemma infinite_usage_witness :
  let rt := sample_runtime transfer_created in
  let start := 1736395200000 in
  let end_ := 1737000000000 in
  let w := infinite_world in
  let c := mkBillableRow "CUSTOMER123" (Some "John Doe")
             (Some "john@example.com")
             (Some "https://api.dwolla.com/funding-sources/customer")
             (Inf false) in
  let loc := Some "https://api.dwolla.com/transfers/t1" in
  let w2 :=
    mkWorld (store w) (Some (mkTxn (store w) 1737000000000)) 1 0
      1737000000000
      (mkTokenCache (Some "tok") (Some 1737003540000)) 2 in
  let results := initial_results 1 in
  (createGhlUsageHandler rt sample_env (pg_query rt)
     (mkGhlRequest (Some "Bearer ghl-secret")
        [("crm_contact_id", JStr "CUSTOMER123");
         ("name", JStr "John Doe");
         ("email", JStr "john@example.com");
         ("units", JNum (Inf false));
         ("occurred_at", JStr "2025-01-15T20:30:00Z");
         ("idempotency_key", JStr "CUSTOMER123-test-1")])
     (mkWorld (mkDb {[ "CUSTOMER123" := sample_customer ]} [] []) None 0 0
        1737000000000 (mkTokenCache None None) 0)
   = (Ok (mkResponse 200 (UsageResult true true "Usage recorded")), w)
   /\ select_billable start end_ (store w) = [c]
   /\ bill_week rt sample_env (pg_query rt) billing_request w
      = (Ok (mkResponse 200
               (BillingSummary start end_
                  (mkResults 1 0 1 0 (Fin 0) (Fin 0)
                     [("CUSTOMER123",
                       "invalid input syntax for type integer")]))),
         set_txn None w2))
  /\ (forall body,
        non_empty_string (get body "crm_contact_id") ->
        non_empty_string (get body "idempotency_key") ->
        valid_point_in_time rt (get body "occurred_at") ->
        Number rt (get body "units") = Inf false ->
        validateUsageWebhook rt body = [])
  /\ js_le0 (amountCents_of c) = false
  /\ (exists tok res,
        fetch rt (Nat.pred (net_calls w2))
          (ApiPost "transfers" tok (transfer_of sample_env start end_ c))
        = FetchResolves res
        /\ res_ok res = true
        /\ location res = loc
        /\ (net_calls w < net_calls w2)%nat)
  /\ bill_customer rt sample_env (pg_query rt) start end_ c results w
     = (Ok (count_failed (row_crm_contact_id c)
              (mkError "invalid input syntax for type integer") results),
        set_txn None w2)
  /\ store w2 = store w
  /\ invoices_id_seq w2 = invoices_id_seq w.
Proof.
  split; [repeat split; vm_compute; reflexivity |].
  apply (infinite_usage_blocks_billing (sample_runtime transfer_created)
           sample_env 1736395200000 1737000000000
           (mkBillableRow "CUSTOMER123" (Some "John Doe")
              (Some "john@example.com")
              (Some "https://api.dwolla.com/funding-sources/customer")
              (Inf false))
           (initial_results 1) infinite_world _
           (Some "https://api.dwolla.com/transfers/t1")
           eq_refl (or_introl eq_refl) eq_refl).
Defined.

(** On a read-only server the transfer is created (two fetch calls) and
    the customer is reported as failed: the tables are as before, so the
    next run bills the same usage again. *)
Example read_only_server_transfers_without_invoice :
  let rt := sample_runtime transfer_created in
  let '(r, w') :=
    bill_week rt sample_env (pg_read_only rt) billing_request billing_world in
  r = Ok (mkResponse 200
            (BillingSummary 1736395200000 1737000000000
               (mkResults 1 0 1 0 (Fin 0) (Fin 0)
                  [("CUSTOMER123",
                    "cannot execute statement in a read-only transaction")])))
  /\ store w' = store billing_world
  /\ net_calls w' = 2%nat.
Proof. vm_compute. repeat split. Qed.

(** ** Transfer Status Reconciler *)

Section ReconcilerProps.
Variable rt : Runtime.
Variable env : ProcessEnv.

(** X19.  With a signing secret configured, a notification whose
    signature header is not empty and has another length than the digest
    is not answered 401: [crypto.timingSafeEqual] throws on buffers of
    different lengths, the handler's [catch] answers 200, and no
    statement is issued. *)
Theorem wrong_length_signature_acknowledged (db : DbHandle)
  (req : DwollaRequest) (w : World) (secret sig : string) :
  DWOLLA_WEBHOOK_SECRET env = Some secret ->
  secret <> "" ->
  x_request_signature_sha256 req = Some sig ->
  sig <> "" ->
  String.length sig
  <> String.length (hmac_sha256_hex rt secret (raw_body req)) ->
  createDwollaWebhookHandler rt env db req w = (Ok (sendStatus 200), w).
Proof.
  intros Hsecret Hne Hsig Hsigne Hlen.
  rewrite createDwollaWebhookHandler_cases, Hsecret.
  rewrite (verify_with_secret rt req secret Hne), Hsig.
  destruct (String.eqb_spec sig ""); [done |].
  unfold timingSafeEqual.
  by destruct (Nat.eqb_spec (String.length sig)
                 (String.length (hmac_sha256_hex rt secret (raw_body req)))).
Qed.

(** X20.  A notification that cannot be parsed, that carries no resource
    reference, or whose topic is neither [transfer_completed] nor
    [transfer_failed], issues no statement: whatever the [db] object is,
    the world is left exactly as it was. *)
Theorem ignored_notifications_issue_no_statement (db : DbHandle)
  (req : DwollaRequest) (w : World) :
  notification_href rt req = None
  \/ (notification_topic rt req <> JStr "transfer_completed"
      /\ notification_topic rt req <> JStr "transfer_failed") ->
  (createDwollaWebhookHandler rt env db req w).2 = w.
Proof.
  intros Hignored. rewrite createDwollaWebhookHandler_cases.
  destruct (verifyDwollaWebhookSignature _ _ _) as [[] | e]; [| done ..].
  unfold notification_href, notification_topic in Hignored.
  destruct (JSON_parse rt (raw_body req)) as [evt |]; [| done].
  destruct (truthy (event_href evt)) eqn:Hhref; [| done].
  cbn [negb orb].
  destruct (negb (truthy (get_opt evt "topic"))); [done |].
  destruct Hignored as [Hnone | [Hc Hf]].
  { apply (truthy_pg_text rt) in Hhref as [h Hh]. congruence. }
  destruct (is_topic (get_opt evt "topic") "transfer_completed") eqn:Hc';
    [by apply is_topic_spec in Hc' |].
  destruct (is_topic (get_opt evt "topic") "transfer_failed") eqn:Hf';
    [by apply is_topic_spec in Hf' |].
  done.
Qed.

Lemma delivery_cases (req : DwollaRequest) :
  (forall w, (createDwollaWebhookHandler rt env (pg_query rt) req w).2 = w)
  \/ exists target h,
       notification_href rt req = Some h
       /\ forall w, txn w = None ->
            (createDwollaWebhookHandler rt env (pg_query rt) req w).2
            = set_store
                (update_invoice_status target h (clock w) (store w)).1 w.
Proof.
  unfold notification_href.
  destruct (verifyDwollaWebhookSignature rt req (DWOLLA_WEBHOOK_SECRET env))
    as [[] | e] eqn:Hverify;
    [| left; intros w; by rewrite createDwollaWebhookHandler_cases, Hverify ..].
  destruct (JSON_parse rt (raw_body req)) as [evt |] eqn:Hparse;
    [| left; intros w;
       by rewrite createDwollaWebhookHandler_cases, Hverify, Hparse].
  destruct (truthy (event_href evt)) eqn:Hhref;
    [| left; intros w;
       by rewrite createDwollaWebhookHandler_cases, Hverify, Hparse, Hhref].
  destruct (truthy_pg_text rt _ Hhref) as [h Hh].
  destruct (negb (truthy (get_opt evt "topic"))) eqn:Htopic;
    [left; intros w;
     by rewrite createDwollaWebhookHandler_cases, Hverify, Hparse, Hhref,
       Htopic |].
  destruct (is_topic (get_opt evt "topic") "transfer_completed") eqn:Hc.
  { right. exists "completed", h. split; [done |]. intros w Htxn.
    rewrite createDwollaWebhookHandler_cases, Hverify, Hparse, Hhref, Htopic, Hc.
    cbn [negb orb snd]. by apply pg_update_invoice_status_idle. }
  destruct (is_topic (get_opt evt "topic") "transfer_failed") eqn:Hf.
  { right. exists "failed", h. split; [done |]. intros w Htxn.
    rewrite createDwollaWebhookHandler_cases, Hverify, Hparse, Hhref, Htopic,
      Hc, Hf.
    cbn [negb orb snd]. by apply pg_update_invoice_status_idle. }
  left. intros w.
  by rewrite createDwollaWebhookHandler_cases, Hverify, Hparse, Hhref, Htopic,
    Hc, Hf.
Qed.

Lemma status_update_applies_href (target href : string) (i : Invoice) :
  status_update_applies target href i = true ->
  dwolla_transfer_href i = Some href.
Proof.
  unfold status_update_applies. intros [Hh _]%andb_true_iff.
  destruct (dwolla_transfer_href i) as [h |]; [| done].
  by apply String.eqb_eq in Hh as ->.
Qed.

Lemma status_update_other_href (target target' href href' : string) (now : Z)
  (i : Invoice) :
  dwolla_transfer_href i = Some href' ->
  href' <> href ->
  status_update_applies target href (set_status target' now i) = false.
Proof.
  intros Hh Hne. unfold status_update_applies. cbn. rewrite Hh. cbn.
  by destruct (String.eqb_spec href' href).
Qed.

Lemma status_updates_commute (t1 h1 t2 h2 : string) (now1 now2 : Z)
  (i : Invoice) :
  h1 <> h2 ->
  let f1 := fun i => if status_update_applies t1 h1 i
                     then set_status t1 now1 i else i in
  let f2 := fun i => if status_update_applies t2 h2 i
                     then set_status t2 now2 i else i in
  f1 (f2 i) = f2 (f1 i).
Proof.
  intros Hne f1 f2. subst f1 f2. cbv beta.
  destruct (status_update_applies t1 h1 i) eqn:A1;
    destruct (status_update_applies t2 h2 i) eqn:A2; rewrite ?A1, ?A2.
  - apply status_update_applies_href in A1, A2. congruence.
  - apply status_update_applies_href in A1.
    by rewrite (status_update_other_href t2 t1 h2 h1 now1 i A1).
  - apply status_update_applies_href in A2.
    by rewrite (status_update_other_href t1 t2 h1 h2 now2 i A2).
  - done.
Qed.

Lemma update_invoice_status_commute (t1 h1 t2 h2 : string) (now1 now2 : Z)
  (d : Db) :
  h1 <> h2 ->
  (update_invoice_status t1 h1 now1 (update_invoice_status t2 h2 now2 d).1).1
  = (update_invoice_status t2 h2 now2 (update_invoice_status t1 h1 now1 d).1).1.
Proof.
  intros Hne. cbn [update_invoice_status fst customers usage_ledger invoices].
  f_equal. rewrite <- !list_fmap_compose.
  apply list_fmap_ext. intros k i _. cbn.
  by apply status_updates_commute.
Qed.

(** The time of a status update shows in [updated_at] only. *)
Lemma status_update_timeless (target href : string) (now now' : Z)
  (l l' : list Invoice) :
  timeless <$> l = timeless <$> l' ->
  timeless <$> invoices (update_invoice_status target href now
                           (mkDb ∅ [] l)).1
  = timeless <$> invoices (update_invoice_status target href now'
                             (mkDb ∅ [] l')).1.
Proof.
  cbn [update_invoice_status fst invoices].
  revert l'. induction l as [| i l IH]; intros [| i' l'] Heq; try done.
  rewrite !fmap_cons in Heq.
  injection Heq as Hid Hcid Hps Hpe Ha Hh Hs Hc Hl.
  rewrite !fmap_cons. f_equal; [| by apply IH].
  unfold status_update_applies. rewrite Hh, Hs.
  destruct (opt_str_eqb (dwolla_transfer_href i') href
            && negb (String.eqb (inv_status i') target)).
  - unfold timeless, set_status. cbn. congruence.
  - unfold timeless. congruence.
Qed.

(** What a delivery at a given time does to the database. *)
Lemma delivery_at (req : DwollaRequest) :
  exists F : Z -> Db -> Db,
    (forall t w, txn w = None ->
       let w' := (createDwollaWebhookHandler rt env (pg_query rt) req
                    (set_clock t w)).2 in
       store w' = F t (store w) /\ txn w' = None)
    /\ ((forall t d, F t d = d)
        \/ exists target h,
             notification_href rt req = Some h
             /\ forall t d, F t d = (update_invoice_status target h t d).1).
Proof.
  destruct (delivery_cases req) as [Hid | (target & h & Hh & Hrun)].
  - exists (fun _ d => d). split; [| by left].
    intros t w Htxn. by rewrite Hid.
  - exists (fun t d => (update_invoice_status target h t d).1).
    split; [| right; by exists target, h].
    intros t w Htxn. by rewrite Hrun.
Qed.

Lemma delivery_timeless (F : Z -> Db -> Db) (t t' : Z) (d d' : Db) :
  ((forall t d, F t d = d)
   \/ exists target h,
        forall t d, F t d = (update_invoice_status target h t d).1) ->
  customers d = customers d' ->
  usage_ledger d = usage_ledger d' ->
  timeless <$> invoices d = timeless <$> invoices d' ->
  customers (F t d) = customers (F t' d')
  /\ usage_ledger (F t d) = usage_ledger (F t' d')
  /\ timeless <$> invoices (F t d) = timeless <$> invoices (F t' d').
Proof.
  intros [Hid | (target & h & HF)] Hc Hu Hi.
  - by rewrite !Hid.
  - rewrite !HF. split; [done |]. split; [done |].
    by apply (status_update_timeless target h t t' (invoices d) (invoices d')).
Qed.

(** X21.  Notifications about different transfers do not interfere.
    Delivered to PostgreSQL one after the other, at any times, two
    notifications whose transfer references differ leave the same
    customers, the same usage and the same invoices in either order, but
    for [updated_at], which is the time of the delivery that moved the
    invoice; and the tables are the same altogether when each notification
    is delivered at the same time in both orders. *)
Theorem notifications_of_other_transfers_commute (req1 req2 : DwollaRequest)
  (w : World) (t1 t2 ta tb : Z) :
  txn w = None ->
  (forall h, notification_href rt req1 = Some h ->
             notification_href rt req2 <> Some h) ->
  let deliver := fun req t w =>
    (createDwollaWebhookHandler rt env (pg_query rt) req (set_clock t w)).2 in
  let first := store (deliver req2 t2 (deliver req1 t1 w)) in
  let other := store (deliver req1 tb (deliver req2 ta w)) in
  customers first = customers other
  /\ usage_ledger first = usage_ledger other
  /\ timeless <$> invoices first = timeless <$> invoices other
  /\ store (deliver req2 t2 (deliver req1 t1 w))
     = store (deliver req1 t1 (deliver req2 t2 w)).
Proof.
  intros Htxn Hother deliver first other. subst first other deliver.
  cbv beta.
  destruct (delivery_at req1) as (F1 & Hrun1 & Hcase1).
  destruct (delivery_at req2) as (F2 & Hrun2 & Hcase2).
  assert (Hcommute : forall s1 s2 d, F2 s2 (F1 s1 d) = F1 s1 (F2 s2 d)).
  { intros s1 s2 d.
    destruct Hcase1 as [Hid1 | (g1 & h1 & Hh1 & HF1)]; [by rewrite !Hid1 |].
    destruct Hcase2 as [Hid2 | (g2 & h2 & Hh2 & HF2)]; [by rewrite !Hid2 |].
    rewrite !HF1, !HF2. apply update_invoice_status_commute.
    intros <-. by apply (Hother h2). }
  assert (Hstore : forall s1 s2 (reqa reqb : DwollaRequest) Fa Fb,
            (forall t w, txn w = None ->
               let w' := (createDwollaWebhookHandler rt env (pg_query rt) reqa
                            (set_clock t w)).2 in
               store w' = Fa t (store w) /\ txn w' = None) ->
            (forall t w, txn w = None ->
               let w' := (createDwollaWebhookHandler rt env (pg_query rt) reqb
                            (set_clock t w)).2 in
               store w' = Fb t (store w) /\ txn w' = None) ->
            store (createDwollaWebhookHandler rt env (pg_query rt) reqb
                     (set_clock s2
                        (createDwollaWebhookHandler rt env (pg_query rt) reqa
                           (set_clock s1 w)).2)).2
            = Fb s2 (Fa s1 (store w))).
  { intros s1 s2 reqa reqb Fa Fb Ha Hb.
    destruct (Ha s1 w Htxn) as [Hsa Hta].
    destruct (Hb s2 _ Hta) as [Hsb _].
    by rewrite Hsb, Hsa. }
  rewrite (Hstore t1 t2 req1 req2 F1 F2 Hrun1 Hrun2).
  rewrite (Hstore ta tb req2 req1 F2 F1 Hrun2 Hrun1).
  rewrite (Hstore t2 t1 req2 req1 F2 F1 Hrun2 Hrun1).
  split; [| split; [| split]]; [| | | apply Hcommute].
  all: rewrite <- (Hcommute tb ta).
  all: assert (Hcase1' : (forall t d, F1 t d = d)
                         \/ exists target h,
                              forall t d,
                                F1 t d = (update_invoice_status target h t d).1)
         by (destruct Hcase1 as [| (g & h & _ & HF)]; [by left | right; eauto]).
  all: assert (Hcase2' : (forall t d, F2 t d = d)
                         \/ exists target h,
                              forall t d,
                                F2 t d = (update_invoice_status target h t d).1)
         by (destruct Hcase2 as [| (g & h & _ & HF)]; [by left | right; eauto]).
  all: destruct (delivery_timeless F1 t1 tb (store w) (store w) Hcase1'
                   eq_refl eq_refl eq_refl) as (Hc1 & Hu1 & Hi1).
  all: destruct (delivery_timeless F2 t2 ta _ _ Hcase2' Hc1 Hu1 Hi1)
         as (Hc2 & Hu2 & Hi2).
  all: assumption.
Qed.

End ReconcilerProps.

Lemma wrong_length_signature_witness :
  let rt := sample_runtime [] in
  createDwollaWebhookHandler rt signed_env (pg_query rt)
    (mkDwollaRequest (Some "forged") "completed:t1")
    (world_with_invoice "initiated" 5)
  = (Ok (sendStatus 200), world_with_invoice "initiated" 5).
Proof.
  apply (wrong_length_signature_acknowledged (sample_runtime []) signed_env
           (pg_query (sample_runtime []))
           (mkDwollaRequest (Some "forged") "completed:t1")
           (world_with_invoice "initiated" 5) "whsec" "forged"
           eq_refl ltac:(discriminate) eq_refl ltac:(discriminate)).
  vm_compute. lia.
Defined.

Lemma ignored_notifications_witness :
  let rt := sample_runtime [] in
  (createDwollaWebhookHandler rt sample_env (pg_query rt)
     (mkDwollaRequest None "customer_created:c1")
     (world_with_invoice "initiated" 5)).2
  = world_with_invoice "initiated" 5.
Proof.
  apply (ignored_notifications_issue_no_statement (sample_runtime [])
           sample_env (pg_query (sample_runtime []))
           (mkDwollaRequest None "customer_created:c1")
           (world_with_invoice "initiated" 5)).
  left. reflexivity.
Defined.

Lemma notifications_commute_witness :
  let rt := two_transfers_runtime in
  let deliver := fun req t w =>
    (createDwollaWebhookHandler rt sample_env (pg_query rt) req
       (set_clock t w)).2 in
  let completed1 := mkDwollaRequest None "completed:t1" in
  let failed2 := mkDwollaRequest None "failed:t2" in
  let w := world_with_two_invoices in
  let first := store (deliver failed2 3000 (deliver completed1 2000 w)) in
  let other := store (deliver completed1 5000 (deliver failed2 4000 w)) in
  (inv_status <$> invoices first = ["completed"; "failed"]
   /\ updated_at <$> invoices first = [2000; 3000]
   /\ updated_at <$> invoices other = [5000; 4000])
  /\ customers first = customers other
  /\ usage_ledger first = usage_ledger other
  /\ timeless <$> invoices first = timeless <$> invoices other
  /\ store (deliver failed2 3000 (deliver completed1 2000 w))
     = store (deliver completed1 2000 (deliver failed2 3000 w)).
Proof.
  split; [by vm_compute |].
  apply (notifications_of_other_transfers_commute two_transfers_runtime
           sample_env (mkDwollaRequest None "completed:t1")
           (mkDwollaRequest None "failed:t2") world_with_two_invoices
           2000 3000 4000 5000 eq_refl).
  intros h. vm_compute. intros [= <-]. discriminate.
Defined.

(** Either order leaves the first invoice completed and the second
    failed. *)
Example two_notifications_delivered :
  let rt := two_transfers_runtime in
  let deliver := fun req w =>
    (createDwollaWebhookHandler rt sample_env (pg_query rt) req w).2 in
  inv_status
  <$> invoices (store (deliver (mkDwollaRequest None "failed:t2")
                         (deliver (mkDwollaRequest None "completed:t1")
                            world_with_two_invoices)))
  = ["completed"; "failed"].
Proof. reflexivity. Qed.

(** ** Invariants of the histories *)

Section HistoryProps.
Variable rt : Runtime.
Variable env : ProcessEnv.

Lemma history_induction (P : World -> Prop) :
  (forall w w', ids_in_sequence w -> P w -> service_step rt env w w' -> P w') ->
  forall w w', ids_in_sequence w -> P w ->
               rtc (service_step rt env) w w' -> P w'.
Proof.
  intros Hstep w w' Hw HP Hrtc.
  induction Hrtc as [w | w w1 w2 Hs _ IH]; [done |].
  apply IH.
  - by destruct (service_step_invariant rt env w w1 Hw Hs).
  - by apply (Hstep w w1).
Qed.

(** *** Claimed usage is backed by an invoice *)

Lemma backed_by_mono (invs invs' : list Invoice) (r : UsageRow) :
  (forall i, i ∈ invs ->
     exists i', i' ∈ invs'
                /\ inv_id i' = inv_id i
                /\ inv_crm_contact_id i' = inv_crm_contact_id i
                /\ period_start i' = period_start i
                /\ period_end i' = period_end i) ->
  backed_by invs r -> backed_by invs' r.
Proof.
  intros Hinvs Hr j Hj.
  destruct (Hr j Hj) as (i & Hi & Hid & Hcid & Hperiod).
  destruct (Hinvs i Hi) as (i' & Hi' & Hid' & Hcid' & Hs & He).
  exists i'. repeat split; try congruence; lia.
Qed.

Lemma billing_steps_backed (start end_ : Z) (rows : list BillableRow)
  (x z : Results * World) :
  billing_steps start end_ rows x z ->
  ledger_backed (store x.2) -> ledger_backed (store z.2).
Proof.
  induction 1 as [x | c rest x y z Hstep _ IH]; [done |].
  intros Hx. apply IH. clear IH.
  inversion Hstep as [results w Hamt | results w e w' Hamt Hsame
                     | results w location amount now w' Hamt Hint Hst Htx' Hus'
                         His']; subst; cbn [fst snd] in *.
  - done.
  - destruct Hsame as (Hst1 & _). by rewrite Hst1.
  - unfold ledger_backed. rewrite Hst.
    cbn [invoices usage_ledger claim_usage insert_invoice].
    apply Forall_fmap, Forall_forall. intros r Hr. cbn.
    unfold ledger_backed in Hx. rewrite Forall_forall in Hx.
    destruct (qualifies start end_ (row_crm_contact_id c) r) eqn:Hq.
    + intros j [= <-]. eexists. split; [apply elem_of_app; right; by left |].
      cbn. split; [done |].
      split; [by rewrite (qualifies_customer _ _ _ _ Hq) |].
      unfold qualifies, in_window in Hq.
      apply andb_true_iff in Hq as [[_ [Hs He]%andb_true_iff]%andb_true_iff _].
      apply Z.leb_le in Hs. apply Z.ltb_lt in He. lia.
    + apply (backed_by_mono (invoices (store w))); [| by apply Hx].
      intros i Hi. exists i. split; [apply elem_of_app; by left | done].
Qed.

Lemma service_step_backed (w w' : World) :
  ids_in_sequence w ->
  ledger_backed (store w) ->
  service_step rt env w w' ->
  ledger_backed (store w').
Proof.
  intros (Htxn & _) Hw Hstep.
  destruct Hstep as [req | req | req | cs | t].
  - destruct (usage_recorded_effect rt env req w Htxn)
      as (_ & _ & Hinv & added & Hl & Hadded).
    unfold ledger_backed. rewrite Hinv, Hl. apply Forall_app. split; [done |].
    eapply Forall_impl; [exact Hadded |]. intros r Hr j. congruence.
  - destruct (decide (bill_authorization req = Some "Bearer admin"))
      as [Hauth | Hauth].
    2:{ by rewrite bill_week_unauthorized. }
    destruct (bill_week_run rt env req w Htxn Hauth)
      as (results & w1 & Hrun & _ & Hsteps).
    rewrite Hrun. cbn [snd].
    by apply (billing_steps_backed _ _ _ _ _ Hsteps).
  - destruct (createDwollaWebhookHandler rt env (pg_query rt) req w)
      as [r w1] eqn:Hrun. cbn [snd].
    destruct (notification_moves_matching_invoices rt env req w r w1 Htxn Hrun)
      as (_ & _ & Hu & (target & href & _ & Hsteps) & _).
    unfold ledger_backed. rewrite Hu.
    eapply Forall_impl; [exact Hw |]. intros r0.
    apply backed_by_mono. intros i Hi.
    destruct (Forall2_elem_of_l _ _ _ _ Hsteps Hi) as (i' & Hi' & Hstep).
    exists i'. split; [done |]. by destruct Hstep.
  - done.
  - done.
Qed.

(** X22.  Along any history of the service, every usage row that carries
    an [invoice_id] points at an invoice that exists, belongs to the
    row's customer, and whose period holds the row's [occurred_at]:
    the reference of the second migration is never dangling, and usage is
    never charged to another customer or to another week. *)
Theorem claimed_usage_stays_backed (w w' : World) :
  ids_in_sequence w ->
  ledger_backed (store w) ->
  rtc (service_step rt env) w w' ->
  ledger_backed (store w').
Proof.
  intros Hw Hbacked Hrtc.
  by apply (history_induction (fun w => ledger_backed (store w))
              service_step_backed w w').
Qed.

(** *** Invoices keep their terms *)

Lemma same_terms_refl (i : Invoice) : same_terms i i.
Proof. repeat split; by left. Qed.

Lemma same_terms_trans (i1 i2 i3 : Invoice) :
  same_terms i1 i2 -> same_terms i2 i3 -> same_terms i1 i3.
Proof.
  intros (? & ? & ? & ? & ? & ? & ? & Hs12) (? & ? & ? & ? & ? & ? & ? & Hs23).
  repeat split; try congruence.
  destruct Hs23 as [-> | Hs23]; [exact Hs12 | by right].
Qed.

Lemma invoices_persist_same (w w' : World) :
  Forall2 same_terms (invoices (store w)) (invoices (store w')) ->
  invoices_persist w w'.
Proof. intros H. exists (invoices (store w')), []. by rewrite app_nil_r. Qed.

Lemma invoices_persist_refl (w : World) : invoices_persist w w.
Proof.
  apply invoices_persist_same, Forall_Forall2_diag, Forall_forall.
  intros i _. apply same_terms_refl.
Qed.

Lemma invoices_persist_trans (w1 w2 w3 : World) :
  invoices_persist w1 w2 -> invoices_persist w2 w3 -> invoices_persist w1 w3.
Proof.
  intros (k1 & n1 & Hi1 & Hk1) (k2 & n2 & Hi2 & Hk2).
  rewrite Hi1 in Hk2.
  apply Forall2_app_inv_l in Hk2 as (ka & kb & Hka & Hkb & ->).
  exists ka, (kb ++ n2)%list. split; [by rewrite Hi2, app_assoc |].
  eapply Forall2_trans; [| exact Hk1 | exact Hka].
  intros i1 i2 i3. apply same_terms_trans.
Qed.

Lemma service_step_persist (w w' : World) :
  ids_in_sequence w ->
  service_step rt env w w' ->
  invoices_persist w w'.
Proof.
  intros (Htxn & _) Hstep.
  destruct Hstep as [req | req | req | cs | t].
  - destruct (usage_recorded_effect rt env req w Htxn) as (_ & _ & Hinv & _).
    apply invoices_persist_same. rewrite Hinv.
    apply Forall_Forall2_diag, Forall_forall. intros i _. apply same_terms_refl.
  - destruct (decide (bill_authorization req = Some "Bearer admin"))
      as [Hauth | Hauth].
    2:{ rewrite bill_week_unauthorized by done. apply invoices_persist_refl. }
    destruct (bill_week_run rt env req w Htxn Hauth)
      as (results & w1 & Hrun & _ & Hsteps).
    rewrite Hrun. cbn [snd].
    destruct (billing_steps_summary _ _ _ _ _ Hsteps) as (new & Hinv & _).
    cbn [snd] in Hinv. exists (invoices (store w)), new. split; [done |].
    apply Forall_Forall2_diag, Forall_forall. intros i _. apply same_terms_refl.
  - destruct (createDwollaWebhookHandler rt env (pg_query rt) req w)
      as [r w1] eqn:Hrun. cbn [snd].
    destruct (notification_moves_matching_invoices rt env req w r w1 Htxn Hrun)
      as (_ & _ & _ & (target & href & Htarget & Hsteps) & _).
    apply invoices_persist_same.
    eapply Forall2_impl; [exact Hsteps |].
    intros i i' [| Hh Hs]; [apply same_terms_refl |].
    repeat split. right. cbn. destruct Htarget as [-> | ->]; auto.
  - apply invoices_persist_same. cbn.
    apply Forall_Forall2_diag, Forall_forall. intros i _. apply same_terms_refl.
  - apply invoices_persist_same. cbn.
    apply Forall_Forall2_diag, Forall_forall. intros i _. apply same_terms_refl.
Qed.

(** X23.  Along any history of the service an invoice stays at its place
    and keeps its identifier, customer, period, amount, transfer
    reference and [created_at]; only its status and [updated_at] change,
    and the status, if it changes at all, is [completed] or [failed]. *)
Theorem invoice_terms_never_change (w w' : World) (k : nat) (i : Invoice) :
  ids_in_sequence w ->
  rtc (service_step rt env) w w' ->
  invoices (store w) !! k = Some i ->
  exists i', invoices (store w') !! k = Some i' /\ same_terms i i'.
Proof.
  intros Hw Hrtc Hk.
  assert (Hpersist : invoices_persist w w').
  { clear Hk.
    induction Hrtc as [w | w w1 w2 Hs _ IH]; [apply invoices_persist_refl |].
    eapply invoices_persist_trans; [by apply service_step_persist |].
    apply IH.
    by destruct (service_step_invariant rt env w w1 Hw Hs). }
  destruct Hpersist as (kept & new & Hinv & Hkept).
  destruct (Forall2_lookup_l _ _ _ _ _ Hkept Hk) as (i' & Hk' & Hterms).
  exists i'. split; [| done]. rewrite Hinv. by apply lookup_app_l_Some.
Qed.

(** *** Invoices charge the usage that points at them *)








(** *** Idempotency keys stay unique *)

Lemma key_taken_elem_of (k : string) (l : list UsageRow) :
  key_taken k l = false -> k ∉ idempotency_key <$> l.
Proof.
  induction l as [| r l IH]; [intros _ H; inversion H |].
  intros Htaken. cbn in Htaken. apply orb_false_iff in Htaken as [Hr Hl].
  rewrite fmap_cons.
  apply not_elem_of_cons. split; [| by apply IH].
  apply String.eqb_neq in Hr. congruence.
Qed.

Lemma insert_usage_keys (id : Z) (k cid : string) (u : JsNum) (t : Z) (d : Db) :
  NoDup (idempotency_key <$> usage_ledger d) ->
  NoDup (idempotency_key <$> usage_ledger (insert_usage id k cid u t d).1).
Proof.
  intros Hd. unfold insert_usage.
  destruct (key_taken k (usage_ledger d)) eqn:Htaken; [done |].
  cbn [fst usage_ledger]. rewrite fmap_app. apply NoDup_app.
  split; [done |]. split; [| apply NoDup_singleton].
  intros k' Hk' ->%list_elem_of_singleton.
  by apply (key_taken_elem_of _ _ Htaken).
Qed.

Lemma claimed_after_keys (seq0 seq1 : Z) (l l' : list UsageRow) :
  Forall2 (claimed_after seq0 seq1) l l' ->
  idempotency_key <$> l' = idempotency_key <$> l.
Proof.
  induction 1 as [| r r' l l' Hr _ IH]; [done |].
  rewrite !fmap_cons, IH. f_equal.
  by destruct Hr as [-> | (_ & j & _ & ->)].
Qed.

Lemma service_step_keys (w w' : World) :
  ids_in_sequence w ->
  NoDup (idempotency_key <$> usage_ledger (store w)) ->
  service_step rt env w w' ->
  NoDup (idempotency_key <$> usage_ledger (store w')).
Proof.
  intros (Htxn & _) Hw Hstep.
  destruct Hstep as [req | req | req | cs | t].
  - destruct (decide (ghl_authorization req
                      = Some ("Bearer " ++ template (GHL_BEARER env))))
      as [Hauth | Hauth].
    2:{ unfold createGhlUsageHandler, try_catch.
        by rewrite bool_decide_eq_false_2. }
    destruct (validateUsageWebhook rt (JObject (ghl_body req))) eqn:Hval.
    2:{ unfold createGhlUsageHandler, try_catch.
        rewrite bool_decide_eq_true_2 by done. cbv zeta.
        by rewrite Hval. }
    apply validateUsageWebhook_spec in Hval.
    destruct (well_formed_keys rt _ Hval) as (cid & k & Hcid & Hk).
    rewrite (createGhlUsageHandler_run rt env req w cid k Hauth Hval Hcid Hk
               Htxn).
    cbv zeta. cbn [snd store]. by apply insert_usage_keys.
  - destruct (decide (bill_authorization req = Some "Bearer admin"))
      as [Hauth | Hauth].
    2:{ by rewrite bill_week_unauthorized. }
    destruct (bill_week_run rt env req w Htxn Hauth)
      as (results & w1 & Hrun & _ & Hsteps).
    rewrite Hrun. cbn [snd].
    pose proof (billing_steps_ledger _ _ _ _ _ Hsteps) as Hledger.
    cbn [fst snd] in Hledger.
    by rewrite (claimed_after_keys _ _ _ _ Hledger).
  - destruct (createDwollaWebhookHandler rt env (pg_query rt) req w)
      as [r w1] eqn:Hrun. cbn [snd].
    destruct (notification_moves_matching_invoices rt env req w r w1 Htxn Hrun)
      as (_ & _ & Hu & _).
    by rewrite Hu.
  - done.
  - done.
Qed.

(** X25.  Along any history of the service no two usage rows carry the
    same idempotency key: the insert with ON CONFLICT DO NOTHING never
    adds a second row for a key, and nothing else adds rows or rewrites
    keys. *)
Theorem idempotency_keys_stay_unique (w w' : World) :
  ids_in_sequence w ->
  NoDup (idempotency_key <$> usage_ledger (store w)) ->
  rtc (service_step rt env) w w' ->
  NoDup (idempotency_key <$> usage_ledger (store w')).
Proof.
  intros Hw Hkeys Hrtc.
  by apply (history_induction
              (fun w => NoDup (idempotency_key <$> usage_ledger (store w)))
              service_step_keys w w').
Qed.

End HistoryProps.

Lemma billing_world_in_sequence : ids_in_sequence billing_world.
Proof.
  split; [reflexivity |]. split; [constructor |].
  apply billing_world_references.
Qed.

Lemma world_with_invoice_in_sequence (st : string) (updated : Z) :
  ids_in_sequence (world_with_invoice st updated).
Proof.
  split; [reflexivity |]. split; [| constructor].
  repeat constructor. cbn. lia.
Qed.

Lemma claimed_usage_witness :
  let rt := sample_runtime transfer_created in
  ledger_backed
    (store (bill_week rt sample_env (pg_query rt) billing_request
              billing_world).2).
Proof.
  apply (claimed_usage_stays_backed (sample_runtime transfer_created)
           sample_env billing_world _ billing_world_in_sequence).
  - repeat constructor; intros j; discriminate.
  - apply rtc_once, billing_run.
Defined.

Lemma invoice_terms_witness :
  let rt := sample_runtime [] in
  let i := mkInvoice 1 "CUSTOMER123" 0 604800000 1200 (Some "t1")
             "initiated" 5 5 in
  let w' := (createDwollaWebhookHandler rt sample_env (pg_query rt)
               (mkDwollaRequest None "completed:t1")
               (world_with_invoice "initiated" 5)).2 in
  exists i', invoices (store w') !! 0%nat = Some i' /\ same_terms i i'.
Proof.
  apply (invoice_terms_never_change (sample_runtime []) sample_env
           (world_with_invoice "initiated" 5) _ 0%nat _
           (world_with_invoice_in_sequence "initiated" 5)
           (rtc_once _ _
              (notification_delivered _ _ _
                 (mkDwollaRequest None "completed:t1")))
           eq_refl).
Defined.



Lemma idempotency_keys_witness :
  let rt := sample_runtime [] in
  NoDup
    (idempotency_key
     <$> usage_ledger
           (store (createGhlUsageHandler rt sample_env (pg_query rt)
                     (usage_request "John Doe" 7 "CUSTOMER123-test-1")
                     billing_world).2)).
Proof.
  apply (idempotency_keys_stay_unique (sample_runtime []) sample_env
           billing_world _ billing_world_in_sequence).
  - apply (bool_decide_unpack _). by vm_compute.
  - apply rtc_once, usage_recorded.
Defined.

(** After the run of the scenario the one invoice charges 2000 cents for
    the five units that point at it. *)
Example billed_world_reconciled : reconciled (store billed_world).
Proof. repeat constructor. Qed.

(** ** The endpoints and their tables *)

Section Separation.
Variable rt : Runtime.
Variable env : ProcessEnv.

Lemma usage_recorded_frame (req : GhlRequest) (w : World) :
  txn w = None ->
  let w' := (createGhlUsageHandler rt env (pg_query rt) req w).2 in
  invoices (store w') = invoices (store w)
  /\ invoices_id_seq w' = invoices_id_seq w
  /\ clock w' = clock w
  /\ tokenCache w' = tokenCache w
  /\ net_calls w' = net_calls w
  /\ txn w' = None.
Proof.
  intros Htxn.
  destruct (decide (ghl_authorization req
                    = Some ("Bearer " ++ template (GHL_BEARER env))))
    as [Hauth | Hauth].
  2:{ unfold createGhlUsageHandler, try_catch.
      by rewrite bool_decide_eq_false_2. }
  destruct (validateUsageWebhook rt (JObject (ghl_body req))) eqn:Hval.
  2:{ unfold createGhlUsageHandler, try_catch.
      rewrite bool_decide_eq_true_2 by done. cbv zeta.
      by rewrite Hval. }
  apply validateUsageWebhook_spec in Hval.
  destruct (well_formed_keys rt _ Hval) as (cid & k & Hcid & Hk).
  rewrite (createGhlUsageHandler_run rt env req w cid k Hauth Hval Hcid Hk Htxn).
  cbv zeta. cbn [snd store invoices_id_seq clock tokenCache net_calls txn].
  unfold insert_usage. by destruct (key_taken _ _).
Qed.

Lemma billing_run_frame (req : BillRequest) (w : World) :
  txn w = None ->
  let w' := (bill_week rt env (pg_query rt) req w).2 in
  customers (store w') = customers (store w)
  /\ usage_ledger_id_seq w' = usage_ledger_id_seq w
  /\ length (usage_ledger (store w')) = length (usage_ledger (store w))
  /\ txn w' = None.
Proof.
  intros Htxn.
  destruct (decide (bill_authorization req = Some "Bearer admin"))
    as [Hauth | Hauth].
  2:{ by rewrite bill_week_unauthorized. }
  destruct (bill_week_run rt env req w Htxn Hauth)
    as (results & w1 & Hrun & Htxn1 & Hsteps).
  rewrite Hrun. cbv zeta. cbn [snd].
  destruct (billing_steps_frame _ _ _ _ _ Hsteps) as (_ & Hus & Hcs & _).
  pose proof (billing_steps_ledger _ _ _ _ _ Hsteps) as Hledger.
  cbn [fst snd] in *. repeat split; try done.
  symmetry. by eapply Forall2_length.
Qed.

Lemma notification_frame (req : DwollaRequest) (w : World) :
  txn w = None ->
  let w' := (createDwollaWebhookHandler rt env (pg_query rt) req w).2 in
  customers (store w') = customers (store w)
  /\ usage_ledger (store w') = usage_ledger (store w)
  /\ length (invoices (store w')) = length (invoices (store w))
  /\ usage_ledger_id_seq w' = usage_ledger_id_seq w
  /\ invoices_id_seq w' = invoices_id_seq w
  /\ clock w' = clock w
  /\ tokenCache w' = tokenCache w
  /\ net_calls w' = net_calls w
  /\ txn w' = None.
Proof.
  intros Htxn.
  destruct (delivery_cases rt env req) as [Hid | (target & h & _ & Hrun)].
  { cbv zeta. by rewrite Hid. }
  cbv zeta. rewrite (Hrun w Htxn).
  cbn [store set_store update_invoice_status fst customers usage_ledger
       invoices usage_ledger_id_seq invoices_id_seq clock tokenCache
       net_calls txn].
  by rewrite length_fmap.
Qed.

(** X26.  On PostgreSQL each endpoint keeps to its own tables, whatever
    the request.  The usage endpoint never touches the invoices, the
    invoice sequence, the token cache, the network or the clock; a
    billing run never touches the customers or the usage sequence and
    neither adds nor removes usage rows; a notification never touches
    customers or usage, neither adds nor removes invoices, draws no
    identifier and makes no network call.  None leaves a transaction
    open. *)
Theorem endpoints_keep_to_their_tables (w : World) :
  txn w = None ->
  (forall req,
     let w' := (createGhlUsageHandler rt env (pg_query rt) req w).2 in
     invoices (store w') = invoices (store w)
     /\ invoices_id_seq w' = invoices_id_seq w
     /\ clock w' = clock w
     /\ tokenCache w' = tokenCache w
     /\ net_calls w' = net_calls w
     /\ txn w' = None)
  /\ (forall req,
        let w' := (bill_week rt env (pg_query rt) req w).2 in
        customers (store w') = customers (store w)
        /\ usage_ledger_id_seq w' = usage_ledger_id_seq w
        /\ length (usage_ledger (store w')) = length (usage_ledger (store w))
        /\ txn w' = None)
  /\ (forall req,
        let w' := (createDwollaWebhookHandler rt env (pg_query rt) req w).2 in
        customers (store w') = customers (store w)
        /\ usage_ledger (store w') = usage_ledger (store w)
        /\ length (invoices (store w')) = length (invoices (store w))
        /\ usage_ledger_id_seq w' = usage_ledger_id_seq w
        /\ invoices_id_seq w' = invoices_id_seq w
        /\ clock w' = clock w
        /\ tokenCache w' = tokenCache w
        /\ net_calls w' = net_calls w
        /\ txn w' = None).
Proof.
  intros Htxn. split; [| split]; intros req.
  - by apply usage_recorded_frame.
  - by apply billing_run_frame.
  - by apply notification_frame.
Qed.

End Separation.

Lemma endpoints_witness :
  let rt := sample_runtime transfer_created in
  let env := sample_env in
  let w := billing_world in
  (forall req,
     let w' := (createGhlUsageHandler rt env (pg_query rt) req w).2 in
     invoices (store w') = invoices (store w)
     /\ invoices_id_seq w' = invoices_id_seq w
     /\ clock w' = clock w
     /\ tokenCache w' = tokenCache w
     /\ net_calls w' = net_calls w
     /\ txn w' = None)
  /\ (forall req,
        let w' := (bill_week rt env (pg_query rt) req w).2 in
        customers (store w') = customers (store w)
        /\ usage_ledger_id_seq w' = usage_ledger_id_seq w
        /\ length (usage_ledger (store w')) = length (usage_ledger (store w))
        /\ txn w' = None)
  /\ (forall req,
        let w' := (createDwollaWebhookHandler rt env (pg_query rt) req w).2 in
        customers (store w') = customers (store w)
        /\ usage_ledger (store w') = usage_ledger (store w)
        /\ length (invoices (store w')) = length (invoices (store w))
        /\ usage_ledger_id_seq w' = usage_ledger_id_seq w
        /\ invoices_id_seq w' = invoices_id_seq w
        /\ clock w' = clock w
        /\ tokenCache w' = tokenCache w
        /\ net_calls w' = net_calls w
        /\ txn w' = None).
Proof.
  apply (endpoints_keep_to_their_tables (sample_runtime transfer_created)
           sample_env billing_world eq_refl).
Defined.

(** ** Transfers on record and positive units *)

Section TransferRecords.
Variable rt : Runtime.
Variable env : ProcessEnv.

Lemma bill_customer_transfer (start end_ : Z) (c : BillableRow)
  (results : Results) (w : World) :
  txn w = None ->
  exists results' w',
    bill_customer rt env (pg_query rt) start end_ c results w
    = (Ok results', w')
    /\ txn w' = None
    /\ (net_calls w <= net_calls w')%nat
    /\ (invoices (store w') = invoices (store w)
        \/ exists i,
             invoices (store w') = (invoices (store w) ++ [i])%list
             /\ records_transfer rt env start end_ (net_calls w) (net_calls w')
                  c i).
Proof.
  intros Htxn.
  destruct (js_le0 (amountCents_of c)) eqn:Hamount.
  { rewrite bill_customer_skips by done.
    eexists _, _. split; [reflexivity |]. split; [done |]. split; [lia |].
    by left. }
  destruct (dwollaPost rt env "transfers" (transfer_of env start end_ c) 3
              (begun w)) as [r w2] eqn:Hpost.
  rewrite (bill_customer_run rt env start end_ c results w w2 r Htxn Hamount
             Hpost).
  pose proof (frames_dwollaPost rt env "transfers" (transfer_of env start end_ c)
                3 (begun w)) as Hframe.
  rewrite Hpost in Hframe. destruct Hframe as (Hst & _).
  cbn in Hst.
  pose proof (dwollaPost_from_effort rt env "transfers"
                (transfer_of env start end_ c) 3 3 1 (begun w)) as [Hcalls _].
  fold (dwollaPost rt env "transfers" (transfer_of env start end_ c) 3) in Hcalls.
  rewrite Hpost in Hcalls. cbn [snd net_calls begun set_txn] in Hcalls.
  assert (Hfailed : forall e,
    exists results' w',
      (Ok (count_failed (row_crm_contact_id c) e results), set_txn None w2)
      = (Ok results', w')
      /\ txn w' = None
      /\ (net_calls w <= net_calls w')%nat
      /\ (invoices (store w') = invoices (store w)
          \/ exists i,
               invoices (store w') = (invoices (store w) ++ [i])%list
               /\ records_transfer rt env start end_ (net_calls w)
                    (net_calls w') c i)).
  { intros e. eexists _, _. split; [reflexivity |]. split; [done |].
    split; [cbn; lia |]. left. cbn. by rewrite Hst. }
  cbv zeta.
  destruct r as [[location |] | e]; [| apply Hfailed ..].
  destruct (pg_int (amountCents_of c)) as [amount |] eqn:Hint;
    [| apply Hfailed].
  eexists _, _. split; [reflexivity |]. split; [done |].
  split; [cbn; lia |]. right. eexists. split; [reflexivity |].
  destruct (dwollaPost_from_return rt env _ _ _ _ _ _ _ _ Hpost)
    as (tok & res & Hfetch & Hok & Hloc & Hlt).
  cbn [net_calls begun set_txn] in Hlt.
  exists (Nat.pred (net_calls w2)), tok, res.
  cbn [net_calls set_txn set_store set_invoices_seq dwolla_transfer_href
       amount_cents inv_crm_contact_id].
  pose proof (pg_int_Math_round _ _ Hint) as Hround.
  repeat split; try done; try lia.
  by apply (amount_positive (amountCents_of c)).
Qed.

Lemma records_transfer_mono (start end_ : Z) (a b a' b' : nat) (c : BillableRow)
  (i : Invoice) :
  (a' <= a)%nat -> (b <= b')%nat ->
  records_transfer rt env start end_ a b c i ->
  records_transfer rt env start end_ a' b' c i.
Proof.
  intros Ha Hb (k & tok & res & Hk & Hrest).
  exists k, tok, res. split; [lia | exact Hrest].
Qed.

Lemma bill_customers_transfers (start end_ : Z) (rows : list BillableRow)
  (results : Results) (w : World) :
  txn w = None ->
  exists results' w' new,
    bill_customers rt env (pg_query rt) start end_ rows results w
    = (Ok results', w')
    /\ (net_calls w <= net_calls w')%nat
    /\ invoices (store w') = (invoices (store w) ++ new)%list
    /\ Forall (fun i => exists c,
                 c ∈ rows
                 /\ records_transfer rt env start end_ (net_calls w)
                      (net_calls w') c i) new.
Proof.
  revert results w. induction rows as [| c rest IH]; intros results w Htxn.
  { exists results, w, []. rewrite app_nil_r. by repeat split. }
  destruct (bill_customer_transfer start end_ c results w Htxn)
    as (r1 & w1 & Hrun & Htxn1 & Hcalls1 & Hinv1).
  destruct (IH r1 w1 Htxn1) as (r2 & w2 & new & Hrest & Hcalls2 & Hinv2 & Hnew).
  assert (Hrest' : Forall (fun i => exists c0,
                     c0 ∈ c :: rest
                     /\ records_transfer rt env start end_ (net_calls w)
                          (net_calls w2) c0 i) new).
  { eapply Forall_impl; [exact Hnew |]. intros i (c0 & Hc0 & Hrec).
    exists c0. split; [by right |].
    by apply (records_transfer_mono _ _ (net_calls w1) (net_calls w2)). }
  cbn [bill_customers]. rewrite run_bind, Hrun.
  destruct Hinv1 as [Hsame | (i & Happ & Hrec)].
  - exists r2, w2, new. rewrite <- Hsame.
    split; [done |]. split; [lia |]. by split.
  - exists r2, w2, (i :: new).
    split; [done |]. split; [lia |]. split.
    + by rewrite Hinv2, Happ, <- app_assoc.
    + constructor; [| done]. exists c. split; [by left |].
      by apply (records_transfer_mono _ _ (net_calls w) (net_calls w1)).
Qed.

(** X27.  Every invoice a billing run appends records an accepted
    transfer request.  During the run a POST to [transfers] of the
    transfer of one row of the billing query (from the customer's funding
    source to the operator's, with the customer and the period as
    metadata) was answered with an ok status; the invoice carries the
    location header of that answer, the customer of the row and the
    amount of the request, a positive number of cents. *)
Theorem invoice_records_accepted_transfer (req : BillRequest) (w : World) :
  txn w = None ->
  bill_authorization req = Some "Bearer admin" ->
  let end_ := startOfWeek rt (clock w) in
  let start := minusOneWeek rt end_ in
  let rows := select_billable start end_ (store w) in
  let w' := (bill_week rt env (pg_query rt) req w).2 in
  exists new,
    invoices (store w') = (invoices (store w) ++ new)%list
    /\ Forall (fun i => exists c,
                 c ∈ rows
                 /\ records_transfer rt env start end_ (net_calls w)
                      (net_calls w') c i) new.
Proof.
  intros Htxn Hauth end_ start rows w'.
  destruct (bill_customers_transfers start end_ rows
              (initial_results (length rows)) w Htxn)
    as (results & w1 & new & Hrun & _ & Hinv & Hnew).
  assert (Hweek : bill_week rt env (pg_query rt) req w
                  = (Ok (mkResponse 200 (BillingSummary start end_ results)),
                     w1)).
  { unfold bill_week, try_catch.
    rewrite bool_decide_eq_true_2 by done. cbn [negb].
    rewrite run_bind. cbn [get_world]. cbv beta iota zeta.
    rewrite run_bind.
    rewrite pg_select_billable by done.
    cbv beta iota. fold end_ start. rewrite run_bind.
    fold rows. by rewrite Hrun. }
  subst w'. rewrite Hweek. cbn [snd]. by exists new.
Qed.

End TransferRecords.

Section PositiveUnits.
Variable rt : Runtime.
Variable env : ProcessEnv.

Lemma js_add_positive (a b : JsNum) :
  positive_number a -> positive_number b -> positive_number (js_add a b).
Proof.
  destruct a as [| [] | x], b as [| [] | y]; cbn; try done.
  intros Hx Hy. change 0%Q with (0 + 0)%Q.
  apply Qplus_lt_le_compat; [done | by apply Qlt_le_weak].
Qed.

Lemma sum_positive (us : list JsNum) :
  Forall positive_number us -> us <> [] ->
  positive_number (foldr js_add (Fin 0) us).
Proof.
  induction 1 as [| u rest Hu Hrest IH]; [done |]. intros _.
  cbn [foldr]. destruct rest as [| u' rest'].
  - cbn [foldr]. destruct u as [| [] | x]; cbn in *; try done.
    by rewrite Qplus_0_r.
  - apply js_add_positive; [done |]. by apply IH.
Qed.

Lemma positive_number_gt0 (n : JsNum) : positive_number n -> pg_gt0 n = true.
Proof.
  destruct n as [| [] | q]; cbn; try done.
  intros Hq. apply negb_true_iff, not_true_is_false.
  intros Hle%Qle_bool_iff. by apply Qlt_not_le in Hq.
Qed.

Lemma usage_total_positive (start end_ : Z) (cid : string) (d : Db)
  (r : UsageRow) :
  units_positive d ->
  r ∈ usage_ledger d ->
  qualifies start end_ cid r = true ->
  positive_number (usage_total start end_ cid (usage_ledger d)).
Proof.
  intros Hd Hr Hq. unfold usage_total. apply sum_positive.
  - apply Forall_fmap, Forall_forall. intros r0 Hr0. cbn.
    unfold units_positive in Hd. rewrite Forall_forall in Hd.
    apply Hd. apply list_elem_of_In. apply list_elem_of_In in Hr0.
    by apply List.filter_In in Hr0 as [Hr0 _].
  - intros Hnil. apply fmap_nil_inv in Hnil.
    assert (Hin : In r (List.filter (qualifies start end_ cid) (usage_ledger d))).
    { apply List.filter_In. split; [by apply list_elem_of_In | done]. }
    by rewrite Hnil in Hin.
Qed.

Lemma claimed_after_units (seq0 seq1 : Z) (l l' : list UsageRow) :
  Forall2 (claimed_after seq0 seq1) l l' ->
  Forall (fun r => positive_number (units r)) l ->
  Forall (fun r => positive_number (units r)) l'.
Proof.
  induction 1 as [| r r' l l' Hr _ IH]; [done |].
  intros [Hpos Hl]%Forall_cons. constructor; [| by apply IH].
  by destruct Hr as [-> | (_ & j & _ & ->)].
Qed.

Lemma service_step_units (w w' : World) :
  ids_in_sequence w ->
  units_positive (store w) ->
  service_step rt env w w' ->
  units_positive (store w').
Proof.
  intros (Htxn & _) Hw Hstep.
  destruct Hstep as [req | req | req | cs | t].
  - destruct (decide (ghl_authorization req
                      = Some ("Bearer " ++ template (GHL_BEARER env))))
      as [Hauth | Hauth].
    2:{ unfold createGhlUsageHandler, try_catch.
        by rewrite bool_decide_eq_false_2. }
    destruct (validateUsageWebhook rt (JObject (ghl_body req))) eqn:Hval.
    2:{ unfold createGhlUsageHandler, try_catch.
        rewrite bool_decide_eq_true_2 by done. cbv zeta.
        by rewrite Hval. }
    apply validateUsageWebhook_spec in Hval.
    destruct (well_formed_keys rt _ Hval) as (cid & k & Hcid & Hk).
    rewrite (createGhlUsageHandler_run rt env req w cid k Hauth Hval Hcid Hk
               Htxn).
    cbv zeta. cbn [snd store]. unfold units_positive, insert_usage.
    destruct (key_taken _ _); [done |].
    cbn [fst usage_ledger upsert_customer]. apply Forall_app. split; [done |].
    repeat constructor. cbn [units]. by destruct Hval as (_ & _ & Hunits & _).
  - destruct (decide (bill_authorization req = Some "Bearer admin"))
      as [Hauth | Hauth].
    2:{ by rewrite bill_week_unauthorized. }
    destruct (bill_week_run rt env req w Htxn Hauth)
      as (results & w1 & Hrun & _ & Hsteps).
    rewrite Hrun. cbn [snd].
    pose proof (billing_steps_ledger _ _ _ _ _ Hsteps) as Hledger.
    by apply (claimed_after_units _ _ _ _ Hledger).
  - destruct (createDwollaWebhookHandler rt env (pg_query rt) req w)
      as [r w1] eqn:Hrun. cbn [snd].
    destruct (notification_moves_matching_invoices rt env req w r w1 Htxn Hrun)
      as (_ & _ & Hu & _).
    unfold units_positive. by rewrite Hu.
  - done.
  - done.
Qed.

(** X28.  Units stay positive along any history of the service: the
    validation admits only positive units and nothing rewrites them.
    Hence the billing query misses no usage: over any window, an active
    customer with a funding source who has an unbilled usage row in the
    window is returned by the query, with a positive total. *)
Theorem billable_usage_is_never_missed (w w' : World) (start end_ : Z)
  (cid : string) (cust : Customer) (r : UsageRow) :
  ids_in_sequence w ->
  units_positive (store w) ->
  rtc (service_step rt env) w w' ->
  customers (store w') !! cid = Some cust ->
  status cust = Some "active" ->
  dwolla_funding_href cust <> None ->
  r ∈ usage_ledger (store w') ->
  qualifies start end_ cid r = true ->
  units_positive (store w')
  /\ exists c, c ∈ select_billable start end_ (store w')
               /\ row_crm_contact_id c = cid
               /\ positive_number (row_units c).
Proof.
  intros Hw Hpos Hrtc Hcust Hactive Hfunded Hr Hq.
  assert (Hpos' : units_positive (store w')).
  { by apply (history_induction rt env (fun w => units_positive (store w))
                service_step_units w w'). }
  split; [exact Hpos' |].
  pose proof (usage_total_positive start end_ cid (store w') r Hpos' Hr Hq)
    as Htotal.
  destruct (select_billable_complete start end_ (store w') cid cust Hcust
              Hactive Hfunded (positive_number_gt0 _ Htotal))
    as (c & Hc & Hcid).
  exists c. split; [done |]. split; [done |].
  pose proof (select_billable_qualifying start end_ (store w')) as Hqual.
  rewrite Forall_forall in Hqual.
  destruct (Hqual c Hc) as (cust' & _ & _ & _ & _ & Hunits & _).
  by rewrite Hunits, Hcid.
Qed.

End PositiveUnits.

Lemma invoice_records_witness :
  let rt := sample_runtime transfer_created in
  let w' := (bill_week rt sample_env (pg_query rt) billing_request
               billing_world).2 in
  exists new,
    invoices (store w') = (invoices (store billing_world) ++ new)%list
    /\ Forall (fun i => exists c,
                 c ∈ select_billable 1736395200000 1737000000000
                       (store billing_world)
                 /\ records_transfer rt sample_env 1736395200000 1737000000000
                      (net_calls billing_world) (net_calls w') c i) new.
Proof.
  apply (invoice_records_accepted_transfer (sample_runtime transfer_created)
           sample_env billing_request billing_world eq_refl eq_refl).
Defined.

Lemma billable_usage_witness :
  let rt := sample_runtime [] in
  let w' := (createGhlUsageHandler rt sample_env (pg_query rt)
               (usage_request "John Doe" 3 "CUSTOMER123-test-3")
               billing_world).2 in
  units_positive (store w')
  /\ exists c, c ∈ select_billable 1736395200000 1737000000000 (store w')
               /\ row_crm_contact_id c = "CUSTOMER123"
               /\ positive_number (row_units c).
Proof.
  apply (billable_usage_is_never_missed (sample_runtime []) sample_env
           billing_world _ 1736395200000 1737000000000 "CUSTOMER123"
           sample_customer
           (mkUsageRow 3 "CUSTOMER123-test-3" "CUSTOMER123" (Fin 3)
              1736973000000 None)
           billing_world_in_sequence).
  - repeat constructor.
  - apply rtc_once, usage_recorded.
  - reflexivity.
  - reflexivity.
  - discriminate.
  - vm_compute. do 2 right. left.
  - reflexivity.
Defined.
